(** * BlackLine: remote-control agent and hub

    A shallow embedding of [client.py], [database.py] and [server.py].

    - [Module Py]       the few Python values and operations the code relies on
                        (JSON values, [dict.get], [len], truthiness, base64).
    - [Module Client]   [BlackLineClient]: the handlers, [process_message],
                        the reconnect loop [run] and the streaming loop.
    - [Module Database] the [clients] table of [database.py].
    - [Module Server]   [ConnectionManager], [websocket_endpoint],
                        [send_screenshot] and [cmd_list].
    - [Module ClientView], [Module ServerView]
                        what the statements observe of a run, and the
                        concrete surroundings of the examples.

    The statements follow, one section for each part of the program.

    Conventions.  Every call that leaves the process (websocket, pyautogui,
    the OS, the screen grabber, the event-loop clock) is recorded, in order,
    in a trace; whether it raises is decided by a [world], over which the
    theorems quantify.  [print] calls produce no trace entry, but the
    evaluation of their arguments is modelled where it can raise.  Python
    floats (durations, clock readings) are idealised as rationals. *)

From Stdlib Require Import QArith Ascii String.
From Stdlib.Strings Require Byte.
From stdpp Require Import gmap strings list fin_maps.

Open Scope string_scope.

(* ===================================================================== *)
(** * Python values *)
(* ===================================================================== *)

Module Py.

(** What [json.loads] returns.  A [dict] is kept as its items, keys
    distinct, as [json.loads] builds it.  Numbers with a fraction are not
    modelled. *)
#[local] Unset Elimination Schemes.
Inductive json : Type :=
| JNull
| JBool (b : bool)
| JInt (z : Z)
| JStr (s : string)
| JArr (items : list json)
| JObj (items : list (string * json)).
#[local] Set Elimination Schemes.

(** Subclasses of [Exception].  [asyncio.CancelledError], which derives from
    [BaseException] and so passes through [except Exception], is kept apart
    (see [Client.outcome]). *)
Inductive exn : Type :=
| TypeError
| AttributeError
| InvalidStateError
| ConnectionClosed
| JSONDecodeError
| TimeoutError
| WebSocketDisconnect
| OtherError (what : string).

(** [d.get(k)] on the items of a dict. *)
Fixpoint items_get (k : string) (d : list (string * json)) : option json :=
  match d with
  | [] => None
  | (k', v) :: d' => if String.eqb k k' then Some v else items_get k d'
  end.

(** [k in d]. *)
Definition items_mem (k : string) (d : list (string * json)) : bool :=
  match items_get k d with Some _ => true | None => false end.

(** [message.get(k, default)]; on a value that is no dict the attribute
    [get] is missing. *)
Definition dict_get (message : json) (k : string) (default : json)
  : exn + json :=
  match message with
  | JObj d => inr (match items_get k d with Some v => v | None => default end)
  | _ => inl AttributeError
  end.

(** [v == s] for a string literal [s]. *)
Definition eq_str (v : json) (s : string) : bool :=
  match v with JStr s' => String.eqb s' s | _ => false end.

(** Truth value of [if v]. *)
Definition truthy (v : json) : bool :=
  match v with
  | JNull => false
  | JBool b => b
  | JInt z => negb (z =? 0)%Z
  | JStr s => negb (String.eqb s "")
  | JArr l => match l with [] => false | _ => true end
  | JObj d => match d with [] => false | _ => true end
  end.

(** [len(v)]. *)
Definition len (v : json) : exn + nat :=
  match v with
  | JStr s => inr (String.length s)
  | JArr l => inr (length l)
  | JObj d => inr (length d)
  | _ => inl TypeError
  end.

(** [hash(v)] succeeds: lists and dicts cannot be dictionary keys. *)
Definition hashable (v : json) : bool :=
  match v with JArr _ | JObj _ => false | _ => true end.

(** [int(-v)]: defined on integers and on booleans, which are integers. *)
Definition int_neg (v : json) : exn + Z :=
  match v with
  | JInt z => inr (- z)%Z
  | JBool b => inr (- (if b then 1 else 0))%Z
  | _ => inl TypeError
  end.

(** ** [base64.b64encode(data).decode('ascii')] *)

Definition b64_alphabet : list ascii :=
  list_ascii_of_string
    "ABCDEFGHIJKLMNOPQRSTUVWXYZabcdefghijklmnopqrstuvwxyz0123456789+/".

Definition b64_char (n : N) : ascii :=
  nth (N.to_nat n) b64_alphabet "="%char.

Fixpoint b64_chars (data : list N) : list ascii :=
  match data with
  | [] => []
  | [a] =>
      [ b64_char (N.shiftr a 2);
        b64_char (N.shiftl (N.land a 3) 4);
        "="%char; "="%char ]
  | [a; b] =>
      [ b64_char (N.shiftr a 2);
        b64_char (N.lor (N.shiftl (N.land a 3) 4) (N.shiftr b 4));
        b64_char (N.shiftl (N.land b 15) 2);
        "="%char ]
  | a :: b :: c :: rest =>
      b64_char (N.shiftr a 2)
      :: b64_char (N.lor (N.shiftl (N.land a 3) 4) (N.shiftr b 4))
      :: b64_char (N.lor (N.shiftl (N.land b 15) 2) (N.shiftr c 6))
      :: b64_char (N.land c 63)
      :: b64_chars rest
  end.

Definition b64encode (data : list Byte.byte) : string :=
  string_of_list_ascii (b64_chars (map Byte.to_N data)).

End Py.

(* ===================================================================== *)
(** * client.py *)
(* ===================================================================== *)

Module Client.
Import Py.

(** ** CONFIG *)

Definition RECONNECT_DELAY : Q := 5.
Definition STREAM_FPS : Q := 30.

(** ** Calls that leave the process *)

Inductive call : Type :=
| WsConnect (url : string)          (* websockets.connect(url, ...) *)
| WsSend (data : json)              (* self.ws.send(json.dumps(data)) *)
| WsClose                           (* self.ws.close() *)
| WsRecv                            (* self.ws.recv() *)
| Sleep (seconds : Q)               (* asyncio.sleep(seconds) *)
| Grab                              (* mss grab and JPEG conversion *)
| LoopTime                          (* asyncio.get_event_loop().time() *)
| OsSystem (command : string)       (* os.system(command) *)
| WebbrowserOpen (url : json)       (* webbrowser.open(url) *)
| PyWrite (text : json)             (* pyautogui.write(text, interval=0.05) *)
| MoveTo (x y : json)               (* pyautogui.moveTo(x, y, duration=0.1) *)
| MouseDown (button : string)
| MouseUp (button : string)
| PyClick (button : string)
| DoubleClick (button : string)
| Scroll (clicks : Z)
| KeyDown (key : json)
| KeyUp (key : json)
| CreateTask                        (* asyncio.create_task(self._stream_screen()) *)
| TaskCancel                        (* self.stream_task.cancel() *)
| TaskAwait.                        (* await self.stream_task *)

(** How [await self.stream_task] ends once the task was cancelled. *)
Inductive task_result : Type :=
| TaskReturned
| TaskCancelled
| TaskRaised (e : exn).

(** The surroundings: numbered by the position of a call in the run. *)
Record world : Type := World {
  os_name : string;
  raises : nat -> call -> option exn;
  grab : nat -> option (list Byte.byte);
  clock : nat -> Q;
  task_end : nat -> task_result;
  cancel_req : nat -> bool
}.

(** ** The client object *)

Record client : Type := BlackLineClient {
  server_url : string;
  ws : option nat;
  client_name : string;
  is_streaming : bool;
  stream_task : option nat
}.

Definition set_ws (v : option nat) (c : client) : client :=
  BlackLineClient (server_url c) v (client_name c) (is_streaming c) (stream_task c).
Definition set_is_streaming (v : bool) (c : client) : client :=
  BlackLineClient (server_url c) (ws c) (client_name c) v (stream_task c).
Definition set_stream_task (v : option nat) (c : client) : client :=
  BlackLineClient (server_url c) (ws c) (client_name c) (is_streaming c) v.

(** ** Coroutines: state, trace and exceptions *)

Inductive outcome (A : Type) : Type :=
| Ret (a : A)
| Raise (e : exn)
| Cancelled.                        (* asyncio.CancelledError *)
Arguments Ret {A} a.
Arguments Raise {A} e.
Arguments Cancelled {A}.

Record res (A : Type) : Type := Res {
  out : outcome A;
  self : client;
  tick : nat;
  trace : list call
}.
Arguments Res {A} out self tick trace.
Arguments out {A} r.
Arguments self {A} r.
Arguments tick {A} r.
Arguments trace {A} r.

Definition M (A : Type) : Type := world -> client -> nat -> res A.

Definition ret {A} (a : A) : M A := fun _ c t => Res (Ret a) c t [].

(** The calls of [r], made after those of [before]. *)
Definition after {A} (before : list call) (r : res A) : res A :=
  match r with Res o c t tr => Res o c t (before ++ tr) end.

Definition bind {A B} (m : M A) (k : A -> M B) : M B := fun w c t =>
  match m w c t with
  | Res (Ret a) c' t' tr => after tr (k a w c' t')
  | Res (Raise e) c' t' tr => Res (Raise e) c' t' tr
  | Res Cancelled c' t' tr => Res Cancelled c' t' tr
  end.

#[export] Instance M_ret : MRet M := @ret.
#[export] Instance M_bind : MBind M := fun A B k m => bind m k.

Definition raise {A} (e : exn) : M A := fun _ c t => Res (Raise e) c t [].

Definition lift {A} (x : exn + A) : M A :=
  match x with inl e => raise e | inr a => ret a end.

(** [try: body / except Exception as e: handler e]. *)
Definition try_except {A} (body : M A) (handler : exn -> M A) : M A :=
  fun w c t =>
  match body w c t with
  | Res (Raise e) c' t' tr => after tr (handler e w c' t')
  | r => r
  end.

(** [try: body / except asyncio.CancelledError: pass]. *)
Definition except_cancelled (body : M unit) : M unit := fun w c t =>
  match body w c t with
  | Res Cancelled c' t' tr => Res (Ret tt) c' t' tr
  | r => r
  end.

Definition get : M client := fun _ c t => Res (Ret c) c t [].
Definition modify (f : client -> client) : M unit :=
  fun _ c t => Res (Ret tt) (f c) t [].
Definition ask : M world := fun w c t => Res (Ret w) c t [].

(** A call that the world may make raise. *)
Definition ext (k : call) : M unit := fun w c t =>
  Res (match raises w t k with Some e => Raise e | None => Ret tt end)
      c (S t) [k].

(** A call that does not raise. *)
Definition emit (k : call) : M unit := fun _ c t => Res (Ret tt) c (S t) [k].

Definition sleep (seconds : Q) : M unit := emit (Sleep seconds).

(** ** Sending *)

(** [send]: nothing without a connection; a failing send is swallowed. *)
Definition send (data : json) : M unit :=
  c ← get;
  match ws c with
  | Some _ => try_except (ext (WsSend data)) (fun _ => ret tt)
  | None => ret tt
  end.

Definition ack_envelope (command : string) : json :=
  JObj [("type", JStr "ack"); ("command", JStr command)].

Definition send_ack (command : string) : M unit :=
  send (ack_envelope command).

(** [_capture_screen]: the JPEG bytes, or [b""] when anything inside raised. *)
Definition _capture_screen : M (list Byte.byte) := fun w c t =>
  Res (Ret (match grab w t with Some jpeg => jpeg | None => [] end))
      c (S t) [Grab].

Definition image_envelope (type : string) (image_data : list Byte.byte) : json :=
  JObj [("type", JStr type); ("image", JStr (b64encode image_data))].

(** ** COMMAND HANDLERS *)

Definition handle_screenshot_request : M unit :=
  try_except
    (image_data ← _capture_screen;
     match image_data with
     | [] => ret tt
     | _ => send (image_envelope "screenshot" image_data)
     end;;
     send_ack "screenshot_request")
    (fun _ => ret tt).

Definition handle_shutdown : M unit :=
  try_except
    (send_ack "shutdown";;
     sleep (1 # 2);;
     w ← ask;
     if String.eqb (os_name w) "nt"
     then ext (OsSystem "shutdown /s /t 1")
     else ext (OsSystem "shutdown now"))
    (fun _ => ret tt).

Definition handle_browser (url : json) : M unit :=
  try_except
    (ext (WebbrowserOpen url);;
     send_ack "browser")
    (fun _ => ret tt).

(** The argument of the first [print]: [text[:50]] when [len(text) > 50]. *)
Definition typing_banner (text : json) : exn + unit :=
  match len text with
  | inl e => inl e
  | inr n =>
      if (50 <? n)%nat
      then match text with JObj _ => inl TypeError | _ => inr tt end
      else inr tt
  end.

Definition handle_type (text : json) : M unit :=
  try_except
    (lift (typing_banner text);;
     ext (PyWrite text);;
     send_ack "type")
    (fun _ => ret tt).

(** [button_map = {0: 'left', 1: 'middle', 2: 'right'}]. *)
Definition button_map : list (Z * string) :=
  [(0, "left"); (1, "middle"); (2, "right")]%Z.

(** The integer a value compares equal to, as a dict key: [True == 1]. *)
Definition int_key (v : json) : option Z :=
  match v with
  | JInt z => Some z
  | JBool b => Some (if b then 1 else 0)%Z
  | _ => None
  end.

Fixpoint assoc_Z (z : Z) (m : list (Z * string)) : option string :=
  match m with
  | [] => None
  | (z', s) :: m' => if (z =? z')%Z then Some s else assoc_Z z m'
  end.

(** [button_map.get(button, 'left')]. *)
Definition button_map_get (button : json) : exn + string :=
  if hashable button then
    inr (match int_key button with
         | Some z => match assoc_Z z button_map with Some s => s | None => "left" end
         | None => "left"
         end)
  else inl TypeError.

Definition is_not_None (v : json) : bool :=
  match v with JNull => false | _ => true end.

Definition kwargs_get (kwargs : list (string * json)) (k : string)
    (default : json) : json :=
  match items_get k kwargs with Some v => v | None => default end.

Definition move_if_given (x y : json) : M unit :=
  if is_not_None x && is_not_None y then ext (MoveTo x y) else ret tt.

Definition handle_mouse_event (event : json) (kwargs : list (string * json))
  : M unit :=
  try_except
    (let x := kwargs_get kwargs "x" JNull in
     let y := kwargs_get kwargs "y" JNull in
     let button := kwargs_get kwargs "button" (JInt 1) in
     let delta_x := kwargs_get kwargs "deltaX" (JInt 0) in
     let delta_y := kwargs_get kwargs "deltaY" (JInt 0) in
     pyautogui_button ← lift (button_map_get button);
     (if eq_str event "mousemove" then
        move_if_given x y
      else if eq_str event "mousedown" then
        move_if_given x y;;
        ext (MouseDown pyautogui_button)
      else if eq_str event "mouseup" then
        ext (MouseUp pyautogui_button)
      else if eq_str event "click" then
        move_if_given x y;;
        ext (PyClick pyautogui_button)
      else if eq_str event "doubleclick" then
        move_if_given x y;;
        ext (DoubleClick pyautogui_button)
      else if eq_str event "wheel" then
        clicks ← lift (int_neg delta_y);
        ext (Scroll clicks)
      else ret tt);;
     send_ack "mouse_event")
    (fun _ => ret tt).

Definition keyup_map : list (string * string) :=
  [ ("Enter", "enter"); ("Escape", "esc"); ("Backspace", "backspace");
    ("Delete", "delete"); ("ArrowUp", "up"); ("ArrowDown", "down");
    ("ArrowLeft", "left"); ("ArrowRight", "right"); ("Tab", "tab");
    ("Space", "space"); ("Control", "ctrl"); ("Alt", "alt");
    ("Shift", "shift"); ("Meta", "command") ].

Definition keydown_map : list (string * string) :=
  keyup_map ++
  [ ("F1", "f1"); ("F2", "f2"); ("F3", "f3"); ("F4", "f4");
    ("F5", "f5"); ("F6", "f6"); ("F7", "f7"); ("F8", "f8");
    ("F9", "f9"); ("F10", "f10"); ("F11", "f11"); ("F12", "f12") ].

Fixpoint assoc_str (k : string) (m : list (string * string)) : option string :=
  match m with
  | [] => None
  | (k', s) :: m' => if String.eqb k k' then Some s else assoc_str k m'
  end.

(** [key_map.get(key, key)]. *)
Definition key_map_get (key_map : list (string * string)) (key : json)
  : exn + json :=
  if hashable key then
    inr (match key with
         | JStr s => match assoc_str s key_map with Some k => JStr k | None => key end
         | _ => key
         end)
  else inl TypeError.

(** [pyautogui_key and len(pyautogui_key) == 1]. *)
Definition single_char (pyautogui_key : json) : exn + bool :=
  if truthy pyautogui_key then
    match len pyautogui_key with
    | inl e => inl e
    | inr n => inr (n =? 1)%nat
    end
  else inr false.

Definition handle_keyboard_event (event key code : json) : M unit :=
  try_except
    ((if eq_str event "keydown" then
        pyautogui_key ← lift (key_map_get keydown_map key);
        one ← lift (single_char pyautogui_key);
        if one : bool then ext (KeyDown pyautogui_key)
        else ext (KeyDown pyautogui_key)
      else if eq_str event "keyup" then
        pyautogui_key ← lift (key_map_get keyup_map key);
        ext (KeyUp pyautogui_key)
      else ret tt);;
     send_ack "keyboard_event")
    (fun _ => ret tt).

(** [asyncio.create_task]: the handle is the position of the call. *)
Definition create_task : M nat := fun _ c t => Res (Ret t) c (S t) [CreateTask].

(** [await self.stream_task], after [cancel()]. *)
Definition await_stream_task : M unit := fun w c t =>
  Res (match task_end w t with
       | TaskReturned => Ret tt
       | TaskCancelled => Cancelled
       | TaskRaised e => Raise e
       end) c (S t) [TaskAwait].

Definition handle_start_stream : M unit :=
  try_except
    (c ← get;
     (if negb (is_streaming c) then
        modify (set_is_streaming true);;
        task ← create_task;
        modify (set_stream_task (Some task))
      else ret tt);;
     send_ack "start_stream")
    (fun _ => ret tt).

(** The cancellation shared by [handle_stop_stream] and [disconnect]. *)
Definition cancel_stream_task : M unit :=
  c ← get;
  match stream_task c with
  | Some _ =>
      emit TaskCancel;;
      except_cancelled await_stream_task;;
      modify (set_stream_task None)
  | None => ret tt
  end.

Definition handle_stop_stream : M unit :=
  try_except
    (modify (set_is_streaming false);;
     cancel_stream_task;;
     send_ack "stop_stream")
    (fun _ => ret tt).

(** ** MESSAGE PROCESSING *)

(** [self.handle_mouse_event(event, **message)]: a key [event] or [self] of
    the message collides with one of the two positional arguments of the
    bound method. *)
Definition call_handle_mouse_event (event message : json) : M unit :=
  match message with
  | JObj kwargs =>
      if items_mem "event" kwargs || items_mem "self" kwargs
      then raise TypeError
      else handle_mouse_event event kwargs
  | _ => raise TypeError
  end.

Definition process_message (message : json) : M unit :=
  try_except
    (msg_type ← lift (dict_get message "type" JNull);
     match msg_type with
     | JNull => ret tt
     | _ =>
       if eq_str msg_type "screenshot_request" then
         handle_screenshot_request
       else if eq_str msg_type "shutdown" then
         handle_shutdown
       else if eq_str msg_type "browser" then
         url ← lift (dict_get message "url" (JStr ""));
         handle_browser url
       else if eq_str msg_type "type" then
         text ← lift (dict_get message "text" (JStr ""));
         handle_type text
       else if eq_str msg_type "mouse_event" then
         event ← lift (dict_get message "event" (JStr ""));
         call_handle_mouse_event event message
       else if eq_str msg_type "keyboard_event" then
         event ← lift (dict_get message "event" (JStr ""));
         key ← lift (dict_get message "key" JNull);
         code ← lift (dict_get message "code" JNull);
         handle_keyboard_event event key code
       else if eq_str msg_type "start_stream" then
         handle_start_stream
       else if eq_str msg_type "stop_stream" then
         handle_stop_stream
       else ret tt
     end)
    (fun _ => ret tt).

(** ** Connection *)

(** [websockets.connect(url, ...)], with what the network answers. *)
Definition ws_connect (url : string) (answer : exn + nat) : M nat :=
  fun _ c t =>
  Res (match answer with inl e => Raise e | inr conn => Ret conn end)
      c (S t) [WsConnect url].

Definition connect (answer : exn + nat) : M bool :=
  c ← get;
  let url := server_url c ++ "/" ++ client_name c in
  try_except
    (conn ← ws_connect url answer;
     modify (set_ws (Some conn));;
     ret true)
    (fun _ => ret false).

Definition disconnect : M unit :=
  try_except
    (modify (set_is_streaming false);;
     cancel_stream_task;;
     c ← get;
     match ws c with
     | Some _ => ext WsClose;; modify (set_ws None)
     | None => ret tt
     end)
    (fun _ => ret tt).

(** ** MAIN LOOP *)

(** What one [self.ws.recv()] brings: a text, with what [json.loads] makes
    of it ([None]: [JSONDecodeError]), or an exception. *)
Inductive recv_result : Type :=
| RecvText (loads : option json)
| RecvRaises (e : exn).

(** What the network does at one connection attempt. *)
Inductive attempt : Type :=
| ConnectFails (e : exn)
| Connects (conn : nat) (inbound : list recv_result).

Definition ws_recv (r : recv_result) : M (option json) := fun _ c t =>
  match ws c with
  | None => Res (Raise AttributeError) c t []
  | Some _ =>
      Res (match r with RecvText loads => Ret loads | RecvRaises e => Raise e end)
          c (S t) [WsRecv]
  end.

Definition json_loads (message : option json) : exn + json :=
  match message with Some data => inr data | None => inl JSONDecodeError end.

Inductive flow : Type := Continue | Break.

(** One turn of the inner [while True]. *)
Definition receive_one (r : recv_result) : M flow :=
  try_except
    (message ← ws_recv r;
     data ← lift (json_loads message);
     process_message data;;
     ret Continue)
    (fun e =>
       match e with
       | ConnectionClosed => ret Break
       | JSONDecodeError => ret Continue
       | _ => ret Break
       end).

(** Where a loop stands when the script of the network is used up. *)
Inductive loop_end : Type :=
| Broke                             (* left by [break] *)
| Waiting.                          (* suspended in [recv] *)

Fixpoint message_loop (inbound : list recv_result) : M loop_end :=
  match inbound with
  | [] => ret Waiting
  | r :: rest =>
      f ← receive_one r;
      match f with
      | Continue => message_loop rest
      | Break => ret Broke
      end
  end.

Inductive iteration_end : Type :=
| Retry                             (* [continue] after a failed connect *)
| Cleanup                           (* falls through to the cleanup *)
| Suspended.                        (* still inside the message loop *)

(** The [try] statement of the outer [while True]. *)
Definition run_iteration (a : attempt) : M iteration_end :=
  try_except
    (connected ← connect (match a with
                          | ConnectFails e => inl e
                          | Connects conn _ => inr conn
                          end);
     if negb connected then
       sleep RECONNECT_DELAY;;
       ret Retry
     else
       e ← message_loop (match a with
                         | ConnectFails _ => []
                         | Connects _ inbound => inbound
                         end);
       match e with
       | Broke => ret Cleanup
       | Waiting => ret Suspended
       end)
    (fun _ => ret Cleanup).

(** Where [run] stands: it has no [return] and no [break]. *)
Inductive position : Type :=
| AtConnect                         (* about to call [connect] again *)
| AtRecv.                           (* suspended in [recv] *)

Fixpoint run (script : list attempt) : M position :=
  match script with
  | [] => ret AtConnect
  | a :: rest =>
      e ← run_iteration a;
      match e with
      | Retry => run rest
      | Suspended => ret AtRecv
      | Cleanup =>
          disconnect;;
          sleep RECONNECT_DELAY;;
          run rest
      end
  end.

(** ** Streaming task *)

Definition frame_delay : Q := 1 / STREAM_FPS.

(** [max(0, x)]. *)
Definition max0 (x : Q) : Q := if Qle_bool x 0 then 0 else x.

Definition loop_time : M Q := fun w c t =>
  Res (match raises w t LoopTime with
       | Some e => Raise e
       | None => Ret (clock w t)
       end) c (S t) [LoopTime].

(** An [await] of the streaming task: a cancellation requested by
    [handle_stop_stream] or [disconnect] is delivered there. *)
Definition awaited {A} (m : M A) : M A := fun w c t =>
  if cancel_req w t then Res Cancelled c t [] else m w c t.

(** [try: body / except asyncio.CancelledError: on_cancel /
    except Exception as e: on_exception e]. *)
Definition try_except2 {A} (body : M A) (on_cancel : M A)
    (on_exception : exn -> M A) : M A := fun w c t =>
  match body w c t with
  | Res (Ret a) c' t' tr => Res (Ret a) c' t' tr
  | Res Cancelled c' t' tr => after tr (on_cancel w c' t')
  | Res (Raise e) c' t' tr => after tr (on_exception e w c' t')
  end.

(** The body of [while self.is_streaming]. *)
Definition stream_iteration : M flow :=
  try_except2
    (start_time ← loop_time;
     image_data ← _capture_screen;
     match image_data with
     | [] => ret tt
     | _ => awaited (send (image_envelope "stream_frame" image_data))
     end;;
     now ← loop_time;
     let elapsed := (now - start_time)%Q in
     let sleep_time := max0 (frame_delay - elapsed)%Q in
     awaited (sleep sleep_time);;
     ret Continue)
    (ret Break)
    (fun _ =>
       awaited (sleep 1);;
       ret Continue).

Inductive stream_end : Type :=
| Stopped                           (* [self.is_streaming] was false *)
| Interrupted                       (* [break] on CancelledError *)
| Streaming.                        (* still in the loop *)

(** [_stream_screen], run for at most [turns] turns of its loop. *)
Fixpoint _stream_screen (turns : nat) : M stream_end :=
  match turns with
  | O => ret Streaming
  | S n =>
      c ← get;
      if is_streaming c then
        f ← stream_iteration;
        match f with
        | Continue => _stream_screen n
        | Break => ret Interrupted
        end
      else ret Stopped
  end.

End Client.

(* ===================================================================== *)
(** * database.py *)
(* ===================================================================== *)

Module Database.

Inductive ClientStatus : Type := ONLINE | OFFLINE.

Definition value (s : ClientStatus) : string :=
  match s with ONLINE => "online" | OFFLINE => "offline" end.

Record Client : Type := mkClient {
  id : Z;
  name : string;
  status : ClientStatus;
  last_seen : option Q
}.

(** The [clients] table: its rows in rowid order, and the largest rowid
    handed out so far ([AUTOINCREMENT]). *)
Record table : Type := Table {
  rows : list Client;
  sequence : Z
}.

(** [init_db] on a database file that does not exist yet. *)
Definition init_db : table := Table [] 0.

(** [SELECT ... WHERE name = ?], [fetchone]. *)
Fixpoint select_by_name (n : string) (rs : list Client) : option Client :=
  match rs with
  | [] => None
  | r :: rs' => if String.eqb (name r) n then Some r else select_by_name n rs'
  end.

Definition get_or_create_client (n : string) (now : Q) (t : table)
  : Client * table :=
  match select_by_name n (rows t) with
  | Some row => (row, t)
  | None =>
      let client_id := (sequence t + 1)%Z in
      (mkClient client_id n OFFLINE (Some now),
       Table (rows t ++ [mkClient client_id n OFFLINE (Some now)]) client_id)
  end.

(** [UPDATE clients SET status = ?, last_seen = ? WHERE id = ?]. *)
Definition update_client_status (client_id : Z) (s : ClientStatus) (now : Q)
    (t : table) : table :=
  Table (map (fun r => if (id r =? client_id)%Z
                       then mkClient (id r) (name r) s (Some now)
                       else r) (rows t))
        (sequence t).

Definition get_all_clients (t : table) : list Client := rows t.

(** [SELECT ... WHERE id = ?], [fetchone]. *)
Fixpoint select_by_id (client_id : Z) (rs : list Client) : option Client :=
  match rs with
  | [] => None
  | r :: rs' => if (id r =? client_id)%Z then Some r else select_by_id client_id rs'
  end.

Definition get_client_by_id (client_id : Z) (t : table) : option Client :=
  select_by_id client_id (rows t).

Definition get_client_by_name (n : string) (t : table) : option Client :=
  select_by_name n (rows t).

(** [DELETE FROM clients WHERE id = ?]: the sequence of [AUTOINCREMENT]
    stays. *)
Definition delete_client (client_id : Z) (t : table) : table :=
  Table (List.filter (fun r => negb (id r =? client_id)%Z) (rows t))
        (sequence t).

End Database.

(* ===================================================================== *)
(** * server.py *)
(* ===================================================================== *)

Module Server.
Import Py.

(** ** CONNECTION MANAGER *)

Module ConnectionManager.

(** A [WebSocket] object is known by a handle: two connections are two
    handles, whatever name they come under. *)
Record t : Type := Manager {
  active_connections : gmap Z nat;
  name_to_id : gmap string Z
}.

Definition init : t := Manager ∅ ∅.

(** The bookkeeping of [connect], between its database calls. *)
Definition register (websocket : nat) (client_name : string) (client_id : Z)
    (m : t) : t :=
  Manager (<[client_id := websocket]> (active_connections m))
          (<[client_name := client_id]> (name_to_id m)).

Definition disconnect (client_id : Z) (m : t) : t :=
  Manager (delete client_id (active_connections m))
          (filter (fun entry => entry.2 ≠ client_id) (name_to_id m)).

Definition get_online_clients (m : t) : list (Z * string) :=
  omap (fun entry =>
          match active_connections m !! entry.2 with
          | Some _ => Some (entry.2, entry.1)
          | None => None
          end)
       (map_to_list (name_to_id m)).

End ConnectionManager.

(** ** The process *)

(** An [asyncio.Future]. *)
Inductive future_state : Type :=
| Pending
| Done (result : json)
| FutureCancelled.

Inductive bot_text : Type :=
| OfflineText (client_id : Z)       (* "Client {client_id} is offline" *)
| TimeoutText (client_id : Z)       (* "Timeout waiting for screenshot from client ..." *)
| ErrorText (e : exn).              (* "Error: {e}" *)

(** What the process sends out. *)
Inductive output : Type :=
| WsAccept (websocket : nat)
| WsSendJson (websocket : nat) (data : json)
| BotSendMessage (chat_id : Z) (text : bot_text)
| BotSendPhoto (chat_id : Z) (image_bytes : list Byte.byte) (client_id : Z).

(** A [send_screenshot] call suspended in [asyncio.wait_for]. *)
Record waiter : Type := Waiter {
  w_client_id : Z;
  w_chat_id : Z;
  w_timeout : Q
}.

(** The module-level state of [server.py], the database file, and the
    coroutines that are suspended: the running [websocket_endpoint]s, each
    with its local [client_id], and the waiting [send_screenshot]s, each
    under the [Future] it created. *)
Record hub : Type := Hub {
  db : Database.table;
  manager : ConnectionManager.t;
  screenshot_pending : gmap Z nat;
  futures : gmap nat future_state;
  endpoints : gmap nat Z;
  waiters : gmap nat waiter;
  sent : list output
}.

Definition set_db v h :=
  Hub v (manager h) (screenshot_pending h) (futures h) (endpoints h) (waiters h) (sent h).
Definition set_manager v h :=
  Hub (db h) v (screenshot_pending h) (futures h) (endpoints h) (waiters h) (sent h).
Definition set_screenshot_pending v h :=
  Hub (db h) (manager h) v (futures h) (endpoints h) (waiters h) (sent h).
Definition set_futures v h :=
  Hub (db h) (manager h) (screenshot_pending h) v (endpoints h) (waiters h) (sent h).
Definition set_endpoints v h :=
  Hub (db h) (manager h) (screenshot_pending h) (futures h) v (waiters h) (sent h).
Definition set_waiters v h :=
  Hub (db h) (manager h) (screenshot_pending h) (futures h) (endpoints h) v (sent h).
Definition say (o : output) h :=
  Hub (db h) (manager h) (screenshot_pending h) (futures h) (endpoints h) (waiters h)
      (sent h ++ [o]).

(** The process just started on the database file [file]. *)
Definition start (file : Database.table) : hub :=
  Hub file ConnectionManager.init ∅ ∅ ∅ ∅ [].

(** The process is stopped and started again: the database file stays. *)
Definition restart (h : hub) : hub := start (db h).

(** [ConnectionManager.connect]. *)
Definition connect (websocket : nat) (client_name : string) (now : Q)
    (h : hub) : Z * hub :=
  let h := say (WsAccept websocket) h in
  let (client, file) := Database.get_or_create_client client_name now (db h) in
  let h := set_db file h in
  let h := set_manager
             (ConnectionManager.register websocket client_name
                (Database.id client) (manager h)) h in
  let h := set_db (Database.update_client_status (Database.id client)
                     Database.ONLINE now (db h)) h in
  (Database.id client, h).

(** [ConnectionManager.send_to_client]; [failure] is what [send_json] raises. *)
Definition send_to_client (client_id : Z) (data : json) (failure : option exn)
    (h : hub) : bool * hub :=
  match ConnectionManager.active_connections (manager h) !! client_id with
  | None => (false, h)
  | Some websocket =>
      (match failure with None => true | Some _ => false end,
       say (WsSendJson websocket data) h)
  end.

(** ** websocket_endpoint *)

(** What one [websocket.receive_text()] brings. *)
Inductive receive_result : Type :=
| Text (loads : option json)        (* [None]: [json.loads] raises *)
| ReceiveRaises (e : exn).          (* [WebSocketDisconnect] or another *)

(** [future.set_result(v)]. *)
Definition set_result (future : nat) (v : json) (h : hub) : exn + hub :=
  match futures h !! future with
  | Some Pending => inr (set_futures (<[future := Done v]> (futures h)) h)
  | _ => inl InvalidStateError
  end.

(** The inner [try] of the receive loop, for one text. *)
Definition on_text (client_id : Z) (loads : option json) (h : hub)
  : exn + hub :=
  match loads with
  | None => inr h
  | Some message =>
      match dict_get message "type" JNull with
      | inl e => inl e
      | inr msg_type =>
          match message with
          | JObj fields =>
              if eq_str msg_type "screenshot" && items_mem "image" fields then
                match screenshot_pending h !! client_id with
                | Some future =>
                    set_result future
                      (match items_get "image" fields with
                       | Some image => image
                       | None => JNull
                       end) h
                | None => inr h
                end
              else inr h
          | _ => inr h
          end
      end
  end.

(** Both [except] clauses of the endpoint; the coroutine ends. *)
Definition on_endpoint_error (websocket : nat) (client_id : Z) (now : Q)
    (h : hub) : hub :=
  let h := set_manager (ConnectionManager.disconnect client_id (manager h)) h in
  let h := set_db (Database.update_client_status client_id
                     Database.OFFLINE now (db h)) h in
  set_endpoints (delete websocket (endpoints h)) h.

(** [websocket_endpoint] up to its first [receive_text]. *)
Definition websocket_endpoint (websocket : nat) (client_name : string)
    (now : Q) (h : hub) : hub :=
  let (client_id, h) := connect websocket client_name now h in
  set_endpoints (<[websocket := client_id]> (endpoints h)) h.

(** One turn of the receive loop of the endpoint serving [websocket]. *)
Definition websocket_endpoint_turn (websocket : nat) (r : receive_result)
    (now : Q) (h : hub) : hub :=
  match endpoints h !! websocket with
  | None => h
  | Some client_id =>
      match r with
      | Text loads =>
          match on_text client_id loads h with
          | inr h' => h'
          | inl _ => on_endpoint_error websocket client_id now h
          end
      | ReceiveRaises _ => on_endpoint_error websocket client_id now h
      end
  end.

(** ** send_screenshot *)

Definition SCREENSHOT_TIMEOUT : Q := 10.

(** What the Telegram side and [base64.b64decode] do during one call. *)
Record bot_env : Type := BotEnv {
  send_failure : option exn;
  message_failure : option exn;
  photo_failure : option exn;
  b64decode : json -> exn + list Byte.byte
}.

(** How a call of [send_screenshot] ends. *)
Inductive call_result : Type :=
| Returned (b : bool)
| Raised (e : exn)
| WaitCancelled.

Definition bot_send_message (chat_id : Z) (text : bot_text) (env : bot_env)
    (h : hub) : option exn * hub :=
  (message_failure env, say (BotSendMessage chat_id text) h).

(** [send_screenshot] up to [await asyncio.wait_for(future, timeout=10.0)].
    [None]: the call is suspended there. *)
Definition send_screenshot (client_id chat_id : Z) (env : bot_env) (h : hub)
  : option call_result * hub :=
  match ConnectionManager.active_connections (manager h) !! client_id with
  | None =>
      let (failure, h) :=
        bot_send_message chat_id (OfflineText client_id) env h in
      (Some (match failure with Some e => Raised e | None => Returned false end), h)
  | Some _ =>
      let future := fresh (dom (futures h)) in
      let h := set_futures (<[future := Pending]> (futures h)) h in
      let h := set_screenshot_pending
                 (<[client_id := future]> (screenshot_pending h)) h in
      let (_, h) :=
        send_to_client client_id (JObj [("type", JStr "screenshot_request")])
          (send_failure env) h in
      (None,
       set_waiters (<[future := Waiter client_id chat_id SCREENSHOT_TIMEOUT]>
                      (waiters h)) h)
  end.

(** The [finally] clause. *)
Definition clear_pending (client_id : Z) (h : hub) : hub :=
  set_screenshot_pending (delete client_id (screenshot_pending h)) h.

(** The call waiting on [future] goes on: with the result when the future
    has one, and otherwise because its deadline has passed. *)
Definition send_screenshot_wakes (future : nat) (env : bot_env) (h : hub)
  : option call_result * hub :=
  match waiters h !! future with
  | None => (None, h)
  | Some (Waiter client_id chat_id _) =>
      let h := set_waiters (delete future (waiters h)) h in
      let (body, h) :=
        match futures h !! future with
        | Some (Done image_data) =>
            match b64decode env image_data with
            | inl e => (Raised e, h)
            | inr image_bytes =>
                (match photo_failure env with
                 | Some e => Raised e
                 | None => Returned true
                 end,
                 say (BotSendPhoto chat_id image_bytes client_id) h)
            end
        | Some FutureCancelled => (WaitCancelled, h)
        | _ =>
            (Raised TimeoutError,
             set_futures (<[future := FutureCancelled]> (futures h)) h)
        end in
      let (result, h) :=
        match body with
        | Raised TimeoutError =>
            let (failure, h) :=
              bot_send_message chat_id (TimeoutText client_id) env h in
            (match failure with Some e => Raised e | None => Returned false end, h)
        | Raised e =>
            let (failure, h) :=
              bot_send_message chat_id (ErrorText e) env h in
            (match failure with Some e' => Raised e' | None => Returned false end, h)
        | _ => (body, h)
        end in
      (Some result, clear_pending client_id h)
  end.

(** ** /list and /clients *)






Definition get_clients (h : hub) : list (Z * string * string * option Q) :=
  map (fun c => (Database.id c, Database.name c,
                 Database.value (Database.status c), Database.last_seen c))
      (Database.get_all_clients (db h)).

(** ** What happens to the process, one event at a time *)

Inductive event : Type :=
| Connects (websocket : nat) (client_name : string) (now : Q)
| Receives (websocket : nat) (r : receive_result) (now : Q)
| Screenshot (client_id chat_id : Z) (env : bot_env)
| Wakes (future : nat) (env : bot_env)
| Restarts.

Definition step (h : hub) (e : event) : hub :=
  match e with
  | Connects websocket client_name now =>
      websocket_endpoint websocket client_name now h
  | Receives websocket r now => websocket_endpoint_turn websocket r now h
  | Screenshot client_id chat_id env =>
      (send_screenshot client_id chat_id env h).2
  | Wakes future env => (send_screenshot_wakes future env h).2
  | Restarts => restart h
  end.

Definition steps (h : hub) (es : list event) : hub := foldl step h es.

(** ** The commands of the bot *)

(** What a command answers with [message.answer]. *)
Inductive answer : Type :=
| UsageAnswer (command : string)    (* "Usage: /command <client_id> ..." *)
| InvalidIdAnswer                   (* "Invalid client ID" *)
| OfflineAnswer (client_id : Z)     (* "Client {client_id} is offline" *)
| ShutdownSentAnswer (client_id : Z)
| OpeningAnswer (url : string) (client_id : Z)
| TypingAnswer (client_id : Z).

(** The commands take [args], what [message.text.split] gave, and [int],
    Python's conversion ([None]: [ValueError]); [failure] is what
    [send_json] raises. *)
Definition cmd_shutdown (args : list string) (int : string -> option Z)
    (failure : option exn) (h : hub) : answer * hub :=
  match args with
  | _ :: arg :: _ =>
      match int arg with
      | None => (InvalidIdAnswer, h)
      | Some client_id =>
          match ConnectionManager.active_connections (manager h) !! client_id with
          | None => (OfflineAnswer client_id, h)
          | Some _ =>
              let (_, h) :=
                send_to_client client_id (JObj [("type", JStr "shutdown")])
                  failure h in
              (ShutdownSentAnswer client_id, h)
          end
      end
  | _ => (UsageAnswer "shutdown", h)
  end.

Definition cmd_browser (args : list string) (int : string -> option Z)
    (failure : option exn) (h : hub) : answer * hub :=
  match args with
  | _ :: arg :: url :: _ =>
      match int arg with
      | None => (InvalidIdAnswer, h)
      | Some client_id =>
          match ConnectionManager.active_connections (manager h) !! client_id with
          | None => (OfflineAnswer client_id, h)
          | Some _ =>
              let (_, h) :=
                send_to_client client_id
                  (JObj [("type", JStr "browser"); ("url", JStr url)])
                  failure h in
              (OpeningAnswer url client_id, h)
          end
      end
  | _ => (UsageAnswer "browser", h)
  end.

Definition cmd_type (args : list string) (int : string -> option Z)
    (failure : option exn) (h : hub) : answer * hub :=
  match args with
  | _ :: arg :: text :: _ =>
      match int arg with
      | None => (InvalidIdAnswer, h)
      | Some client_id =>
          match ConnectionManager.active_connections (manager h) !! client_id with
          | None => (OfflineAnswer client_id, h)
          | Some _ =>
              let (_, h) :=
                send_to_client client_id
                  (JObj [("type", JStr "type"); ("text", JStr text)])
                  failure h in
              (TypingAnswer client_id, h)
          end
      end
  | _ => (UsageAnswer "type", h)
  end.

(** [cmd_screenshot]: an answer of its own, or what [send_screenshot]
    does. *)
Definition cmd_screenshot (args : list string) (int : string -> option Z)
    (chat_id : Z) (env : bot_env) (h : hub)
  : (answer + option call_result) * hub :=
  match args with
  | _ :: arg :: _ =>
      match int arg with
      | None => (inl InvalidIdAnswer, h)
      | Some client_id =>
          let (result, h) := send_screenshot client_id chat_id env h in
          (inr result, h)
      end
  | _ => (inl (UsageAnswer "screenshot"), h)
  end.

End Server.
(* ===================================================================== *)
(** * What is observed of the client *)
(* ===================================================================== *)

Module ClientView.
Import Py Client.

(** The command an outgoing envelope acknowledges, read the way the server
    reads it. *)
Definition ack_of (k : call) : option string :=
  match k with
  | WsSend data =>
      match dict_get data "type" JNull, dict_get data "command" JNull with
      | inr type, inr (JStr command) =>
          if eq_str type "ack" then Some command else None
      | _, _ => None
      end
  | _ => None
  end.

(** The acknowledgements the client tried to send, in order. *)
Definition acks (tr : list call) : list string := omap ack_of tr.

(** The command kinds of the dispatch table. *)
Definition command_kinds : list string :=
  [ "screenshot_request"; "shutdown"; "browser"; "type"; "mouse_event";
    "keyboard_event"; "start_stream"; "stop_stream" ].

(** No call into the platform raises, and the cancelled streaming task
    does not end with an exception. *)
Definition calm (w : world) : Prop :=
  (forall t k, raises w t k = None) /\
  (forall t e, task_end w t <> TaskRaised e).

Definition absent_or (P : json -> bool) (k : string)
    (fields : list (string * json)) : bool :=
  match items_get k fields with Some v => P v | None => true end.

Definition is_str (v : json) : bool :=
  match v with JStr _ => true | _ => false end.

Definition is_int (v : json) : bool :=
  match v with JInt _ => true | _ => false end.

(** The fields of a command have the types of the protocol.  A
    [mouse_event] is considered only without the fields [event] and
    [self]. *)
Definition typed (kind : string) (fields : list (string * json)) : bool :=
  if String.eqb kind "type" then absent_or is_str "text" fields
  else if String.eqb kind "mouse_event" then
    negb (items_mem "event" fields) && negb (items_mem "self" fields)
    && absent_or is_int "button" fields
  else if String.eqb kind "keyboard_event" then absent_or is_str "key" fields
  else true.

Definition is_connect (k : call) : bool :=
  match k with WsConnect _ => true | _ => false end.

(** Number of connection attempts in a trace. *)
Definition attempts (tr : list call) : nat :=
  length (filter (fun k => is_connect k = true) tr).

Definition no_connect (tr : list call) : Prop :=
  Forall (fun k => is_connect k = false) tr.

(** Between two connection attempts the client sleeps at least
    [RECONNECT_DELAY]. *)
Definition spaced (tr : list call) : Prop :=
  forall l1 u1 l2 u2 l3,
    tr = (l1 ++ WsConnect u1 :: l2 ++ WsConnect u2 :: l3)%list ->
    exists d, Sleep d ∈ l2 /\ (RECONNECT_DELAY <= d)%Q.

(** A trace made of rounds: a connection attempt, calls that are no
    attempts, a sleep of at least [RECONNECT_DELAY]; the last round may be
    unfinished. *)
Inductive rounds : list call -> Prop :=
| rounds_nil : rounds []
| rounds_open u body : no_connect body -> rounds (WsConnect u :: body)
| rounds_cons u body d tr :
    no_connect body -> (RECONNECT_DELAY <= d)%Q -> rounds tr ->
    rounds (WsConnect u :: body ++ Sleep d :: tr).

(** The frame a turn of the streaming loop sends: none when the capture
    gave nothing or the client has no connection. *)
Definition frame_sent (w : world) (c : client) (t : nat) : list call :=
  match grab w (S t), ws c with
  | Some (b :: image), Some _ =>
      [WsSend (image_envelope "stream_frame" (b :: image))]
  | _, _ => []
  end.

(** The address the client connects to. *)
Definition url_of (c : client) : string :=
  server_url c ++ "/" ++ client_name c.

(** The shape every handler result is shown to have: it returns, it
    acknowledges [kind] at most once and nothing else, and it does
    acknowledge when [good] holds. *)
Definition answered (kind : string) (good : Prop) (r : res unit) : Prop :=
  out r = Ret tt /\
  (acks (trace r) = [kind] \/ acks (trace r) = []) /\
  (good -> acks (trace r) = [kind]).

(** A coroutine that is never left by a cancellation and never connects. *)
Definition steady {A} (m : M A) : Prop :=
  forall w c t,
    out (m w c t) <> Cancelled /\ no_connect (trace (m w c t)).

(** A coroutine that always returns and never connects. *)
Definition settled {A} (m : M A) : Prop :=
  forall w c t,
    (exists a, out (m w c t) = Ret a) /\ no_connect (trace (m w c t)).

(** The rounds of [n] failed attempts. *)
Definition failed_rounds (c : client) (n : nat) : list call :=
  concat (replicate n [WsConnect (url_of c); Sleep RECONNECT_DELAY]).

(** A call into the platform: the side effect of a command. *)
Definition is_platform (k : call) : bool :=
  match k with
  | OsSystem _ | WebbrowserOpen _ | PyWrite _ | MoveTo _ _ | MouseDown _
  | MouseUp _ | PyClick _ | DoubleClick _ | Scroll _ | KeyDown _
  | KeyUp _ => true
  | _ => false
  end.

(** The call [k], made at position [t] of the run, raised: a call into
    the platform that the world makes raise, or the await of the
    cancelled streaming task when the task ended with an exception. *)
Definition raised (w : world) (t : nat) (k : call) : bool :=
  match k with
  | TaskAwait =>
      match task_end w t with TaskRaised _ => true | _ => false end
  | _ =>
      is_platform k &&
      match raises w t k with Some _ => true | None => false end
  end.

(** One of the calls of [tr] raised; the first call of [tr] was made at
    position [t]. *)
Definition side_effect_raises (w : world) (t : nat) (tr : list call) : Prop :=
  exists i k, tr !! i = Some k /\ raised w (t + i) k = true.

(** The kinds whose handler acknowledges as its last statement. *)
Definition acked_last : list string :=
  [ "browser"; "type"; "mouse_event"; "keyboard_event"; "stop_stream" ].

(** The part of a handler before its acknowledgement: every call has its
    position, nothing is acknowledged, and a call that raises ends it with
    that exception. *)
Definition abrupt {A} (m : M A) : Prop :=
  forall w c t,
    let r := m w c t in
    tick r = (t + length (trace r))%nat /\
    acks (trace r) = [] /\
    (side_effect_raises w t (trace r) -> exists e, out r = Raise e).

(** A result in which no acknowledgement goes with a call that raised. *)
Definition late_ack {A} (w : world) (t : nat) (r : res A) : Prop :=
  tick r = (t + length (trace r))%nat /\
  (side_effect_raises w t (trace r) -> acks (trace r) = []).

Definition ack_follows {A} (m : M A) : Prop :=
  forall w c t, late_ack w t (m w c t).

(** What ends a session: [recv] raises [ConnectionClosed], or any other
    exception but [JSONDecodeError]. *)
Definition breaks (r : recv_result) : bool :=
  match r with
  | RecvRaises JSONDecodeError => false
  | RecvRaises _ => true
  | RecvText _ => false
  end.

(** An attempt that leaves the client without a session: the connection
    is refused, or the session it opens is ended by the network. *)
Definition closes (a : attempt) : bool :=
  match a with
  | ConnectFails _ => true
  | Connects _ inbound => existsb breaks inbound
  end.

(** The attempts of a script that a client which never gives up makes:
    all of them, up to the first whose session stays open. *)
Fixpoint made (script : list attempt) : nat :=
  match script with
  | [] => 0
  | a :: rest => if closes a then S (made rest) else 1
  end.

(** A coroutine that leaves the address and the connection of the client
    alone. *)
Definition anchored {A} (m : M A) : Prop :=
  forall w c t,
    server_url (self (m w c t)) = server_url c /\
    client_name (self (m w c t)) = client_name c /\
    ws (self (m w c t)) = ws c.

(** *** Concrete surroundings *)

Definition jpeg : list Byte.byte := [Byte.xff; Byte.xd8; Byte.xff].

(** Nothing raises; the clock advances by 1/100 s per call. *)
Definition fair_weather : world :=
  World "posix" (fun _ _ => None) (fun _ => Some jpeg)
        (fun t => Z.of_nat t # 100) (fun _ => TaskReturned) (fun _ => false).

(** [pyautogui.write] raises (its fail-safe, say). *)
Definition keyboard_locked : world :=
  World "posix"
        (fun _ k => match k with
                    | PyWrite _ => Some (OtherError "FailSafeException")
                    | _ => None
                    end)
        (fun _ => Some jpeg) (fun t => Z.of_nat t # 100)
        (fun _ => TaskReturned) (fun _ => false).

(** The screen cannot be grabbed. *)
Definition no_display : world :=
  World "posix" (fun _ _ => None) (fun _ => None)
        (fun t => Z.of_nat t # 100) (fun _ => TaskReturned) (fun _ => false).

(** A stop is requested while the streaming task sleeps for the first
    time. *)
Definition stop_requested : world :=
  World "posix" (fun _ _ => None) (fun _ => Some jpeg)
        (fun t => Z.of_nat t # 100) (fun _ => TaskReturned)
        (fun t => (t =? 4)%nat).

Definition idle_client : client :=
  BlackLineClient "ws://localhost:8765/ws" (Some 0%nat) "desk-1" false None.

Definition streaming_client : client :=
  BlackLineClient "ws://localhost:8765/ws" (Some 0%nat) "desk-1" true (Some 7%nat).

(** The client object as [__init__] leaves it. *)
Definition new_client : client :=
  BlackLineClient "ws://localhost:8765/ws" None "desk-1" false None.

(** A refused connection; a session with a command, a text that is no JSON,
    a JSON text that is no object, a [start_stream], and the close of the
    connection; a connection that times out. *)
Definition rough_network : list attempt :=
  [ ConnectFails (OtherError "refused");
    Connects 1 [ RecvText (Some (JObj [("type", JStr "type");
                                       ("text", JStr "hello")]));
                 RecvText None;
                 RecvText (Some (JArr []));
                 RecvText (Some (JObj [("type", JStr "start_stream")]));
                 RecvRaises ConnectionClosed ];
    ConnectFails TimeoutError ].

Definition type_hello : json :=
  JObj [("type", JStr "type"); ("text", JStr "hello")].

Definition click_message : json :=
  JObj [("type", JStr "mouse_event"); ("event", JStr "click");
        ("x", JInt 10); ("y", JInt 20)].

End ClientView.

(* ===================================================================== *)
(** * What is observed of the hub *)
(* ===================================================================== *)

Module ServerView.
Import Py Database Server.

(** What [update_client_status] does to a row. *)
Definition touch (cid : Z) (s : ClientStatus) (now : Q) (r : Client) : Client :=
  if (id r =? cid)%Z then mkClient (id r) (name r) s (Some now) else r.

(** The id a name gets. *)
Definition id_of (n : string) (t : table) : Z :=
  match select_by_name n (rows t) with
  | Some row => id row
  | None => (sequence t + 1)%Z
  end.

(** An event that leaves the call waiting on [future] suspended: any event
    but its own waking, and but the end of the process. *)
Definition leaves_waiting (future : nat) (e : event) : Prop :=
  match e with
  | Wakes future' _ => future' <> future
  | Restarts => False
  | _ => True
  end.

(** The call waiting on [future] is suspended, its future has no result,
    and no entry of the pending table leads to it. *)
Definition parked (future : nat) (wt : waiter) (h : hub) : Prop :=
  futures h !! future = Some Pending /\
  waiters h !! future = Some wt /\
  forall client_id, screenshot_pending h !! client_id <> Some future.

(** A text that [websocket_endpoint] takes for the reply to a screenshot
    request. *)
Definition is_screenshot_reply (message : json) : bool :=
  match message with
  | JObj fields =>
      eq_str (match items_get "type" fields with Some v => v | None => JNull end)
             "screenshot"
      && items_mem "image" fields
  | _ => false
  end.

(** The event is neither the waking of the call waiting on [future], nor
    the end of the process, nor a screenshot reply received from agent
    [client_id]. *)
Definition no_reply (client_id : Z) (future : nat) (h : hub) (e : event)
  : Prop :=
  match e with
  | Wakes future' _ => future' <> future
  | Restarts => False
  | Receives websocket (Text (Some message)) _ =>
      endpoints h !! websocket = Some client_id ->
      is_screenshot_reply message = false
  | _ => True
  end.

(** No event of [es], run from [h], is such a reply. *)
Fixpoint no_replies (client_id : Z) (future : nat) (h : hub)
    (es : list event) : Prop :=
  match es with
  | [] => True
  | e :: es' =>
      no_reply client_id future h e /\
      no_replies client_id future (step h e) es'
  end.

(** The call waiting on [future] is suspended, its future has no result,
    and the pending table holds it under [client_id] at most. *)
Definition waiting_for (client_id : Z) (future : nat) (wt : waiter) (h : hub)
  : Prop :=
  futures h !! future = Some Pending /\
  waiters h !! future = Some wt /\
  forall client_id', screenshot_pending h !! client_id' = Some future ->
                     client_id' = client_id.

(** Every entry of the pending table leads to a future that was created. *)
Definition pending_known (h : hub) : Prop :=
  forall client_id future,
    screenshot_pending h !! client_id = Some future ->
    is_Some (futures h !! future).


(** *** Concrete surroundings *)

(** Telegram works and the image decodes. *)
Definition telegram_up : bot_env :=
  BotEnv None None None (fun _ => inr [Byte.xff; Byte.xd8]).

(** Two connections under one name, then the first one closes. *)
Definition reconnect_then_stale_close : list event :=
  [ Connects 1 "desk-1" 0;
    Connects 2 "desk-1" 1;
    Receives 1 (ReceiveRaises WebSocketDisconnect) 2 ].


End ServerView.

(* ===================================================================== *)
(** * What is observed of the directory *)
(* ===================================================================== *)

Module DatabaseView.
Import Database.

(** A call into [database.py] that writes. *)
Inductive op : Type :=
| GetOrCreate (n : string) (now : Q)
| UpdateStatus (client_id : Z) (s : ClientStatus) (now : Q)
| Delete (client_id : Z).

Definition apply (t : table) (o : op) : table :=
  match o with
  | GetOrCreate n now => (get_or_create_client n now t).2
  | UpdateStatus client_id s now => update_client_status client_id s now t
  | Delete client_id => delete_client client_id t
  end.

Definition applies (t : table) (os : list op) : table := foldl apply t os.

(** One row for a name, one row for an id, and no id above the sequence. *)
Definition well_formed (t : table) : Prop :=
  NoDup (map name (rows t)) /\
  NoDup (map id (rows t)) /\
  Forall (fun r => (id r <= sequence t)%Z) (rows t).

End DatabaseView.

(* ===================================================================== *)
(** * What is observed of the bot commands *)
(* ===================================================================== *)

Module CommandView.
Import Py Server.

(** The arguments of a command name no agent that has a route: there is
    no second argument, or it is no number, or the number has no
    connection. *)
Definition unroutable (h : hub) (int : string -> option Z)
    (args : list string) : Prop :=
  match args with
  | _ :: arg :: _ =>
      match int arg with
      | Some client_id =>
          ConnectionManager.active_connections (manager h) !! client_id = None
      | None => True
      end
  | _ => True
  end.

(** A conversion for the examples: it knows the numerals of two agents. *)
Definition two_agents (s : string) : option Z :=
  if String.eqb s "1" then Some 1%Z
  else if String.eqb s "2" then Some 2%Z
  else None.

End CommandView.

(* ===================================================================== *)
(** * More that is observed of the client *)
(* ===================================================================== *)

Module ClientInvariants.
Import Py Client ClientView.

Definition is_send (k : call) : bool :=
  match k with WsSend _ => true | _ => false end.

Definition is_create (k : call) : bool :=
  match k with CreateTask => true | _ => false end.

(** Number of streaming tasks created in a trace. *)
Definition creations (tr : list call) : nat :=
  length (List.filter is_create tr).

Definition sends_nothing (tr : list call) : Prop :=
  Forall (fun k => is_send k = false) tr.

(** A coroutine that leaves [self.ws] alone and, without a connection,
    sends nothing. *)
Definition keeps_connection {A} (m : M A) : Prop :=
  forall w c t,
    ws (self (m w c t)) = ws c /\
    (ws c = None -> sends_nothing (trace (m w c t))).

(** The function keys, which only the table of [keydown] has. *)
Definition function_keys : list (string * string) :=
  [ ("F1", "f1"); ("F2", "f2"); ("F3", "f3"); ("F4", "f4");
    ("F5", "f5"); ("F6", "f6"); ("F7", "f7"); ("F8", "f8");
    ("F9", "f9"); ("F10", "f10"); ("F11", "f11"); ("F12", "f12") ].

(** [key_map.get(key, key)] on a string. *)
Definition translate (key_map : list (string * string)) (s : string) : string :=
  match assoc_str s key_map with Some k => k | None => s end.

(** What [disconnect] has to cancel and to close. *)
Definition teardown (c : client) : list call :=
  (match stream_task c with Some _ => [TaskCancel; TaskAwait] | None => [] end)
  ++ (match ws c with Some _ => [WsClose] | None => [] end).

End ClientInvariants.

(* ===================================================================== *)
(** * Python values: checks *)
(* ===================================================================== *)

Section PythonValues.
Import Py.

Example b64encode_Man :
  b64encode [Byte.x4d; Byte.x61; Byte.x6e] = "TWFu".
Proof. reflexivity. Qed.

Example b64encode_Ma : b64encode [Byte.x4d; Byte.x61] = "TWE=".
Proof. reflexivity. Qed.

Example b64encode_M : b64encode [Byte.x4d] = "TQ==".
Proof. reflexivity. Qed.

End PythonValues.
(* ===================================================================== *)
(** * The client: handlers and dispatch *)
(* ===================================================================== *)

Section ClientHandlers.
Import Py Client ClientView.

(** Unfolds the plumbing of coroutines. *)
Ltac run :=
  unfold mbind, M_bind, bind, mret, M_ret, ret, get, modify, ask,
    try_except, except_cancelled, ext, emit, sleep, raise, lift, after;
  cbn.

(** Decides one by one what the world answers. *)
Ltac weather :=
  repeat match goal with
         | |- context [raises ?w ?t ?k] => destruct (raises w t k) eqn:?; cbn
         | |- context [task_end ?w ?t] => destruct (task_end w t) eqn:?; cbn
         | |- context [grab ?w ?t] => destruct (grab w t) as [[|? ?]|] eqn:?; cbn
         end.

Lemma send_connected data w c t conn :
  ws c = Some conn ->
  send data w c t = Res (Ret tt) c (S t) [WsSend data].
Proof.
  intros H. unfold send. run. rewrite H. weather; reflexivity.
Qed.

Lemma send_ack_connected command w c t conn :
  ws c = Some conn ->
  send_ack command w c t = Res (Ret tt) c (S t) [WsSend (ack_envelope command)].
Proof. apply send_connected. Qed.

Lemma ack_of_ack_envelope command :
  ack_of (WsSend (ack_envelope command)) = Some command.
Proof. reflexivity. Qed.

Lemma ack_of_image_envelope type image_data :
  ack_of (WsSend (image_envelope type image_data)) = None.
Proof. reflexivity. Qed.

Lemma handle_screenshot_request_answered w c t conn :
  ws c = Some conn ->
  answered "screenshot_request" True (handle_screenshot_request w c t).
Proof.
  intros H. unfold handle_screenshot_request, _capture_screen, send_ack. run.
  destruct (grab w t) as [[|b image]|]; cbn;
    rewrite ?(send_connected _ _ _ _ _ H); cbn;
    rewrite ?(send_connected _ _ _ _ _ H); cbn;
    repeat split; auto.
Qed.

Lemma handle_shutdown_run w c t conn :
  ws c = Some conn ->
  out (handle_shutdown w c t) = Ret tt /\
  trace (handle_shutdown w c t) =
    [ WsSend (ack_envelope "shutdown");
      Sleep (1 # 2);
      OsSystem (if String.eqb (os_name w) "nt"
                then "shutdown /s /t 1" else "shutdown now") ].
Proof.
  intros H. unfold handle_shutdown. run.
  rewrite (send_ack_connected _ _ _ _ _ H). cbn.
  destruct (String.eqb (os_name w) "nt"); weather; auto.
Qed.

Lemma handle_shutdown_answered w c t conn :
  ws c = Some conn -> answered "shutdown" True (handle_shutdown w c t).
Proof.
  intros H. destruct (handle_shutdown_run w c t conn H) as [Ho Ht].
  unfold answered. rewrite Ho, Ht. cbn. auto.
Qed.

Lemma handle_browser_answered url w c t conn :
  ws c = Some conn -> answered "browser" (calm w) (handle_browser url w c t).
Proof.
  intros H. unfold handle_browser. run. unfold answered.
  destruct (raises w t (WebbrowserOpen url)) eqn:E; cbn.
  - repeat split; auto. intros [Hr _]. rewrite Hr in E. discriminate.
  - rewrite (send_ack_connected _ _ _ _ _ H). cbn. auto.
Qed.

Lemma handle_type_answered text w c t conn :
  ws c = Some conn ->
  answered "type" (calm w /\ is_str text = true) (handle_type text w c t).
Proof.
  intros H. unfold handle_type. run. unfold answered.
  destruct (typing_banner text) as [e|[]] eqn:Eb; cbn.
  - repeat split; auto. intros [_ Hs].
    destruct text; try discriminate. unfold typing_banner, len in Eb.
    destruct (50 <? String.length s)%nat; discriminate.
  - destruct (raises w t (PyWrite text)) eqn:E; cbn.
    + repeat split; auto. intros [[Hr _] _]. rewrite Hr in E. discriminate.
    + rewrite (send_ack_connected _ _ _ _ _ H). cbn. auto.
Qed.

Lemma button_map_get_int z kwargs :
  kwargs_get kwargs "button" (JInt 1) = JInt z ->
  exists b, button_map_get (kwargs_get kwargs "button" (JInt 1)) = inr b.
Proof. intros ->. unfold button_map_get. cbn. eauto. Qed.

Lemma typed_button kwargs :
  absent_or is_int "button" kwargs = true ->
  exists z, kwargs_get kwargs "button" (JInt 1) = JInt z.
Proof.
  unfold absent_or, kwargs_get. destruct (items_get "button" kwargs) as [v|].
  - destruct v; try discriminate. eauto.
  - eauto.
Qed.

(** Without the [event] keyword no branch of the handler is taken. *)
Lemma handle_mouse_event_answered kwargs w c t conn :
  ws c = Some conn ->
  answered "mouse_event" (absent_or is_int "button" kwargs = true)
    (handle_mouse_event (JStr "") kwargs w c t).
Proof.
  intros H. unfold handle_mouse_event. run. unfold answered.
  destruct (button_map_get (kwargs_get kwargs "button" (JInt 1))) as [e|b] eqn:Eb;
    cbn.
  - repeat split; auto. intros Hb.
    destruct (typed_button _ Hb) as [z Hz].
    destruct (button_map_get_int _ _ Hz) as [b' Hb']. congruence.
  - rewrite (send_ack_connected _ _ _ _ _ H). cbn. auto.
Qed.

Lemma key_map_get_str key_map s :
  exists s', key_map_get key_map (JStr s) = inr (JStr s').
Proof.
  unfold key_map_get. cbn. destruct (assoc_str s key_map); eauto.
Qed.

Lemma single_char_str s : exists b, single_char (JStr s) = inr b.
Proof. unfold single_char. destruct (truthy (JStr s)); cbn; eauto. Qed.

Lemma handle_keyboard_event_answered event key code w c t conn :
  ws c = Some conn ->
  answered "keyboard_event"
    (calm w /\ (key = JNull \/ is_str key = true))
    (handle_keyboard_event event key code w c t).
Proof.
  intros H. unfold handle_keyboard_event.
  generalize keydown_map, keyup_map. intros keydown_map keyup_map.
  run. unfold answered.
  destruct (eq_str event "keydown"); [|destruct (eq_str event "keyup")].
  - destruct (key_map_get keydown_map key) as [e|k] eqn:Ek; cbn.
    { repeat split; auto. intros [_ [->|Hs]]; [discriminate|].
      destruct key; discriminate. }
    destruct (single_char k) as [e|one] eqn:E1; cbn.
    { repeat split; auto. intros [_ [->|Hs]].
      - cbn in Ek. injection Ek as <-. discriminate.
      - destruct key; try discriminate.
        destruct (key_map_get_str keydown_map s) as [s' Hs'].
        rewrite Hs' in Ek. injection Ek as <-.
        destruct (single_char_str s') as [b Hb]. congruence. }
    assert (Hsame :
      (if one then ext (KeyDown k) else ext (KeyDown k)) = ext (KeyDown k))
      by (destruct one; reflexivity).
    unfold ext in Hsame. rewrite Hsame. cbn.
    destruct (raises w t (KeyDown k)) eqn:E; cbn.
    + repeat split; auto. intros [[Hr _] _]. rewrite Hr in E. discriminate.
    + rewrite (send_ack_connected _ _ _ _ _ H). cbn. auto.
  - destruct (key_map_get keyup_map key) as [e|k] eqn:Ek; cbn.
    { repeat split; auto. intros [_ [->|Hs]]; [discriminate|].
      destruct key; discriminate. }
    destruct (raises w t (KeyUp k)) eqn:E; cbn.
    + repeat split; auto. intros [[Hr _] _]. rewrite Hr in E. discriminate.
    + rewrite (send_ack_connected _ _ _ _ _ H). cbn. auto.
  - cbn. rewrite (send_ack_connected _ _ _ _ _ H). cbn. auto.
Qed.

Lemma handle_start_stream_answered w c t conn :
  ws c = Some conn -> answered "start_stream" True (handle_start_stream w c t).
Proof.
  intros H. unfold handle_start_stream, create_task. run. unfold answered.
  destruct (is_streaming c); cbn.
  - rewrite (send_ack_connected _ _ _ _ _ H). cbn. auto.
  - erewrite send_ack_connected by (cbn; exact H). cbn. auto.
Qed.

Lemma handle_stop_stream_answered w c t conn :
  ws c = Some conn -> answered "stop_stream" (calm w) (handle_stop_stream w c t).
Proof.
  intros H. unfold handle_stop_stream, cancel_stream_task, await_stream_task.
  run. unfold answered.
  destruct (stream_task c) as [task|]; cbn.
  - destruct (task_end w (S t)) eqn:E; cbn.
    + erewrite send_ack_connected by (cbn; exact H). cbn. auto.
    + erewrite send_ack_connected by (cbn; exact H). cbn. auto.
    + repeat split; auto. intros [_ Ht]. exfalso. eapply Ht. exact E.
  - erewrite send_ack_connected by (cbn; exact H). cbn. auto.
Qed.

Lemma after_nil {A} (r : res A) : after [] r = r.
Proof. destruct r; reflexivity. Qed.

Lemma dict_get_object fields k default :
  dict_get (JObj fields) k default =
  inr (match items_get k fields with Some v => v | None => default end).
Proof. reflexivity. Qed.

Lemma bind_ret {A B} (a : A) (k : A -> M B) w c t :
  (ret a ≫= k) w c t = k a w c t.
Proof. unfold mbind, M_bind, bind, ret. apply after_nil. Qed.

Lemma bind_lift_inr {A B} (a : A) (k : A -> M B) w c t :
  (lift (inr a) ≫= k) w c t = k a w c t.
Proof. apply bind_ret. Qed.

(** A handler that answers is not disturbed by the [try] of the dispatch. *)
Lemma dispatched kind good (m : M unit) h w c t :
  answered kind good (m w c t) ->
  answered kind good (try_except m h w c t).
Proof.
  unfold try_except. destruct (m w c t) as [o c' t' tr].
  intros (Ho & Ha & Hg). cbn in Ho. subst o. repeat split; auto.
Qed.

Lemma answered_weaken kind (good good' : Prop) r :
  (good' -> good) -> answered kind good r -> answered kind good' r.
Proof. intros Hi (Ho & Ha & Hg). repeat split; auto. Qed.

Lemma process_message_answered w c t conn fields kind :
  ws c = Some conn ->
  items_get "type" fields = Some (JStr kind) ->
  kind ∈ command_kinds ->
  answered kind
    (kind = "screenshot_request" \/ kind = "shutdown" \/ kind = "start_stream"
     \/ (calm w /\ typed kind fields = true))
    (process_message (JObj fields) w c t).
Proof.
  intros H Htype Hkind. unfold command_kinds in Hkind.
  unfold process_message. rewrite !dict_get_object, Htype.
  repeat (apply elem_of_cons in Hkind as [->|Hkind]);
    [..|apply elem_of_nil in Hkind; contradiction].
  5: destruct (items_mem "event" fields || items_mem "self" fields) eqn:E.
  5: { (* a keyword collides: TypeError, caught by the dispatch *)
    unfold try_except. rewrite bind_lift_inr.
    cbn -[call_handle_mouse_event mbind items_mem]. rewrite bind_ret.
    unfold call_handle_mouse_event. rewrite E.
    unfold answered. cbn -[items_mem]. repeat split; auto.
    intros [?|[?|[?|[_ Ht]]]]; try discriminate.
    unfold typed in Ht. cbn -[items_mem] in Ht.
    destruct (items_mem "event" fields), (items_mem "self" fields);
      discriminate. }
  all: apply dispatched; rewrite bind_lift_inr;
    cbn -[handle_screenshot_request handle_shutdown handle_browser
          handle_type call_handle_mouse_event handle_keyboard_event
          handle_start_stream handle_stop_stream mbind];
    rewrite ?bind_ret.
  - eapply answered_weaken;
      [|apply (handle_screenshot_request_answered w c t conn H)]. auto.
  - eapply answered_weaken;
      [|apply (handle_shutdown_answered w c t conn H)]. auto.
  - eapply answered_weaken;
      [|apply (handle_browser_answered _ w c t conn H)].
    intros [?|[?|[?|[? _]]]]; try discriminate. assumption.
  - eapply answered_weaken;
      [|apply (handle_type_answered _ w c t conn H)].
    intros [?|[?|[?|[? Ht]]]]; try discriminate. split; [assumption|].
    unfold typed, absent_or in Ht. cbn in Ht.
    destruct (items_get "text" fields); [assumption|reflexivity].
  - unfold call_handle_mouse_event. rewrite E.
    apply orb_false_elim in E as [E _]. unfold items_mem in E.
    destruct (items_get "event" fields); [discriminate|].
    eapply answered_weaken;
      [|apply (handle_mouse_event_answered fields w c t conn H)].
    intros [?|[?|[?|[_ Ht]]]]; try discriminate.
    unfold typed in Ht. cbn -[items_mem] in Ht.
    apply andb_prop in Ht as [_ Ht]. exact Ht.
  - eapply answered_weaken;
      [|apply (handle_keyboard_event_answered _ _ _ w c t conn H)].
    intros [?|[?|[?|[? Ht]]]]; try discriminate. split; [assumption|].
    unfold typed, absent_or in Ht. cbn in Ht.
    destruct (items_get "key" fields); [right; assumption|left; reflexivity].
  - eapply answered_weaken;
      [|apply (handle_start_stream_answered w c t conn H)]. auto.
  - eapply answered_weaken;
      [|apply (handle_stop_stream_answered w c t conn H)].
    intros [?|[?|[?|[? _]]]]; try discriminate. assumption.
Qed.

(** ** A side effect that raises *)

Lemma side_effect_raises_nil w t : ~ side_effect_raises w t [].
Proof. intros (i & k & H & _). rewrite lookup_nil in H. discriminate. Qed.

Lemma side_effect_raises_one w t k :
  side_effect_raises w t [k] -> raised w t k = true.
Proof.
  intros (i & k' & H & Hr). destruct i as [|i]; cbn in H.
  - injection H as <-. rewrite Nat.add_0_r in Hr. exact Hr.
  - rewrite ?lookup_nil in H. discriminate.
Qed.

Lemma side_effect_raises_app w t tr tr' :
  side_effect_raises w t (tr ++ tr')%list ->
  side_effect_raises w t tr \/ side_effect_raises w (t + length tr) tr'.
Proof.
  intros (i & k & H & Hr). apply lookup_app_Some in H as [H|[Hle H]].
  - left. exists i, k. auto.
  - right. exists (i - length tr)%nat, k. split; [exact H|].
    replace (t + length tr + (i - length tr))%nat with (t + i)%nat by lia.
    exact Hr.
Qed.

Lemma acks_app tr tr' : acks (tr ++ tr')%list = (acks tr ++ acks tr')%list.
Proof. apply omap_app. Qed.

Lemma abrupt_ret {A} (a : A) : abrupt (ret a).
Proof.
  intros w c t. cbn. split; [lia|]. split; [reflexivity|].
  intros H. destruct (side_effect_raises_nil _ _ H).
Qed.

Lemma abrupt_mret {A} (a : A) : abrupt (mret a : M A).
Proof. apply abrupt_ret. Qed.

Lemma abrupt_raise {A} e : abrupt (raise e : M A).
Proof.
  intros w c t. cbn. split; [lia|]. split; [reflexivity|]. eauto.
Qed.

Lemma abrupt_lift {A} (x : exn + A) : abrupt (lift x).
Proof. destruct x; [apply abrupt_raise|apply abrupt_ret]. Qed.

Lemma abrupt_get : abrupt get.
Proof.
  intros w c t. cbn. split; [lia|]. split; [reflexivity|].
  intros H. destruct (side_effect_raises_nil _ _ H).
Qed.

Lemma abrupt_modify f : abrupt (modify f).
Proof.
  intros w c t. cbn. split; [lia|]. split; [reflexivity|].
  intros H. destruct (side_effect_raises_nil _ _ H).
Qed.

Lemma abrupt_ext k : is_platform k = true -> abrupt (ext k).
Proof.
  intros Hk w c t. unfold ext. cbn. split; [lia|]. split.
  - destruct k; try discriminate; reflexivity.
  - intros H. apply side_effect_raises_one in H.
    destruct (raises w t k) as [e|] eqn:E; [eauto|].
    destruct k; try discriminate; cbn in H; rewrite E in H; discriminate.
Qed.

Lemma abrupt_emit k :
  (forall w t, raised w t k = false) -> ack_of k = None -> abrupt (emit k).
Proof.
  intros Hk Ha w c t. unfold emit. cbn. split; [lia|]. split.
  - rewrite Ha. reflexivity.
  - intros H. apply side_effect_raises_one in H. rewrite Hk in H.
    discriminate.
Qed.

Lemma abrupt_await_stream_task : abrupt await_stream_task.
Proof.
  intros w c t. unfold await_stream_task. cbn. split; [lia|].
  split; [reflexivity|].
  intros H. apply side_effect_raises_one in H. cbn in H.
  destruct (task_end w t); try discriminate. eauto.
Qed.

Lemma abrupt_except_cancelled m : abrupt m -> abrupt (except_cancelled m).
Proof.
  intros Hm w c t. unfold except_cancelled.
  destruct (Hm w c t) as (Ht & Ha & Hr).
  destruct (m w c t) as [[a|e|] c' t' tr]; cbn [tick trace out] in *; auto.
  split; [exact Ht|]. split; [exact Ha|].
  intros H. destruct (Hr H) as [e He]. discriminate.
Qed.

Lemma abrupt_bind {A B} (m : M A) (k : A -> M B) :
  abrupt m -> (forall a, abrupt (k a)) -> abrupt (m ≫= k).
Proof.
  intros Hm Hk w c t. unfold mbind, M_bind, bind.
  destruct (Hm w c t) as (Ht & Ha & Hr).
  destruct (m w c t) as [[a|e|] c' t' tr];
    cbv zeta in Ht, Ha, Hr |- *;
    cbn [tick trace out] in Ht, Ha, Hr |- *; [|split; [exact Ht|split; [exact Ha|]]..].
  2: { intros _. eauto. }
  2: { intros H. destruct (Hr H) as [e He]. discriminate. }
  destruct (Hk a w c' t') as (Ht' & Ha' & Hr').
  destruct (k a w c' t') as [o c2 t2 tr2]. cbn [tick trace out after] in *.
  split; [rewrite length_app; lia|]. split.
  - rewrite acks_app, Ha, Ha'. reflexivity.
  - intros H. apply side_effect_raises_app in H as [H|H].
    + destruct (Hr H) as [e He]. discriminate.
    + apply Hr'. rewrite Ht. exact H.
Qed.

Lemma ack_follows_abrupt {A} (m : M A) : abrupt m -> ack_follows m.
Proof.
  intros Hm w c t. destruct (Hm w c t) as (Ht & Ha & _).
  split; [exact Ht|auto].
Qed.

(** The send of the acknowledgement is no side effect: what it raises is
    swallowed by [send]. *)
Lemma ack_follows_send data : ack_follows (send data).
Proof.
  intros w c t. unfold late_ack, send. run. destruct (ws c); cbn.
  - assert (Hn : ~ side_effect_raises w t [WsSend data]).
    { intros H. apply side_effect_raises_one in H. discriminate. }
    destruct (raises w t (WsSend data)); cbn;
      (split; [cbn; lia|intros H; destruct (Hn H)]).
  - split; [cbn; lia|]. intros H. destruct (side_effect_raises_nil _ _ H).
Qed.

Lemma ack_follows_send_ack command : ack_follows (send_ack command).
Proof. apply ack_follows_send. Qed.

Lemma ack_follows_bind {A B} (m : M A) (k : A -> M B) :
  abrupt m -> (forall a, ack_follows (k a)) -> ack_follows (m ≫= k).
Proof.
  intros Hm Hk w c t. unfold late_ack, mbind, M_bind, bind.
  destruct (Hm w c t) as (Ht & Ha & Hr).
  destruct (m w c t) as [[a|e|] c' t' tr];
    cbv zeta in Ht, Ha, Hr |- *;
    cbn [tick trace out] in Ht, Ha, Hr |- *; [|(split; auto)..].
  destruct (Hk a w c' t') as (Ht' & Hl).
  destruct (k a w c' t') as [o c2 t2 tr2]. cbn [tick trace out after] in *.
  split; [rewrite length_app; lia|].
  intros H. apply side_effect_raises_app in H as [H|H].
  - destruct (Hr H) as [e He]. discriminate.
  - rewrite acks_app, Ha, Hl; [reflexivity|]. rewrite Ht. exact H.
Qed.

(** The [except] clauses of the handlers and of the dispatch only print. *)
Lemma late_ack_try {A} (m : M A) (a : A) w c t :
  late_ack w t (m w c t) ->
  late_ack w t (try_except m (fun _ => ret a) w c t).
Proof.
  unfold late_ack, try_except.
  destruct (m w c t) as [[a'|e|] c' t' tr]; cbn [tick trace out after ret];
    auto.
  rewrite app_nil_r. auto.
Qed.

Lemma ack_follows_try {A} (m : M A) (a : A) :
  ack_follows m -> ack_follows (try_except m (fun _ => ret a)).
Proof. intros Hm w c t. apply late_ack_try, Hm. Qed.

(** Goes through the statements before the acknowledgement. *)
Ltac abruptly :=
  repeat first
    [ apply abrupt_ret | apply abrupt_mret | apply abrupt_lift
    | apply abrupt_raise | apply abrupt_get | apply abrupt_modify
    | apply abrupt_ext; reflexivity
    | apply abrupt_emit; [intros; reflexivity|reflexivity]
    | apply abrupt_await_stream_task
    | apply abrupt_except_cancelled
    | apply abrupt_bind
    | progress intros
    | match goal with
      | |- abrupt (if ?b then _ else _) => destruct b
      | |- abrupt (match ?x with _ => _ end) => destruct x
      end ].

(** Goes through a handler whose last statement is the acknowledgement. *)
Ltac following :=
  repeat first
    [ apply ack_follows_send_ack
    | apply ack_follows_try
    | apply ack_follows_bind; [abruptly|intros]
    | match goal with
      | |- ack_follows (if ?b then _ else _) => destruct b
      | |- ack_follows (match ?x with _ => _ end) => destruct x
      end
    | apply ack_follows_abrupt; abruptly ].

Lemma ack_follows_handle_browser url : ack_follows (handle_browser url).
Proof. unfold handle_browser. following. Qed.

Lemma ack_follows_handle_type text : ack_follows (handle_type text).
Proof. unfold handle_type. following. Qed.

Lemma ack_follows_handle_mouse_event event kwargs :
  ack_follows (handle_mouse_event event kwargs).
Proof. unfold handle_mouse_event, move_if_given. cbn zeta. following. Qed.

Lemma ack_follows_call_handle_mouse_event event message :
  ack_follows (call_handle_mouse_event event message).
Proof.
  unfold call_handle_mouse_event.
  destruct message; try (apply ack_follows_abrupt, abrupt_raise).
  destruct (items_mem "event" items || items_mem "self" items);
    [apply ack_follows_abrupt, abrupt_raise
    |apply ack_follows_handle_mouse_event].
Qed.

Lemma ack_follows_handle_keyboard_event event key code :
  ack_follows (handle_keyboard_event event key code).
Proof. unfold handle_keyboard_event. following. Qed.

Lemma ack_follows_handle_stop_stream : ack_follows handle_stop_stream.
Proof. unfold handle_stop_stream, cancel_stream_task. following. Qed.

(** In the dispatch of one of the kinds that acknowledge last, no
    acknowledgement goes with a side effect that raised. *)
Lemma process_message_late_ack w c t fields kind :
  items_get "type" fields = Some (JStr kind) ->
  kind ∈ acked_last ->
  late_ack w t (process_message (JObj fields) w c t).
Proof.
  intros Htype Hkind. unfold acked_last in Hkind.
  unfold process_message. rewrite !dict_get_object, Htype.
  repeat (apply elem_of_cons in Hkind as [->|Hkind]);
    [..|apply elem_of_nil in Hkind; contradiction].
  all: apply late_ack_try; rewrite bind_lift_inr;
    cbn -[handle_screenshot_request handle_shutdown handle_browser
          handle_type call_handle_mouse_event handle_keyboard_event
          handle_start_stream handle_stop_stream mbind];
    rewrite ?bind_ret.
  - apply ack_follows_handle_browser.
  - apply ack_follows_handle_type.
  - apply ack_follows_call_handle_mouse_event.
  - apply ack_follows_handle_keyboard_event.
  - apply ack_follows_handle_stop_stream.
Qed.

(** ** Dispatch and acknowledgement *)

(** C1, as the code has it.  For a connected client and a command of one of
    the eight kinds, [process_message] never raises, and it tries to send at
    most one acknowledgement, which names the kind of the command.  The
    acknowledgement is unconditional for [screenshot_request] (a failed
    capture is an empty image), [shutdown] (acknowledged before the platform
    call) and [start_stream]; for the other kinds it is sent when no platform
    call raises and the fields have the types of the protocol.  For these
    other kinds, whatever the fields, when one of the calls of the handler
    raises (a call into the platform, or the await of the cancelled
    streaming task), the exception is caught and no acknowledgement is
    sent. *)
Theorem dispatch_acknowledges w c t conn fields kind :
  ws c = Some conn ->
  items_get "type" fields = Some (JStr kind) ->
  kind ∈ command_kinds ->
  let r := process_message (JObj fields) w c t in
  out r = Ret tt /\
  (acks (trace r) = [kind] \/ acks (trace r) = []) /\
  (kind = "screenshot_request" \/ kind = "shutdown" \/ kind = "start_stream" ->
   acks (trace r) = [kind]) /\
  (calm w -> typed kind fields = true -> acks (trace r) = [kind]) /\
  (kind ∈ acked_last -> side_effect_raises w t (trace r) ->
   acks (trace r) = []).
Proof.
  intros H Htype Hkind r.
  destruct (process_message_answered w c t conn fields kind H Htype Hkind)
    as (Ho & Ha & Hg).
  split; [exact Ho|]. split; [exact Ha|]. split; [|split].
  - intros [?|[?|?]]; apply Hg; auto.
  - intros Hcalm Htyped. apply Hg. auto.
  - intros Hlast Hraises.
    destruct (process_message_late_ack w c t fields kind Htype Hlast)
      as [_ Hl].
    apply Hl, Hraises.
Qed.

Lemma fair_weather_calm : calm fair_weather.
Proof. split; intros; [reflexivity|discriminate]. Defined.

Lemma dispatch_acknowledges_witness :
  ws idle_client = Some 0%nat /\
  items_get "type" [("type", JStr "type"); ("text", JStr "hello")]
    = Some (JStr "type") /\
  "type" ∈ command_kinds /\
  acks (trace (process_message type_hello fair_weather idle_client 0))
    = ["type"] /\
  side_effect_raises keyboard_locked 0
    (trace (process_message type_hello keyboard_locked idle_client 0)) /\
  acks (trace (process_message type_hello keyboard_locked idle_client 0))
    = [].
Proof.
  assert (Hk : "type" ∈ command_kinds).
  { do 3 apply list_elem_of_further. apply list_elem_of_here. }
  assert (Hl : "type" ∈ acked_last).
  { apply list_elem_of_further, list_elem_of_here. }
  assert (Hr : side_effect_raises keyboard_locked 0
                 (trace (process_message type_hello keyboard_locked
                           idle_client 0))).
  { exists 0%nat, (PyWrite (JStr "hello")). split; reflexivity. }
  split; [reflexivity|]. split; [reflexivity|]. split; [exact Hk|].
  split; [|split; [exact Hr|]].
  - apply (dispatch_acknowledges fair_weather idle_client 0 0%nat
             [("type", JStr "type"); ("text", JStr "hello")] "type"
             eq_refl eq_refl Hk);
      [exact fair_weather_calm|reflexivity].
  - apply (dispatch_acknowledges keyboard_locked idle_client 0 0%nat
             [("type", JStr "type"); ("text", JStr "hello")] "type"
             eq_refl eq_refl Hk);
      [exact Hl|exact Hr].
Defined.

(** C1, as stated, fails: [pyautogui.write] raises, the handler catches
    the exception, and the [type] command is not acknowledged at all. *)
Lemma failed_typing_is_not_acknowledged :
  let r := process_message type_hello keyboard_locked idle_client 0 in
  out r = Ret tt /\
  trace r = [PyWrite (JStr "hello")] /\
  acks (trace r) = [] /\
  acks (trace r) <> ["type"].
Proof. cbn. repeat split; discriminate. Qed.

(** ** shutdown *)

(** C6.  On a [shutdown] command a connected client makes exactly three
    calls, in this order and whatever the world answers: the send of the
    acknowledgement, a sleep of at least half a second, and the shutdown
    command of the platform. *)
Theorem shutdown_acknowledges_first w c t conn fields :
  ws c = Some conn ->
  items_get "type" fields = Some (JStr "shutdown") ->
  exists grace,
    trace (process_message (JObj fields) w c t) =
      [ WsSend (ack_envelope "shutdown");
        Sleep grace;
        OsSystem (if String.eqb (os_name w) "nt"
                  then "shutdown /s /t 1" else "shutdown now") ] /\
    (1 # 2 <= grace)%Q.
Proof.
  intros H Htype. exists (1 # 2). split; [|apply Qle_refl].
  unfold process_message. rewrite !dict_get_object, Htype.
  destruct (handle_shutdown_run w c t conn H) as [Ho Ht].
  unfold try_except at 1. rewrite bind_lift_inr.
  cbn -[handle_shutdown].
  destruct (handle_shutdown w c t) as [o c' t' tr]. cbn in Ho, Ht.
  subst o tr. reflexivity.
Qed.

Lemma shutdown_acknowledges_first_witness :
  ws idle_client = Some 0%nat /\
  items_get "type" [("type", JStr "shutdown")] = Some (JStr "shutdown") /\
  exists grace,
    trace (process_message (JObj [("type", JStr "shutdown")])
             fair_weather idle_client 0) =
      [ WsSend (ack_envelope "shutdown"); Sleep grace;
        OsSystem "shutdown now" ] /\
    (1 # 2 <= grace)%Q.
Proof.
  split; [reflexivity|]. split; [reflexivity|].
  exact (shutdown_acknowledges_first fair_weather idle_client 0 0%nat
           [("type", JStr "shutdown")] eq_refl eq_refl).
Defined.

(** ** stop_stream *)

Lemma handle_stop_stream_idle w c t conn :
  ws c = Some conn ->
  is_streaming c = false ->
  stream_task c = None ->
  handle_stop_stream w c t =
  Res (Ret tt) c (S t) [WsSend (ack_envelope "stop_stream")].
Proof.
  intros H Hs Ht. destruct c as [url sock name streaming task].
  cbn in H, Hs, Ht. subst. unfold handle_stop_stream, cancel_stream_task,
    send_ack, send. run. weather; auto.
Qed.

(** After a stop that went through, the client is not streaming. *)
Lemma handle_stop_stream_stops w c t :
  (forall t' e, task_end w t' <> TaskRaised e) ->
  let r := handle_stop_stream w c t in
  is_streaming (self r) = false /\
  stream_task (self r) = None /\
  ws (self r) = ws c.
Proof.
  intros Hw. destruct c as [url sock name streaming task].
  unfold handle_stop_stream, cancel_stream_task, await_stream_task,
    send_ack, send. run.
  destruct task as [task|]; cbn.
  - destruct (task_end w (S t)) eqn:E; cbn;
      [| |exfalso; exact (Hw _ _ E)];
      destruct sock; cbn; weather; auto.
  - destruct sock; cbn; weather; auto.
Qed.

(** Stopping twice is stopping once. *)
Lemma handle_stop_stream_twice w c t conn :
  ws c = Some conn ->
  (forall t' e, task_end w t' <> TaskRaised e) ->
  let r := handle_stop_stream w c t in
  let r' := handle_stop_stream w (self r) (tick r) in
  out r' = Ret tt /\ self r' = self r /\ acks (trace r') = ["stop_stream"].
Proof.
  intros H Hw r r'. destruct (handle_stop_stream_stops w c t Hw) as (Hs & Ht & Hc).
  fold r in Hs, Ht, Hc. subst r'.
  rewrite (handle_stop_stream_idle w (self r) (tick r) conn);
    [auto|congruence|assumption..].
Qed.

(** C9.  [handle_stop_stream] on a connected client that is not streaming
    returns without an exception, leaves the client as it was, and makes
    one call: the send of the [stop_stream] acknowledgement. *)
Theorem stop_stream_when_idle w c t conn :
  ws c = Some conn ->
  is_streaming c = false ->
  stream_task c = None ->
  let r := handle_stop_stream w c t in
  out r = Ret tt /\
  self r = c /\
  trace r = [WsSend (ack_envelope "stop_stream")] /\
  acks (trace r) = ["stop_stream"].
Proof.
  intros H Hs Ht r. subst r.
  rewrite (handle_stop_stream_idle w c t conn H Hs Ht). auto.
Qed.

Lemma stop_stream_when_idle_witness :
  ws idle_client = Some 0%nat /\
  is_streaming idle_client = false /\
  stream_task idle_client = None /\
  let r := handle_stop_stream fair_weather idle_client 0 in
  out r = Ret tt /\
  self r = idle_client /\
  trace r = [WsSend (ack_envelope "stop_stream")] /\
  acks (trace r) = ["stop_stream"].
Proof.
  do 3 (split; [reflexivity|]).
  exact (stop_stream_when_idle fair_weather idle_client 0 0%nat
           eq_refl eq_refl eq_refl).
Defined.

(** ** Mouse buttons *)

Lemma button_codes :
  button_map_get (JInt 0) = inr "left" /\
  button_map_get (JInt 1) = inr "middle" /\
  button_map_get (JInt 2) = inr "right".
Proof. repeat split. Qed.

Lemma button_unrecognized (z : Z) :
  z <> 0%Z -> z <> 1%Z -> z <> 2%Z -> button_map_get (JInt z) = inr "left".
Proof.
  intros H0 H1 H2. unfold button_map_get. cbn.
  destruct (Z.eqb_spec z 0); [contradiction|].
  destruct (Z.eqb_spec z 1); [contradiction|].
  destruct (Z.eqb_spec z 2); [contradiction|]. reflexivity.
Qed.

(** C5 at a command without a [button] field.  Called with the fields of
    the command, the handler takes the default code 1 and clicks the middle
    button; called the way [process_message] calls it, the [event] keyword
    collides with the positional argument, and neither a click nor an
    acknowledgement is made. *)
Theorem absent_button_is_not_left :
  kwargs_get [("x", JInt 10); ("y", JInt 20)] "button" (JInt 1) = JInt 1 /\
  trace (handle_mouse_event (JStr "click") [("x", JInt 10); ("y", JInt 20)]
           fair_weather idle_client 0) =
    [ MoveTo (JInt 10) (JInt 20); PyClick "middle";
      WsSend (ack_envelope "mouse_event") ] /\
  trace (process_message click_message fair_weather idle_client 0) = [].
Proof. repeat split. Qed.

End ClientHandlers.

(* ===================================================================== *)
(** * The client: the streaming task *)
(* ===================================================================== *)

Section ClientStreaming.
Import Py Client ClientView.

Lemma frame_delay_is_a_thirtieth : (frame_delay == 1 # 30)%Q.
Proof. reflexivity. Qed.

(** One turn of the loop, when no cancellation is delivered. *)
Lemma stream_iteration_run w c t :
  (forall t', cancel_req w t' = false) ->
  let r := stream_iteration w c t in
  let t2 := (length (frame_sent w c t) + S (S t))%nat in
  out r = Ret Continue /\
  self r = c /\
  trace r =
    match raises w t LoopTime with
    | Some _ => [LoopTime; Sleep 1]
    | None =>
        ([LoopTime; Grab] ++ frame_sent w c t ++
         [ LoopTime;
           match raises w t2 LoopTime with
           | Some _ => Sleep 1
           | None => Sleep (max0 (frame_delay - (clock w t2 - clock w t)))
           end ])%list
    end.
Proof.
  intros Hc. unfold stream_iteration, try_except2, loop_time, _capture_screen,
    frame_sent, awaited, send, sleep, emit. 
  unfold mbind, M_bind, bind, mret, M_ret, ret, get, try_except, ext, after.
  cbn. 
  destruct (raises w t LoopTime) eqn:E0; cbn; rewrite ?Hc; cbn; [auto|].
  destruct (grab w (S t)) as [[|b image]|] eqn:Eg; cbn; rewrite ?Hc; cbn.
  - destruct (raises w (S (S t)) LoopTime); cbn; rewrite ?Hc; cbn; auto.
  - destruct (ws c) eqn:Ews; cbn; rewrite ?Hc; cbn.
    + destruct (raises w (S (S t)) (WsSend _)); cbn;
        destruct (raises w (S (S (S t))) LoopTime); cbn; rewrite ?Hc; cbn; auto.
    + destruct (raises w (S (S t)) LoopTime); cbn; rewrite ?Hc; cbn; auto.
  - destruct (raises w (S (S t)) LoopTime); cbn; rewrite ?Hc; cbn; auto.
Qed.

(** Without a cancellation the loop goes on, whatever raises. *)
Lemma stream_goes_on w turns : forall c t,
  (forall t', cancel_req w t' = false) ->
  is_streaming c = true ->
  out (_stream_screen turns w c t) = Ret Streaming.
Proof.
  induction turns as [|n IH]; intros c t Hc Hs; [reflexivity|].
  cbn [_stream_screen]. unfold mbind, M_bind, bind, get. cbn. rewrite Hs.
  destruct (stream_iteration_run w c t Hc) as (Ho & Hself & _).
  destruct (stream_iteration w c t) as [o c' t' tr]. cbn in Ho, Hself.
  subst o c'. specialize (IH c t' Hc Hs).
  destruct (_stream_screen n w c t') as [o2 c2 t2 tr2]. cbn in IH. subst o2.
  reflexivity.
Qed.

(** C7, as the code has it.  In a turn of the loop in which no cancellation
    is delivered, the task reads the clock, captures one frame, sends it as
    a base64-encoded [stream_frame] envelope when the capture gave an image
    and the client is connected, reads the clock again and sleeps
    [max(0, frame_delay - elapsed)], where [frame_delay] is 1/30 s.  A
    failed capture or a failed send changes nothing else in the turn: the
    sleep is the same.  The pause of one second follows only an exception
    that reaches the loop body, here one raised by the clock.  In all cases
    the turn ends with [continue], and as long as no cancellation is
    delivered the loop is still running after any number of turns. *)
Theorem streaming_loop w c t :
  (forall t', cancel_req w t' = false) ->
  let r := stream_iteration w c t in
  let t2 := (length (frame_sent w c t) + S (S t))%nat in
  (frame_delay == 1 # 30)%Q /\
  out r = Ret Continue /\
  (raises w t LoopTime = None -> raises w t2 LoopTime = None ->
   trace r =
     ([LoopTime; Grab] ++ frame_sent w c t ++
      [LoopTime; Sleep (max0 (frame_delay - (clock w t2 - clock w t)))])%list) /\
  (trace r <>
     ([LoopTime; Grab] ++ frame_sent w c t ++
      [LoopTime; Sleep (max0 (frame_delay - (clock w t2 - clock w t)))])%list ->
   raises w t LoopTime <> None \/ raises w t2 LoopTime <> None) /\
  (forall d, Sleep d ∈ trace r -> d = 1%Q \/
     d = max0 (frame_delay - (clock w t2 - clock w t))) /\
  (forall turns, is_streaming c = true ->
     out (_stream_screen turns w c t) = Ret Streaming).
Proof.
  intros Hc r t2. destruct (stream_iteration_run w c t Hc) as (Ho & _ & Ht).
  fold r t2 in Ho, Ht. split; [reflexivity|]. split; [exact Ho|].
  split; [|split; [|split]].
  - intros E0 E2. rewrite Ht, E0, E2. reflexivity.
  - intros Hne. destruct (raises w t LoopTime) eqn:E0; [left; discriminate|].
    destruct (raises w t2 LoopTime) eqn:E2; [right; discriminate|].
    exfalso. apply Hne. rewrite Ht. reflexivity.
  - intros d Hd. rewrite Ht in Hd.
    assert (Hf : Sleep d ∉ frame_sent w c t).
    { unfold frame_sent. destruct (grab w (S t)) as [[|? ?]|], (ws c);
        rewrite list_elem_of_In; cbn; intuition discriminate. }
    destruct (raises w t LoopTime), (raises w t2 LoopTime);
      rewrite ?elem_of_app, ?elem_of_cons, ?elem_of_nil in Hd;
      intuition (try discriminate; try congruence).
  - intros turns Hs. apply stream_goes_on; assumption.
Qed.

Lemma streaming_loop_witness :
  (forall t', cancel_req fair_weather t' = false) /\
  trace (stream_iteration fair_weather streaming_client 0) =
    [ LoopTime; Grab; WsSend (image_envelope "stream_frame" jpeg); LoopTime;
      Sleep (max0 (frame_delay - ((3 # 100) - (0 # 100)))) ].
Proof.
  split; [reflexivity|].
  apply (streaming_loop fair_weather streaming_client 0
           (fun _ => eq_refl)); reflexivity.
Defined.

(** A cancellation does end the loop: by [break], in the middle of the
    first turn. *)
Example stream_is_interrupted :
  let r := _stream_screen 5 stop_requested streaming_client 0 in
  out r = Ret Interrupted /\
  trace r =
    [LoopTime; Grab; WsSend (image_envelope "stream_frame" jpeg); LoopTime].
Proof. repeat split. Qed.

(** C7, as stated, fails: the screen cannot be grabbed, and the turn ends
    with the sleep of the cadence, well under one second. *)
Lemma failed_capture_keeps_the_cadence :
  let r := stream_iteration no_display streaming_client 0 in
  grab no_display 1 = None /\
  exists d, trace r = [LoopTime; Grab; LoopTime; Sleep d] /\ (d < 1)%Q.
Proof.
  split; [reflexivity|].
  exists (max0 (frame_delay - ((2 # 100) - (0 # 100)))).
  split; reflexivity.
Qed.

End ClientStreaming.

(* ===================================================================== *)
(** * The client: the main loop *)
(* ===================================================================== *)

Section ClientMainLoop.
Import Py Client ClientView.

Lemma settled_steady {A} (m : M A) : settled m -> steady m.
Proof.
  intros H w c t. destruct (H w c t) as [[a Ha] Hn]. split; [|exact Hn].
  rewrite Ha. discriminate.
Qed.

Lemma no_connect_nil : no_connect [].
Proof. constructor. Qed.

Lemma no_connect_one k : is_connect k = false -> no_connect [k].
Proof. intros H. repeat constructor. exact H. Qed.

Lemma no_connect_app tr tr' :
  no_connect tr -> no_connect tr' -> no_connect (tr ++ tr').
Proof. intros. apply Forall_app. auto. Qed.

Lemma settled_ret {A} (a : A) : settled (ret a).
Proof. intros w c t. split; [eexists; reflexivity|constructor]. Qed.

Lemma settled_mret {A} (a : A) : settled (mret a : M A).
Proof. apply settled_ret. Qed.

Lemma settled_get : settled get.
Proof. intros w c t. split; [eexists; reflexivity|constructor]. Qed.

Lemma settled_ask : settled ask.
Proof. intros w c t. split; [eexists; reflexivity|constructor]. Qed.

Lemma settled_modify f : settled (modify f).
Proof. intros w c t. split; [eexists; reflexivity|constructor]. Qed.

Lemma settled_emit k : is_connect k = false -> settled (emit k).
Proof.
  intros H w c t. split; [eexists; reflexivity|apply no_connect_one, H].
Qed.

Lemma settled_sleep d : settled (sleep d).
Proof. apply settled_emit. reflexivity. Qed.

Lemma settled_capture : settled _capture_screen.
Proof.
  intros w c t. split; [eexists; reflexivity|apply no_connect_one; reflexivity].
Qed.

Lemma settled_create_task : settled create_task.
Proof.
  intros w c t. split; [eexists; reflexivity|apply no_connect_one; reflexivity].
Qed.

Lemma steady_raise {A} e : steady (raise e : M A).
Proof. intros w c t. split; [discriminate|constructor]. Qed.

Lemma steady_lift {A} (x : exn + A) : steady (lift x).
Proof.
  destruct x; [apply steady_raise|apply settled_steady, settled_ret].
Qed.

Lemma steady_ext k : is_connect k = false -> steady (ext k).
Proof.
  intros H w c t. split; [|apply no_connect_one, H].
  unfold ext. cbn. destruct (raises w t k); discriminate.
Qed.

Lemma steady_bind {A B} (m : M A) (k : A -> M B) :
  steady m -> (forall a, steady (k a)) -> steady (m ≫= k).
Proof.
  intros Hm Hk w c t. unfold mbind, M_bind, bind.
  destruct (Hm w c t) as [Ho Hn]. destruct (m w c t) as [[a|e|] c' t' tr];
    cbn in Ho, Hn |- *; [|split; [discriminate|exact Hn]|contradiction].
  destruct (Hk a w c' t') as [Ho' Hn']. destruct (k a w c' t'). cbn in *.
  split; [exact Ho'|apply no_connect_app; assumption].
Qed.

Lemma settled_bind {A B} (m : M A) (k : A -> M B) :
  settled m -> (forall a, settled (k a)) -> settled (m ≫= k).
Proof.
  intros Hm Hk w c t. unfold mbind, M_bind, bind.
  destruct (Hm w c t) as [[a Ho] Hn]. destruct (m w c t) as [o c' t' tr].
  cbn in Ho, Hn. subst o.
  destruct (Hk a w c' t') as [Ho' Hn']. destruct (k a w c' t'). cbn in *.
  split; [exact Ho'|apply no_connect_app; assumption].
Qed.

(** [try ... except Exception] around a steady body always returns. *)
Lemma settled_try {A} (body : M A) (handler : exn -> M A) :
  steady body -> (forall e, settled (handler e)) ->
  settled (try_except body handler).
Proof.
  intros Hb Hh w c t. unfold try_except.
  destruct (Hb w c t) as [Ho Hn]. destruct (body w c t) as [[a|e|] c' t' tr];
    cbn in Ho, Hn |- *; [split; [eauto|exact Hn]| |contradiction].
  destruct (Hh e w c' t') as [Ho' Hn']. destruct (handler e w c' t'). cbn in *.
  split; [exact Ho'|apply no_connect_app; assumption].
Qed.

Lemma steady_await_stream_task : steady (except_cancelled await_stream_task).
Proof.
  intros w c t. unfold except_cancelled, await_stream_task.
  destruct (task_end w t); cbn;
    (split; [discriminate|apply no_connect_one; reflexivity]).
Qed.

Lemma settled_send data : settled (send data).
Proof.
  unfold send. apply settled_bind; [apply settled_get|].
  intros c. destruct (ws c); [|apply settled_ret].
  apply settled_try; [apply steady_ext; reflexivity|].
  intros e. apply settled_ret.
Qed.

Lemma settled_send_ack command : settled (send_ack command).
Proof. apply settled_send. Qed.

(** Goes through a handler, case by case. *)
Ltac steadily :=
  repeat first
    [ apply settled_send_ack | apply settled_send | apply settled_sleep
    | apply settled_capture | apply settled_create_task
    | apply settled_get | apply settled_ask | apply settled_modify
    | apply settled_ret | apply settled_mret
    | apply steady_await_stream_task
    | apply steady_lift | apply steady_raise
    | apply steady_ext; reflexivity
    | apply settled_emit; reflexivity
    | apply settled_try
    | apply settled_bind
    | apply steady_bind
    | progress intros
    | match goal with
      | |- settled (if ?b then _ else _) => destruct b
      | |- steady (if ?b then _ else _) => destruct b
      | |- settled (match ?x with _ => _ end) => destruct x
      | |- steady (match ?x with _ => _ end) => destruct x
      end
    | apply settled_steady ].

Lemma settled_handle_screenshot_request : settled handle_screenshot_request.
Proof. unfold handle_screenshot_request. steadily. Qed.

Lemma settled_handle_shutdown : settled handle_shutdown.
Proof. unfold handle_shutdown. steadily. Qed.

Lemma settled_handle_browser url : settled (handle_browser url).
Proof. unfold handle_browser. steadily. Qed.

Lemma settled_handle_type text : settled (handle_type text).
Proof. unfold handle_type. steadily. Qed.

Lemma settled_handle_mouse_event event kwargs :
  settled (handle_mouse_event event kwargs).
Proof. unfold handle_mouse_event, move_if_given. cbn zeta. steadily. Qed.

Lemma settled_handle_keyboard_event event key code :
  settled (handle_keyboard_event event key code).
Proof. unfold handle_keyboard_event. steadily. Qed.

Lemma settled_handle_start_stream : settled handle_start_stream.
Proof. unfold handle_start_stream. steadily. Qed.

Lemma steady_cancel_stream_task : steady cancel_stream_task.
Proof. unfold cancel_stream_task. steadily. Qed.

Lemma settled_handle_stop_stream : settled handle_stop_stream.
Proof.
  unfold handle_stop_stream. apply settled_try; [|steadily].
  apply steady_bind; [steadily|]. intros _.
  apply steady_bind; [apply steady_cancel_stream_task|]. steadily.
Qed.

Lemma settled_disconnect : settled disconnect.
Proof.
  unfold disconnect. apply settled_try; [|steadily].
  apply steady_bind; [steadily|]. intros _.
  apply steady_bind; [apply steady_cancel_stream_task|]. steadily.
Qed.

(** Handlers never raise past the dispatch, whatever the message. *)
Lemma settled_process_message message : settled (process_message message).
Proof.
  unfold process_message. apply settled_try; [|steadily].
  apply steady_bind; [steadily|]. intros msg_type.
  assert (Hrest : steady
    (if eq_str msg_type "screenshot_request" then handle_screenshot_request
     else if eq_str msg_type "shutdown" then handle_shutdown
     else if eq_str msg_type "browser" then
       lift (dict_get message "url" (JStr "")) ≫= handle_browser
     else if eq_str msg_type "type" then
       lift (dict_get message "text" (JStr "")) ≫= handle_type
     else if eq_str msg_type "mouse_event" then
       lift (dict_get message "event" (JStr "")) ≫=
         (fun event => call_handle_mouse_event event message)
     else if eq_str msg_type "keyboard_event" then
       lift (dict_get message "event" (JStr "")) ≫= (fun event =>
       lift (dict_get message "key" JNull) ≫= (fun key =>
       lift (dict_get message "code" JNull) ≫= (fun code =>
       handle_keyboard_event event key code)))
     else if eq_str msg_type "start_stream" then handle_start_stream
     else if eq_str msg_type "stop_stream" then handle_stop_stream
     else ret tt)).
  { repeat match goal with
           | |- steady (if ?b then _ else _) => destruct b
           end;
      try (apply settled_steady;
           first [ apply settled_handle_screenshot_request
                 | apply settled_handle_shutdown
                 | apply settled_handle_start_stream
                 | apply settled_handle_stop_stream
                 | apply settled_ret ]).
    - apply steady_bind; [apply steady_lift|]. intros.
      apply settled_steady, settled_handle_browser.
    - apply steady_bind; [apply steady_lift|]. intros.
      apply settled_steady, settled_handle_type.
    - apply steady_bind; [apply steady_lift|]. intros event.
      unfold call_handle_mouse_event.
      destruct message; try apply steady_raise.
      destruct (items_mem "event" items || items_mem "self" items);
        [apply steady_raise|].
      apply settled_steady, settled_handle_mouse_event.
    - repeat (apply steady_bind; [apply steady_lift|]; intros).
      apply settled_steady, settled_handle_keyboard_event. }
  destruct msg_type; exact Hrest.
Qed.

Lemma steady_ws_recv r : steady (ws_recv r).
Proof.
  intros w c t. unfold ws_recv. destruct (ws c); cbn.
  - split; [destruct r; discriminate|apply no_connect_one; reflexivity].
  - split; [discriminate|constructor].
Qed.

(** A turn of the inner loop ends with [continue] or [break], never with
    an exception. *)
Lemma settled_receive_one r : settled (receive_one r).
Proof.
  unfold receive_one. apply settled_try.
  - apply steady_bind; [apply steady_ws_recv|]. intros message.
    apply steady_bind; [apply steady_lift|]. intros data.
    apply steady_bind; [apply settled_steady, settled_process_message|].
    intros _. apply settled_steady, settled_ret.
  - intros e. destruct e; apply settled_ret.
Qed.

Lemma settled_message_loop inbound : settled (message_loop inbound).
Proof.
  induction inbound as [|r rest IH]; cbn [message_loop]; [apply settled_ret|].
  apply settled_bind; [apply settled_receive_one|].
  intros f. destruct f; [exact IH|apply settled_ret].
Qed.

Lemma run_iteration_fails e w c t :
  run_iteration (ConnectFails e) w c t =
  Res (Ret Retry) c (S (S t)) [WsConnect (url_of c); Sleep RECONNECT_DELAY].
Proof. reflexivity. Qed.

Lemma run_iteration_connects conn inbound w c t :
  exists e c' t' body,
    run_iteration (Connects conn inbound) w c t =
      Res (Ret e) c' t' (WsConnect (url_of c) :: body) /\
    no_connect body /\ e <> Retry.
Proof.
  unfold run_iteration, try_except, connect, ws_connect.
  unfold mbind, M_bind, bind, get, modify, mret, M_ret, ret. cbn.
  destruct (settled_message_loop inbound w (set_ws (Some conn) c) (S t))
    as [[a Ha] Hn].
  destruct (message_loop inbound w (set_ws (Some conn) c) (S t))
    as [o c' t' tr]. cbn in Ha, Hn. subst o. cbn.
  destruct a; cbn; do 4 eexists; (split; [reflexivity|]);
    (split; [rewrite app_nil_r; exact Hn|discriminate]).
Qed.

(** The main loop is never left, and its trace is made of rounds. *)
Lemma run_rounds script : forall w c t,
  (exists p, out (run script w c t) = Ret p) /\
  rounds (trace (run script w c t)).
Proof.
  induction script as [|a rest IH]; intros w c t.
  { split; [eexists; reflexivity|constructor]. }
  cbn [run]. unfold mbind, M_bind, bind. destruct a as [e|conn inbound].
  - rewrite run_iteration_fails.
    destruct (IH w c (S (S t))) as [[p Hp] Hr].
    destruct (run rest w c (S (S t))) as [o c' t' tr]. cbn in Hp, Hr |- *.
    split; [eauto|].
    apply (rounds_cons _ [] RECONNECT_DELAY tr);
      [constructor|apply Qle_refl|exact Hr].
  - destruct (run_iteration_connects conn inbound w c t)
      as (e & c1 & t1 & body & -> & Hbody & He).
    destruct e; [contradiction| |].
    + destruct (settled_disconnect w c1 t1) as [[[] Hd] Hnd].
      destruct (disconnect w c1 t1) as [o2 c2 t2 tr2]. cbn in Hd, Hnd.
      subst o2. unfold sleep, emit. cbn.
      destruct (IH w c2 (S t2)) as [[p Hp] Hr].
      destruct (run rest w c2 (S t2)) as [o c' t' tr]. cbn in Hp, Hr |- *.
      split; [eauto|].
      rewrite app_assoc.
      apply rounds_cons;
        [apply no_connect_app; assumption|apply Qle_refl|exact Hr].
    + cbn. split; [eauto|]. rewrite app_nil_r. apply rounds_open, Hbody.
Qed.

(** Where the next attempt sits in a trace that starts with calls that
    are no attempts. *)
Lemma split_at_connect body x tail l u rest :
  no_connect body -> is_connect x = false ->
  (body ++ x :: tail = l ++ WsConnect u :: rest)%list ->
  exists l', l = (body ++ x :: l')%list /\ tail = (l' ++ WsConnect u :: rest)%list.
Proof.
  intros Hb Hx Heq. apply app_eq_inv in Heq as [[k [-> Hk]]|[k [-> Hk]]].
  - destruct k as [|y k]; cbn in Hk; injection Hk as <- Hk.
    + discriminate.
    + apply Forall_app in Hb as [_ Hb]. inversion Hb. discriminate.
  - destruct k as [|y k]; cbn in Hk; injection Hk as -> Hk.
    + discriminate.
    + eauto.
Qed.

Lemma rounds_spaced tr : rounds tr -> spaced tr.
Proof.
  induction 1 as [|u body Hb|u body d tr Hb Hd Hr IH];
    intros l1 u1 l2 u2 l3 Heq.
  - destruct l1; discriminate.
  - exfalso. assert (Hin : WsConnect u2 ∈ body).
    { destruct l1 as [|k l1]; cbn in Heq; injection Heq as _ ->;
        repeat first [rewrite elem_of_app | rewrite elem_of_cons];
        intuition auto. }
    unfold no_connect in Hb. rewrite Forall_forall in Hb.
    specialize (Hb _ Hin). discriminate.
  - destruct l1 as [|k l1]; cbn in Heq; injection Heq as _ Heq.
    + apply split_at_connect in Heq as (l' & -> & _); [|assumption|reflexivity].
      exists d. split; [|exact Hd]. rewrite elem_of_app, elem_of_cons. auto.
    + apply split_at_connect in Heq as (l' & _ & ->); [|assumption|reflexivity].
      eapply IH. reflexivity.
Qed.

Lemma after_after {A} tr tr' (r : res A) :
  after tr (after tr' r) = after (tr ++ tr') r.
Proof. destruct r. cbn. rewrite app_assoc. reflexivity. Qed.

Lemma trace_after {A} tr (r : res A) : trace (after tr r) = (tr ++ trace r)%list.
Proof. destruct r. reflexivity. Qed.

Lemma out_after {A} tr (r : res A) : out (after tr r) = out r.
Proof. destruct r. reflexivity. Qed.

Lemma run_after_failures fails rest w c : forall t,
  run (map ConnectFails fails ++ rest) w c t =
  after (failed_rounds c (length fails))
        (run rest w c (2 * length fails + t)).
Proof.
  induction fails as [|e fails IH]; intros t.
  { cbn. rewrite after_nil. reflexivity. }
  cbn [map app run length]. unfold mbind, M_bind, bind.
  rewrite run_iteration_fails. rewrite IH, after_after.
  replace (2 * length fails + S (S t))%nat
    with (2 * S (length fails) + t)%nat by lia.
  reflexivity.
Qed.

Lemma attempts_app tr tr' : attempts (tr ++ tr') = (attempts tr + attempts tr')%nat.
Proof. unfold attempts. rewrite filter_app, length_app. reflexivity. Qed.

Lemma attempts_no_connect tr : no_connect tr -> attempts tr = 0%nat.
Proof.
  unfold attempts. induction 1 as [|k tr Hk _ IH]; [reflexivity|].
  rewrite filter_cons_False; [exact IH|]. rewrite Hk. discriminate.
Qed.

Lemma attempts_failed_rounds c n : attempts (failed_rounds c n) = n.
Proof.
  induction n as [|n IH]; [reflexivity|].
  unfold failed_rounds in *. cbn [replicate concat].
  rewrite attempts_app, IH. reflexivity.
Qed.

(** One more attempt, whatever its outcome, is one more call to connect. *)
Lemma run_single a w c t :
  exists rest,
    trace (run [a] w c t) = WsConnect (url_of c) :: rest /\ no_connect rest.
Proof.
  cbn [run]. unfold mbind, M_bind, bind. destruct a as [e|conn inbound].
  - rewrite run_iteration_fails. cbn. eexists. split; [reflexivity|].
    repeat constructor.
  - destruct (run_iteration_connects conn inbound w c t)
      as (e & c1 & t1 & body & -> & Hbody & He).
    destruct e; [contradiction| |].
    + destruct (settled_disconnect w c1 t1) as [[[] Hd] Hnd].
      destruct (disconnect w c1 t1) as [o2 c2 t2 tr2]. cbn in Hd, Hnd.
      subst o2. cbn. eexists. split; [reflexivity|].
      repeat apply no_connect_app; try assumption; repeat constructor.
    + cbn. eexists. split; [reflexivity|].
      rewrite app_nil_r. exact Hbody.
Qed.

(** ** The loop goes on *)

Lemma anchored_ret {A} (a : A) : anchored (ret a).
Proof. intros w c t. auto. Qed.

Lemma anchored_mret {A} (a : A) : anchored (mret a : M A).
Proof. apply anchored_ret. Qed.

Lemma anchored_get : anchored get.
Proof. intros w c t. auto. Qed.

Lemma anchored_ask : anchored ask.
Proof. intros w c t. auto. Qed.

Lemma anchored_raise {A} e : anchored (raise e : M A).
Proof. intros w c t. auto. Qed.

Lemma anchored_lift {A} (x : exn + A) : anchored (lift x).
Proof. destruct x; [apply anchored_raise|apply anchored_ret]. Qed.

Lemma anchored_set_is_streaming b : anchored (modify (set_is_streaming b)).
Proof. intros w c t. auto. Qed.

Lemma anchored_set_stream_task v : anchored (modify (set_stream_task v)).
Proof. intros w c t. auto. Qed.

Lemma anchored_ext k : anchored (ext k).
Proof. intros w c t. auto. Qed.

Lemma anchored_emit k : anchored (emit k).
Proof. intros w c t. auto. Qed.

Lemma anchored_capture : anchored _capture_screen.
Proof. intros w c t. auto. Qed.

Lemma anchored_create_task : anchored create_task.
Proof. intros w c t. auto. Qed.

Lemma anchored_await_stream_task : anchored await_stream_task.
Proof. intros w c t. auto. Qed.

Lemma anchored_bind {A B} (m : M A) (k : A -> M B) :
  anchored m -> (forall a, anchored (k a)) -> anchored (m ≫= k).
Proof.
  intros Hm Hk w c t. unfold mbind, M_bind, bind.
  destruct (Hm w c t) as (Hu & Hn & Hw).
  destruct (m w c t) as [[a|e|] c' t' tr]; cbn in Hu, Hn, Hw |- *; [|auto..].
  destruct (Hk a w c' t') as (Hu' & Hn' & Hw').
  destruct (k a w c' t'). cbn in *. repeat split; congruence.
Qed.

Lemma anchored_try {A} (body : M A) (handler : exn -> M A) :
  anchored body -> (forall e, anchored (handler e)) ->
  anchored (try_except body handler).
Proof.
  intros Hb Hh w c t. unfold try_except.
  destruct (Hb w c t) as (Hu & Hn & Hw).
  destruct (body w c t) as [[a|e|] c' t' tr]; cbn in Hu, Hn, Hw |- *;
    [auto| |auto].
  destruct (Hh e w c' t') as (Hu' & Hn' & Hw').
  destruct (handler e w c' t'). cbn in *. repeat split; congruence.
Qed.

Lemma anchored_except_cancelled m :
  anchored m -> anchored (except_cancelled m).
Proof.
  intros Hm w c t. unfold except_cancelled.
  destruct (Hm w c t) as (Hu & Hn & Hw).
  destruct (m w c t) as [[a|e|] c' t' tr]; cbn in *; auto.
Qed.

(** Goes through a handler, case by case. *)
Ltac anchoring :=
  repeat first
    [ apply anchored_ret | apply anchored_mret | apply anchored_get
    | apply anchored_ask | apply anchored_raise | apply anchored_lift
    | apply anchored_set_is_streaming | apply anchored_set_stream_task
    | apply anchored_ext | apply anchored_emit | apply anchored_capture
    | apply anchored_create_task | apply anchored_await_stream_task
    | apply anchored_except_cancelled
    | apply anchored_try
    | apply anchored_bind
    | progress intros
    | match goal with
      | |- anchored (if ?b then _ else _) => destruct b
      | |- anchored (match ?x with _ => _ end) => destruct x
      end ].

Lemma anchored_process_message message : anchored (process_message message).
Proof.
  unfold process_message. apply anchored_try; [|anchoring].
  apply anchored_bind; [anchoring|]. intros msg_type.
  assert (Hrest : anchored
    (if eq_str msg_type "screenshot_request" then handle_screenshot_request
     else if eq_str msg_type "shutdown" then handle_shutdown
     else if eq_str msg_type "browser" then
       lift (dict_get message "url" (JStr "")) ≫= handle_browser
     else if eq_str msg_type "type" then
       lift (dict_get message "text" (JStr "")) ≫= handle_type
     else if eq_str msg_type "mouse_event" then
       lift (dict_get message "event" (JStr "")) ≫=
         (fun event => call_handle_mouse_event event message)
     else if eq_str msg_type "keyboard_event" then
       lift (dict_get message "event" (JStr "")) ≫= (fun event =>
       lift (dict_get message "key" JNull) ≫= (fun key =>
       lift (dict_get message "code" JNull) ≫= (fun code =>
       handle_keyboard_event event key code)))
     else if eq_str msg_type "start_stream" then handle_start_stream
     else if eq_str msg_type "stop_stream" then handle_stop_stream
     else ret tt)).
  { unfold handle_screenshot_request, handle_shutdown, handle_browser,
      handle_type, call_handle_mouse_event, handle_mouse_event, move_if_given,
      handle_keyboard_event, handle_start_stream, handle_stop_stream,
      cancel_stream_task, send_ack, send, sleep.
    cbn zeta. anchoring. }
  destruct msg_type; exact Hrest.
Qed.

Lemma url_of_anchored c c' :
  server_url c' = server_url c -> client_name c' = client_name c ->
  url_of c' = url_of c.
Proof. unfold url_of. intros -> ->. reflexivity. Qed.

(** A turn of the inner loop: [break] exactly on what ends a session. *)
Lemma receive_one_flow r w c t conn :
  ws c = Some conn ->
  exists c' t' tr,
    receive_one r w c t =
      Res (Ret (if breaks r then Break else Continue)) c' t' tr /\
    ws c' = Some conn /\ url_of c' = url_of c.
Proof.
  intros H. unfold receive_one, ws_recv, try_except, json_loads.
  unfold mbind, M_bind, bind, lift, raise, ret. rewrite H.
  destruct r as [[data|]|e]; cbn.
  - destruct (settled_process_message data w c (S t)) as [[[] Ho] _].
    destruct (anchored_process_message data w c (S t)) as (Hu & Hn & Hw).
    destruct (process_message data w c (S t)) as [o c' t' tr].
    cbn in Ho, Hu, Hn, Hw. subst o. cbn. do 3 eexists.
    split; [reflexivity|]. split; [congruence|].
    apply url_of_anchored; assumption.
  - do 3 eexists. split; [reflexivity|]. auto.
  - destruct e; cbn; do 3 eexists; (split; [reflexivity|]); auto.
Qed.

(** A session ends exactly when the network ends it. *)
Lemma message_loop_end inbound : forall w c t conn,
  ws c = Some conn ->
  exists c' t' tr,
    message_loop inbound w c t =
      Res (Ret (if existsb breaks inbound then Broke else Waiting)) c' t' tr /\
    ws c' = Some conn /\ url_of c' = url_of c.
Proof.
  induction inbound as [|r rest IH]; intros w c t conn H.
  { cbn. do 3 eexists. split; [reflexivity|]. auto. }
  cbn [message_loop existsb]. unfold mbind, M_bind, bind.
  destruct (receive_one_flow r w c t conn H) as (c1 & t1 & tr1 & -> & Hw & Hu).
  destruct (breaks r); cbn.
  - do 3 eexists. split; [reflexivity|]. auto.
  - destruct (IH w c1 t1 conn Hw) as (c2 & t2 & tr2 & -> & Hw2 & Hu2).
    cbn. do 3 eexists. split; [reflexivity|]. split; [exact Hw2|congruence].
Qed.

Lemma run_iteration_end conn inbound w c t :
  exists c' t' body,
    run_iteration (Connects conn inbound) w c t =
      Res (Ret (if existsb breaks inbound then Cleanup else Suspended))
          c' t' (WsConnect (url_of c) :: body) /\
    no_connect body /\ url_of c' = url_of c.
Proof.
  destruct (run_iteration_connects conn inbound w c t)
    as (e & c' & t' & body & Heq & Hb & _).
  exists c', t', body. split; [|split; [exact Hb|]]; revert Heq;
    unfold run_iteration, try_except, connect, ws_connect;
    unfold mbind, M_bind, bind, get, modify, mret, M_ret, ret; cbn;
    destruct (message_loop_end inbound w (set_ws (Some conn) c) (S t) conn
                eq_refl) as (c1 & t1 & tr1 & -> & _ & Hu);
    destruct (existsb breaks inbound); cbn; intros Heq;
    injection Heq as <- <- <- <-; first [reflexivity | exact Hu].
Qed.

Lemma disconnect_address w c t : url_of (self (disconnect w c t)) = url_of c.
Proof.
  destruct c as [url sock name streaming task].
  unfold disconnect, cancel_stream_task, await_stream_task.
  unfold mbind, M_bind, bind, mret, M_ret, ret, get, modify,
    try_except, except_cancelled, ext, emit, after. cbn.
  destruct task as [task|], sock as [sock|]; cbn;
    repeat match goal with
           | |- context [task_end ?w ?t] => destruct (task_end w t); cbn
           | |- context [raises ?w ?t ?k] => destruct (raises w t k); cbn
           end; reflexivity.
Qed.

(** After an attempt that leaves the client without a session, the loop
    sleeps and goes on with what the network does next. *)
Lemma run_goes_on a w c t :
  closes a = true ->
  exists c' t' body,
    (forall rest,
       run (a :: rest) w c t =
         after (WsConnect (url_of c) :: body ++ [Sleep RECONNECT_DELAY])
               (run rest w c' t')) /\
    no_connect body /\ url_of c' = url_of c.
Proof.
  intros Hc. cbn [run]. unfold mbind, M_bind, bind.
  destruct a as [e|conn inbound].
  - rewrite run_iteration_fails. exists c, (S (S t)), [].
    split; [reflexivity|]. split; [constructor|reflexivity].
  - destruct (run_iteration_end conn inbound w c t)
      as (c1 & t1 & body & -> & Hb & Hu).
    cbn in Hc. rewrite Hc.
    pose proof (disconnect_address w c1 t1) as Hd.
    destruct (settled_disconnect w c1 t1) as [[[] Ho] Hn].
    destruct (disconnect w c1 t1) as [o c2 t2 tr2]. cbn in Ho, Hn, Hd.
    subst o. unfold sleep, emit. cbn.
    exists c2, (S t2), (body ++ tr2)%list.
    split; [|split; [apply no_connect_app; assumption|congruence]].
    intros rest. destruct (run rest w c2 (S t2)) as [o3 c3 t3 tr3]. cbn.
    rewrite <- !app_assoc. reflexivity.
Qed.

(** A session that stays open: the loop is suspended in [recv]. *)
Lemma run_waits conn inbound rest w c t :
  closes (Connects conn inbound) = false ->
  exists c' t' body,
    run (Connects conn inbound :: rest) w c t =
      Res (Ret AtRecv) c' t' (WsConnect (url_of c) :: body) /\
    no_connect body.
Proof.
  intros Hc. cbn [run]. unfold mbind, M_bind, bind.
  destruct (run_iteration_end conn inbound w c t)
    as (c1 & t1 & body & -> & Hb & Hu).
  cbn in Hc. rewrite Hc. cbn. rewrite app_nil_r. eauto.
Qed.

Lemma made_closed script :
  forallb closes script = true -> made script = length script.
Proof.
  induction script as [|a rest IH]; [reflexivity|]. cbn.
  intros H. apply andb_prop in H as [-> H]. rewrite IH by exact H.
  reflexivity.
Qed.

(** Every attempt up to the first session that stays open is made. *)
Lemma run_made script : forall w c t,
  out (run script w c t) =
    Ret (if forallb closes script then AtConnect else AtRecv) /\
  attempts (trace (run script w c t)) = made script.
Proof.
  induction script as [|a rest IH]; intros w c t; [split; reflexivity|].
  cbn [forallb made]. destruct (closes a) eqn:Hc.
  - destruct (run_goes_on a w c t Hc) as (c' & t' & body & Hrun & Hb & _).
    rewrite Hrun. destruct (IH w c' t') as [Ho Ha].
    rewrite out_after, trace_after. split; [exact Ho|].
    change (WsConnect (url_of c) :: body ++ [Sleep RECONNECT_DELAY])%list
      with ([WsConnect (url_of c)] ++ body ++ [Sleep RECONNECT_DELAY])%list.
    rewrite !attempts_app, Ha, (attempts_no_connect body Hb).
    reflexivity.
  - destruct a as [e|conn inbound]; [discriminate|].
    destruct (run_waits conn inbound rest w c t Hc)
      as (c' & t' & body & -> & Hb).
    split; [reflexivity|]. cbn [trace].
    change (WsConnect (url_of c) :: body)%list
      with ([WsConnect (url_of c)] ++ body)%list.
    rewrite attempts_app, (attempts_no_connect body Hb). reflexivity.
Qed.

(** After a script that leaves the client without a session, the run goes
    on with what the network does next, at the same address; it has just
    slept. *)
Lemma run_closed script : forall w c t,
  forallb closes script = true ->
  exists c' t',
    url_of c' = url_of c /\
    (forall rest,
       run (script ++ rest) w c t =
         after (trace (run script w c t)) (run rest w c' t')) /\
    (script <> [] ->
     exists tr,
       trace (run script w c t) = (tr ++ [Sleep RECONNECT_DELAY])%list).
Proof.
  induction script as [|a script IH]; intros w c t H.
  { exists c, t. split; [reflexivity|]. split; [|congruence].
    intros rest. cbn. rewrite after_nil. reflexivity. }
  cbn in H. apply andb_prop in H as [Ha H].
  destruct (run_goes_on a w c t Ha) as (c1 & t1 & body & Hrun & Hb & Hu).
  destruct (IH w c1 t1 H) as (c' & t' & Hu' & Happ & Hlast).
  exists c', t'. split; [congruence|]. split.
  - intros rest. cbn [app]. rewrite !Hrun, Happ, trace_after, after_after.
    reflexivity.
  - intros _. rewrite Hrun, trace_after.
    destruct script as [|b script'].
    + cbn. exists (WsConnect (url_of c) :: body).
      rewrite app_nil_r. reflexivity.
    + destruct Hlast as [tr Htr]; [discriminate|]. rewrite Htr.
      exists ((WsConnect (url_of c) :: body ++ [Sleep RECONNECT_DELAY])
              ++ tr)%list.
      rewrite <- app_assoc. reflexivity.
Qed.

(** C8.  Whatever the network does (refused connections, closed
    connections, receive errors, texts that are no JSON or no command) the
    main loop is never left: it is suspended in [recv], in a session that
    the network keeps open, or about to connect again.  Every attempt of
    the script up to the first session that stays open is made: after
    each refused connection and after each session that ends, the client
    sleeps [RECONNECT_DELAY] and its next call is a connection attempt,
    to the same address.  Between two connection attempts the client
    sleeps at least [RECONNECT_DELAY], which is 5 seconds, the same after
    every failure.  After [N] refused connections in a row the trace is
    [N] times an attempt followed by that sleep, and then attempt
    [N + 1]. *)
Theorem reconnect_loop w c t :
  (RECONNECT_DELAY == 5)%Q /\
  (forall script, exists p, out (run script w c t) = Ret p) /\
  (forall script, spaced (trace (run script w c t))) /\
  (forall fails a,
     let tr := trace (run (map ConnectFails fails ++ [a]) w c t) in
     attempts tr = S (length fails) /\
     exists rest,
       tr = (failed_rounds c (length fails) ++
             WsConnect (url_of c) :: rest)%list) /\
  (forall script,
     out (run script w c t) =
       Ret (if forallb closes script then AtConnect else AtRecv) /\
     attempts (trace (run script w c t)) = made script) /\
  (forall script a,
     forallb closes script = true ->
     let tr := trace (run script w c t) in
     attempts tr = length script /\
     (script <> [] -> exists tr', tr = (tr' ++ [Sleep RECONNECT_DELAY])%list) /\
     exists body,
       trace (run (script ++ [a]) w c t) =
         (tr ++ WsConnect (url_of c) :: body)%list /\
       no_connect body).
Proof.
  split; [reflexivity|]. split; [|split; [|split; [|split]]].
  - intros script. apply run_rounds.
  - intros script. apply rounds_spaced, run_rounds.
  - intros fails a tr. subst tr. rewrite run_after_failures, trace_after.
    destruct (run_single a w c (2 * length fails + t)) as (rest & -> & Hr).
    split; [|eauto].
    rewrite attempts_app, attempts_failed_rounds.
    change (WsConnect (url_of c) :: rest)
      with ([WsConnect (url_of c)] ++ rest)%list.
    rewrite attempts_app, (attempts_no_connect rest Hr).
    change (attempts [WsConnect (url_of c)]) with 1%nat. lia.
  - intros script. apply run_made.
  - intros script a Hc tr. subst tr.
    destruct (run_closed script w c t Hc) as (c' & t' & Hu & Happ & Hlast).
    split; [|split; [exact Hlast|]].
    + destruct (run_made script w c t) as [_ ->]. apply made_closed, Hc.
    + rewrite Happ, trace_after.
      destruct (run_single a w c' t') as (body & -> & Hb).
      exists body. rewrite Hu. auto.
Qed.

(** The loop on a concrete run of the network. *)
Example run_rough_network :
  let r := run rough_network fair_weather new_client 0 in
  out r = Ret AtConnect /\
  self r = new_client /\
  trace r =
    [ WsConnect "ws://localhost:8765/ws/desk-1"; Sleep 5;
      WsConnect "ws://localhost:8765/ws/desk-1";
      WsRecv; PyWrite (JStr "hello"); WsSend (ack_envelope "type");
      WsRecv; WsRecv;
      WsRecv; CreateTask; WsSend (ack_envelope "start_stream");
      WsRecv; TaskCancel; TaskAwait; WsClose; Sleep 5;
      WsConnect "ws://localhost:8765/ws/desk-1"; Sleep 5 ].
Proof. repeat split. Qed.

End ClientMainLoop.

(* ===================================================================== *)
(** * The hub: routing *)
(* ===================================================================== *)

Section HubRouting.
Import Py Database Server ServerView.

Lemma select_by_name_app n rs rs' :
  select_by_name n (rs ++ rs') =
  match select_by_name n rs with
  | Some r => Some r
  | None => select_by_name n rs'
  end.
Proof.
  induction rs as [|r rs IH]; [reflexivity|]. cbn.
  destruct (String.eqb (name r) n); [reflexivity|exact IH].
Qed.

Lemma rows_update_client_status cid s now t :
  rows (update_client_status cid s now t) = map (touch cid s now) (rows t).
Proof. reflexivity. Qed.

Lemma name_touch cid s now r : name (touch cid s now r) = name r.
Proof. unfold touch. destruct (id r =? cid)%Z; reflexivity. Qed.

Lemma id_touch cid s now r : id (touch cid s now r) = id r.
Proof. unfold touch. destruct (id r =? cid)%Z; reflexivity. Qed.

Lemma select_by_name_touch n cid s now rs :
  select_by_name n (map (touch cid s now) rs) =
  touch cid s now <$> select_by_name n rs.
Proof.
  induction rs as [|r rs IH]; [reflexivity|]. cbn [map select_by_name].
  rewrite name_touch. destruct (String.eqb (name r) n); [reflexivity|exact IH].
Qed.

Lemma get_or_create_client_id n now t :
  id (get_or_create_client n now t).1 = id_of n t.
Proof.
  unfold get_or_create_client, id_of.
  destruct (select_by_name n (rows t)); reflexivity.
Qed.

(** Once a name is in the table, it keeps its id. *)
Lemma id_of_after_connect n now now' s t :
  id_of n (update_client_status (id_of n t) s now'
             (get_or_create_client n now t).2) = id_of n t.
Proof.
  unfold id_of at 1. rewrite rows_update_client_status, select_by_name_touch.
  unfold get_or_create_client, id_of.
  destruct (select_by_name n (rows t)) as [row|] eqn:E; cbn [snd rows].
  - rewrite E. cbn. apply id_touch.
  - rewrite select_by_name_app, E. cbn. rewrite String.eqb_refl. cbn.
    apply id_touch.
Qed.

(** What accepting a connection does to the process. *)
Lemma websocket_endpoint_run websocket n now h :
  websocket_endpoint websocket n now h =
  Hub (update_client_status (id_of n (db h)) ONLINE now
         (get_or_create_client n now (db h)).2)
      (ConnectionManager.register websocket n (id_of n (db h)) (manager h))
      (screenshot_pending h) (futures h)
      (<[websocket := id_of n (db h)]> (endpoints h))
      (waiters h) (sent h ++ [WsAccept websocket]).
Proof.
  unfold websocket_endpoint, connect.
  rewrite <- (get_or_create_client_id n now (db h)).
  cbn [db say]. destruct (get_or_create_client n now (db h)) as [client file].
  reflexivity.
Qed.

(** C2, as the code has it.  After two connections under one name, on two
    different channels, the routing table of a freshly started hub has
    exactly one entry, under the id of the name, and it points at the
    second channel; both endpoint coroutines hold that same id.  When the
    first channel then closes or fails, its endpoint removes the entry of
    that id: the table is empty although the second channel is still
    served.  Removal goes by the client id, not by the channel. *)
Theorem same_name_twice file websocket1 websocket2 n t1 t2 t3 e :
  websocket1 <> websocket2 ->
  let h2 := steps (start file)
              [Connects websocket1 n t1; Connects websocket2 n t2] in
  let h3 := step h2 (Receives websocket1 (ReceiveRaises e) t3) in
  let client_id := id_of n file in
  ConnectionManager.active_connections (manager h2) = {[client_id := websocket2]} /\
  ConnectionManager.name_to_id (manager h2) = {[n := client_id]} /\
  endpoints h2 !! websocket1 = Some client_id /\
  endpoints h2 !! websocket2 = Some client_id /\
  ConnectionManager.active_connections (manager h3) = ∅ /\
  ConnectionManager.name_to_id (manager h3) = ∅ /\
  endpoints h3 !! websocket2 = Some client_id.
Proof.
  intros Hne h2 h3 client_id.
  assert (Hh2 : h2 =
    Hub (db h2)
        (ConnectionManager.Manager {[client_id := websocket2]} {[n := client_id]})
        ∅ ∅ (<[websocket2 := client_id]> (<[websocket1 := client_id]> ∅)) ∅
        [WsAccept websocket1; WsAccept websocket2]).
  { subst h2. unfold steps. cbn [foldl step].
    rewrite (websocket_endpoint_run websocket2).
    rewrite (websocket_endpoint_run websocket1). cbn [db manager start
      screenshot_pending futures endpoints waiters sent].
    rewrite id_of_after_connect. fold client_id.
    unfold ConnectionManager.register, ConnectionManager.init.
    cbn [ConnectionManager.active_connections ConnectionManager.name_to_id].
    rewrite !insert_insert_eq, !insert_empty. reflexivity. }
  assert (H1 : endpoints h2 !! websocket1 = Some client_id).
  { rewrite Hh2. cbn [endpoints].
    rewrite lookup_insert_ne by congruence. apply lookup_insert_eq. }
  assert (H2 : endpoints h2 !! websocket2 = Some client_id).
  { rewrite Hh2. cbn [endpoints]. apply lookup_insert_eq. }
  assert (Hh3 : h3 = on_endpoint_error websocket1 client_id t3 h2).
  { subst h3. cbn [step]. unfold websocket_endpoint_turn. rewrite H1.
    reflexivity. }
  split; [rewrite Hh2; reflexivity|]. split; [rewrite Hh2; reflexivity|].
  split; [exact H1|]. split; [exact H2|].
  rewrite Hh3. unfold on_endpoint_error. cbn [manager set_db set_manager
    set_endpoints endpoints]. rewrite Hh2 at 1 2.
  cbn [manager ConnectionManager.disconnect
       ConnectionManager.active_connections ConnectionManager.name_to_id].
  split; [apply delete_singleton_eq|].
  split; [apply map_filter_singleton_False; cbn; auto|].
  rewrite lookup_delete_ne by congruence. exact H2.
Qed.

Lemma same_name_twice_witness :
  1%nat <> 2%nat /\
  let h2 := steps (start init_db)
              [Connects 1 "desk-1" 0; Connects 2 "desk-1" 1] in
  ConnectionManager.active_connections (manager h2) =
    {[id_of "desk-1" init_db := 2%nat]}.
Proof.
  split; [discriminate|].
  apply (same_name_twice init_db 1 2 "desk-1" 0 1 2 WebSocketDisconnect).
  discriminate.
Defined.

(** C2, as stated, fails: the first channel closes after the second one
    was accepted, and the routing entry of the agent, which pointed at the
    second channel, is gone. *)
Lemma stale_close_removes_the_route :
  let h2 := steps (start init_db) [Connects 1 "desk-1" 0; Connects 2 "desk-1" 1] in
  let h3 := steps (start init_db) reconnect_then_stale_close in
  ConnectionManager.active_connections (manager h2) !! 1%Z = Some 2%nat /\
  endpoints h3 !! 2%nat = Some 1%Z /\
  ConnectionManager.active_connections (manager h3) !! 1%Z = None /\
  ConnectionManager.name_to_id (manager h3) !! "desk-1" = None.
Proof. vm_compute. repeat split. Qed.

End HubRouting.

(* ===================================================================== *)
(** * The hub: the list of agents *)
(* ===================================================================== *)

Section HubDirectory.
Import Py Database Server ServerView.















(** [/clients] reports the stored status as well. *)
Lemma get_clients_shows_the_stored_status h i n shown seen :
  (i, n, shown, seen) ∈ get_clients h ->
  exists c, c ∈ get_all_clients (db h) /\ id c = i /\
            (shown = "online" <-> status c = ONLINE).
Proof.
  unfold get_clients. intros Hin.
  apply list_elem_of_fmap in Hin as (c & Heq & Hc). injection Heq as -> -> -> ->.
  exists c. repeat split; auto; destruct (status c); cbn; congruence.
Qed.


End HubDirectory.

(* ===================================================================== *)
(** * The hub: screenshot requests *)
(* ===================================================================== *)

Section HubScreenshots.
Import Py Database Server ServerView.

(** [send_screenshot] for a connected agent, up to its suspension. *)
Lemma send_screenshot_suspends h client_id chat_id env websocket :
  ConnectionManager.active_connections (manager h) !! client_id = Some websocket ->
  let future := fresh (dom (futures h)) in
  send_screenshot client_id chat_id env h =
  (None,
   Hub (db h) (manager h)
       (<[client_id := future]> (screenshot_pending h))
       (<[future := Pending]> (futures h))
       (endpoints h)
       (<[future := Waiter client_id chat_id SCREENSHOT_TIMEOUT]> (waiters h))
       (sent h ++ [WsSendJson websocket
                     (JObj [("type", JStr "screenshot_request")])])).
Proof.
  intros H future. unfold send_screenshot, send_to_client. rewrite H.
  cbn. rewrite H. reflexivity.
Qed.

(** Every way out of the wait goes through the [finally] clause. *)
Lemma send_screenshot_wakes_clears future env h client_id chat_id timeout :
  waiters h !! future = Some (Waiter client_id chat_id timeout) ->
  screenshot_pending (send_screenshot_wakes future env h).2 !! client_id = None.
Proof.
  intros H. unfold send_screenshot_wakes, bot_send_message, clear_pending.
  rewrite H. cbn [futures set_waiters].
  destruct (futures h !! future) as [[|image_data|]|]; cbn;
    try apply lookup_delete_eq.
  destruct (b64decode env image_data) as [e|image_bytes]; cbn.
  - destruct e; cbn; apply lookup_delete_eq.
  - destruct (photo_failure env) as [e|]; cbn; [destruct e|]; cbn;
      apply lookup_delete_eq.
Qed.

(** The deadline passes on a future that is still pending. *)
Lemma send_screenshot_wakes_timeout future env h client_id chat_id timeout :
  waiters h !! future = Some (Waiter client_id chat_id timeout) ->
  futures h !! future = Some Pending ->
  let r := send_screenshot_wakes future env h in
  r.1 = Some (match message_failure env with
              | Some e => Raised e
              | None => Returned false
              end) /\
  sent r.2 = (sent h ++ [BotSendMessage chat_id (TimeoutText client_id)])%list /\
  futures r.2 !! future = Some FutureCancelled.
Proof.
  intros Hw Hf. unfold send_screenshot_wakes, bot_send_message, clear_pending.
  rewrite Hw. cbn [futures set_waiters]. rewrite Hf. cbn.
  repeat split. apply lookup_insert_eq.
Qed.

(** What the end of a wait does to the tables. *)
Lemma send_screenshot_wakes_tables future env h client_id chat_id timeout :
  waiters h !! future = Some (Waiter client_id chat_id timeout) ->
  let h' := (send_screenshot_wakes future env h).2 in
  waiters h' = delete future (waiters h) /\
  screenshot_pending h' = delete client_id (screenshot_pending h) /\
  (futures h' = futures h \/
   futures h' = <[future := FutureCancelled]> (futures h)).
Proof.
  intros H. unfold send_screenshot_wakes, bot_send_message, clear_pending.
  rewrite H. cbn [futures set_waiters].
  destruct (futures h !! future) as [[|image_data|]|]; cbn; auto.
  destruct (b64decode env image_data) as [e|image_bytes]; cbn.
  - destruct e; cbn; auto.
  - destruct (photo_failure env) as [e|]; cbn; [destruct e|]; cbn; auto.
Qed.

Lemma parked_ext future wt h h' :
  futures h' = futures h -> waiters h' = waiters h ->
  screenshot_pending h' = screenshot_pending h ->
  parked future wt h -> parked future wt h'.
Proof. unfold parked. intros -> -> ->. auto. Qed.

Lemma parked_on_text future wt client_id loads h h' :
  on_text client_id loads h = inr h' ->
  parked future wt h -> parked future wt h'.
Proof.
  unfold on_text. intros Ht Hp.
  destruct loads as [message|]; [|injection Ht as <-; exact Hp].
  destruct (dict_get message "type" JNull) as [e|msg_type]; [discriminate|].
  destruct message; try (injection Ht as <-; exact Hp).
  destruct (eq_str msg_type "screenshot" && items_mem "image" items);
    [|injection Ht as <-; exact Hp].
  destruct (screenshot_pending h !! client_id) as [future'|] eqn:E;
    [|injection Ht as <-; exact Hp].
  unfold set_result in Ht.
  destruct (futures h !! future') as [[| |]|]; try discriminate.
  injection Ht as <-. destruct Hp as (Hf & Hw & Hn).
  assert (future' <> future) by (intros ->; exact (Hn _ E)).
  repeat split; cbn; [rewrite lookup_insert_ne by assumption|..]; assumption.
Qed.

(** No event but its own waking ends the wait of a parked call, and none
    gives its future a result. *)
Lemma parked_step future wt h e :
  leaves_waiting future e -> parked future wt h -> parked future wt (step h e).
Proof.
  intros He Hp. destruct e as [ws n now|ws r now|cid chat env|f env|];
    cbn [step]; cbn in He; [| | | |contradiction].
  - rewrite websocket_endpoint_run.
    apply (parked_ext _ _ h); [reflexivity..|exact Hp].
  - unfold websocket_endpoint_turn.
    destruct (endpoints h !! ws) as [client_id|]; [|exact Hp].
    assert (Herr : parked future wt (on_endpoint_error ws client_id now h))
      by (apply (parked_ext _ _ h); [reflexivity..|exact Hp]).
    destruct r as [loads|e]; [|exact Herr].
    destruct (on_text client_id loads h) as [e|h'] eqn:E; [exact Herr|].
    exact (parked_on_text _ _ _ _ _ _ E Hp).
  - destruct (ConnectionManager.active_connections (manager h) !! cid)
      as [websocket|] eqn:E.
    + rewrite (send_screenshot_suspends h cid chat env websocket E).
      destruct Hp as (Hf & Hw & Hn). cbn [snd].
      assert (Hfresh : fresh (dom (futures h)) <> future).
      { intros Heq. apply (is_fresh (dom (futures h))). rewrite Heq.
        apply elem_of_dom. eauto. }
      repeat split; cbn; rewrite ?lookup_insert_ne by assumption; try assumption.
      intros cid'. destruct (decide (cid = cid')) as [->|Hne].
      * rewrite lookup_insert_eq. congruence.
      * rewrite lookup_insert_ne by assumption. apply Hn.
    + unfold send_screenshot, bot_send_message. rewrite E. cbn [snd].
      apply (parked_ext _ _ h); [reflexivity..|exact Hp].
  - destruct (waiters h !! f) as [[cid chat timeout]|] eqn:E.
    + destruct (send_screenshot_wakes_tables f env h cid chat timeout E)
        as (Hw' & Hp' & Hf').
      destruct Hp as (Hf & Hw & Hn). repeat split.
      * destruct Hf' as [-> | ->]; [exact Hf|].
        rewrite lookup_insert_ne by assumption. exact Hf.
      * rewrite Hw', lookup_delete_ne by assumption. exact Hw.
      * intros cid'. rewrite Hp'. destruct (decide (cid = cid')) as [->|Hne].
        -- rewrite lookup_delete_eq. discriminate.
        -- rewrite lookup_delete_ne by assumption. apply Hn.
    + unfold send_screenshot_wakes. rewrite E. exact Hp.
Qed.

Lemma parked_steps future wt es : forall h,
  Forall (leaves_waiting future) es ->
  parked future wt h -> parked future wt (steps h es).
Proof.
  induction es as [|e es IH]; intros h Hes Hp; [exact Hp|].
  inversion Hes as [|? ? He Hes']; subst. cbn [steps foldl].
  apply IH; [exact Hes'|]. apply parked_step; assumption.
Qed.

Lemma pending_known_ext h h' :
  futures h' = futures h -> screenshot_pending h' = screenshot_pending h ->
  pending_known h -> pending_known h'.
Proof. unfold pending_known. intros -> ->. auto. Qed.

Lemma pending_known_on_text client_id loads h h' :
  on_text client_id loads h = inr h' -> pending_known h -> pending_known h'.
Proof.
  unfold on_text. intros Ht Hk.
  destruct loads as [message|]; [|injection Ht as <-; exact Hk].
  destruct (dict_get message "type" JNull) as [e|msg_type]; [discriminate|].
  destruct message; try (injection Ht as <-; exact Hk).
  destruct (eq_str msg_type "screenshot" && items_mem "image" items);
    [|injection Ht as <-; exact Hk].
  destruct (screenshot_pending h !! client_id) as [future'|] eqn:E;
    [|injection Ht as <-; exact Hk].
  unfold set_result in Ht.
  destruct (futures h !! future') as [[| |]|]; try discriminate.
  injection Ht as <-. intros cid f Hf. cbn in Hf |- *.
  rewrite lookup_insert_is_Some. destruct (decide (future' = f)); eauto.
Qed.

Lemma pending_known_step h e : pending_known h -> pending_known (step h e).
Proof.
  intros Hk. destruct e as [ws n now|ws r now|cid chat env|f env|]; cbn [step].
  - rewrite websocket_endpoint_run.
    apply (pending_known_ext h); [reflexivity..|exact Hk].
  - unfold websocket_endpoint_turn.
    destruct (endpoints h !! ws) as [client_id|]; [|exact Hk].
    assert (Herr : pending_known (on_endpoint_error ws client_id now h))
      by (apply (pending_known_ext h); [reflexivity..|exact Hk]).
    destruct r as [loads|e]; [|exact Herr].
    destruct (on_text client_id loads h) as [e|h'] eqn:E; [exact Herr|].
    exact (pending_known_on_text _ _ _ _ E Hk).
  - destruct (ConnectionManager.active_connections (manager h) !! cid)
      as [websocket|] eqn:E.
    + rewrite (send_screenshot_suspends h cid chat env websocket E).
      intros cid' f' Hf'. cbn in Hf' |- *. rewrite lookup_insert_is_Some.
      destruct (decide (cid = cid')) as [->|Hne].
      * rewrite lookup_insert_eq in Hf'. injection Hf' as <-. auto.
      * rewrite lookup_insert_ne in Hf' by assumption.
        destruct (decide (fresh (dom (futures h)) = f')); eauto.
    + unfold send_screenshot, bot_send_message. rewrite E. cbn [snd].
      apply (pending_known_ext h); [reflexivity..|exact Hk].
  - destruct (waiters h !! f) as [[cid chat timeout]|] eqn:E.
    + destruct (send_screenshot_wakes_tables f env h cid chat timeout E)
        as (_ & Hp' & Hf').
      intros cid' f' Hin. rewrite Hp' in Hin.
      apply lookup_delete_Some in Hin as [_ Hin]. apply Hk in Hin.
      destruct Hf' as [-> | ->]; [exact Hin|].
      rewrite lookup_insert_is_Some. destruct (decide (f = f')); eauto.
    + unfold send_screenshot_wakes. rewrite E. exact Hk.
  - intros cid f Hf. cbn in Hf. rewrite lookup_empty in Hf. discriminate.
Qed.

Lemma pending_known_steps es : forall h,
  pending_known h -> pending_known (steps h es).
Proof.
  induction es as [|e es IH]; intros h Hk; [exact Hk|].
  cbn [steps foldl]. apply IH, pending_known_step, Hk.
Qed.

Lemma pending_known_start file : pending_known (start file).
Proof. intros cid f Hf. cbn in Hf. rewrite lookup_empty in Hf. discriminate. Qed.

(** What a received text does to the futures. *)
Lemma on_text_cases client_id loads h h' :
  on_text client_id loads h = inr h' ->
  h' = h \/
  exists message future v,
    loads = Some message /\ is_screenshot_reply message = true /\
    screenshot_pending h !! client_id = Some future /\
    h' = set_futures (<[future := Done v]> (futures h)) h.
Proof.
  unfold on_text. intros Ht.
  destruct loads as [message|]; [|injection Ht as <-; auto].
  destruct message as [| | | | |fields];
    try (cbn in Ht; discriminate).
  rewrite dict_get_object in Ht. unfold is_screenshot_reply.
  destruct (eq_str _ "screenshot" && items_mem "image" fields) eqn:Er;
    [|injection Ht as <-; auto].
  destruct (screenshot_pending h !! client_id) as [future|] eqn:E;
    [|injection Ht as <-; auto].
  unfold set_result in Ht.
  destruct (futures h !! future) as [[| |]|]; try discriminate.
  injection Ht as <-. right. do 3 eexists. repeat split; eauto.
Qed.

Lemma waiting_for_ext client_id future wt h h' :
  futures h' = futures h -> waiters h' = waiters h ->
  screenshot_pending h' = screenshot_pending h ->
  waiting_for client_id future wt h -> waiting_for client_id future wt h'.
Proof. unfold waiting_for. intros -> -> ->. auto. Qed.

(** Without a reply of its agent, a suspended call stays suspended and its
    future stays without a result. *)
Lemma waiting_for_step client_id future wt h e :
  no_reply client_id future h e ->
  waiting_for client_id future wt h ->
  waiting_for client_id future wt (step h e).
Proof.
  intros He Hp. destruct e as [ws n now|ws r now|cid chat env|f env|];
    cbn [step]; cbn in He; [| | | |contradiction].
  - rewrite websocket_endpoint_run.
    apply (waiting_for_ext _ _ _ h); [reflexivity..|exact Hp].
  - unfold websocket_endpoint_turn.
    destruct (endpoints h !! ws) as [client_id'|] eqn:Ee; [|exact Hp].
    assert (Herr : waiting_for client_id future wt
                     (on_endpoint_error ws client_id' now h))
      by (apply (waiting_for_ext _ _ _ h); [reflexivity..|exact Hp]).
    destruct r as [loads|e]; [|exact Herr].
    destruct (on_text client_id' loads h) as [e|h'] eqn:E; [exact Herr|].
    apply on_text_cases in E as [->|(message & f & v & -> & Hr & Hf & ->)];
      [exact Hp|].
    destruct Hp as (Hfut & Hw & Hn).
    assert (Hne : f <> future).
    { intros ->. apply Hn in Hf. subst client_id'.
      rewrite (He eq_refl) in Hr. discriminate. }
    repeat split; cbn; [rewrite lookup_insert_ne by assumption|..]; assumption.
  - destruct (ConnectionManager.active_connections (manager h) !! cid)
      as [websocket|] eqn:E.
    + rewrite (send_screenshot_suspends h cid chat env websocket E).
      destruct Hp as (Hf & Hw & Hn). cbn [snd].
      assert (Hfresh : fresh (dom (futures h)) <> future).
      { intros Heq. apply (is_fresh (dom (futures h))). rewrite Heq.
        apply elem_of_dom. eauto. }
      repeat split; cbn; rewrite ?lookup_insert_ne by assumption; try assumption.
      intros cid'. destruct (decide (cid = cid')) as [->|Hne].
      * rewrite lookup_insert_eq. congruence.
      * rewrite lookup_insert_ne by assumption. apply Hn.
    + unfold send_screenshot, bot_send_message. rewrite E. cbn [snd].
      apply (waiting_for_ext _ _ _ h); [reflexivity..|exact Hp].
  - destruct (waiters h !! f) as [[cid chat timeout]|] eqn:E.
    + destruct (send_screenshot_wakes_tables f env h cid chat timeout E)
        as (Hw' & Hp' & Hf').
      destruct Hp as (Hf & Hw & Hn). repeat split.
      * destruct Hf' as [-> | ->]; [exact Hf|].
        rewrite lookup_insert_ne by assumption. exact Hf.
      * rewrite Hw', lookup_delete_ne by assumption. exact Hw.
      * intros cid'. rewrite Hp'. intros Hin.
        apply lookup_delete_Some in Hin as [_ Hin]. apply Hn, Hin.
    + unfold send_screenshot_wakes. rewrite E. exact Hp.
Qed.

Lemma waiting_for_steps client_id future wt es : forall h,
  no_replies client_id future h es ->
  waiting_for client_id future wt h ->
  waiting_for client_id future wt (steps h es).
Proof.
  induction es as [|e es IH]; intros h Hes Hp; [exact Hp|].
  destruct Hes as [He Hes]. cbn [steps foldl].
  apply IH; [exact Hes|]. apply waiting_for_step; assumption.
Qed.

(** C3.  A screenshot request for a connected agent registers a pending
    future for the agent and suspends with a deadline of 10 seconds.  If
    then no screenshot reply of that agent is received, whatever else
    happens to the hub, the future is still pending when the deadline wakes
    the call: the caller is sent the timeout message, which is neither the
    offline nor the error message, the call returns [False] (or passes on
    what sending that message raised), and the entry of the agent is gone
    from the pending table.  The entry is gone on every way out of the wait,
    in whatever state the hub is by then and whatever Telegram and the
    decoder do. *)
Theorem screenshot_timeout_and_cleanup file history client_id chat_id env
    websocket :
  let h := steps (start file) history in
  ConnectionManager.active_connections (manager h) !! client_id = Some websocket ->
  let future := fresh (dom (futures h)) in
  let h1 := (send_screenshot client_id chat_id env h).2 in
  let wt := Waiter client_id chat_id SCREENSHOT_TIMEOUT in
  (SCREENSHOT_TIMEOUT == 10)%Q /\
  (send_screenshot client_id chat_id env h).1 = None /\
  screenshot_pending h1 !! client_id = Some future /\
  futures h1 !! future = Some Pending /\
  waiters h1 !! future = Some wt /\
  (forall es env',
     no_replies client_id future h1 es ->
     let h2 := steps h1 es in
     let r := send_screenshot_wakes future env' h2 in
     r.1 = Some (match message_failure env' with
                 | Some e => Raised e
                 | None => Returned false
                 end) /\
     sent r.2 = (sent h2 ++ [BotSendMessage chat_id (TimeoutText client_id)])%list /\
     TimeoutText client_id <> OfflineText client_id /\
     (forall e, TimeoutText client_id <> ErrorText e) /\
     screenshot_pending r.2 !! client_id = None) /\
  (forall h2 env',
     waiters h2 !! future = Some wt ->
     screenshot_pending (send_screenshot_wakes future env' h2).2 !! client_id
       = None).
Proof.
  intros h H future h1 wt.
  assert (Hk : pending_known h)
    by apply pending_known_steps, pending_known_start.
  assert (Hh1 : h1 =
    Hub (db h) (manager h) (<[client_id := future]> (screenshot_pending h))
        (<[future := Pending]> (futures h)) (endpoints h)
        (<[future := wt]> (waiters h))
        (sent h ++ [WsSendJson websocket
                      (JObj [("type", JStr "screenshot_request")])])).
  { subst h1. rewrite (send_screenshot_suspends h _ _ _ websocket H).
    reflexivity. }
  assert (Hp : waiting_for client_id future wt h1).
  { rewrite Hh1. repeat split; cbn; try apply lookup_insert_eq.
    intros cid Hin. destruct (decide (client_id = cid)) as [|Hne]; [auto|].
    rewrite lookup_insert_ne in Hin by assumption. exfalso.
    apply (is_fresh (dom (futures h))). fold future.
    apply elem_of_dom. exact (Hk _ _ Hin). }
  split; [reflexivity|].
  split; [subst h1; rewrite (send_screenshot_suspends h _ _ _ websocket H);
          reflexivity|].
  split; [rewrite Hh1; apply lookup_insert_eq|].
  split; [apply Hp|]. split; [apply Hp|]. split.
  - intros es env' Hes h2 r.
    destruct (waiting_for_steps client_id future wt es h1 Hes Hp)
      as (Hf & Hw & _). fold h2 in Hf, Hw.
    destruct (send_screenshot_wakes_timeout future env' h2 _ _ _ Hw Hf)
      as (Hr & Hs & _).
    split; [exact Hr|]. split; [exact Hs|]. split; [discriminate|].
    split; [intros e; discriminate|].
    eapply send_screenshot_wakes_clears, Hw.
  - intros h2 env' Hw. eapply send_screenshot_wakes_clears, Hw.
Qed.

Lemma screenshot_timeout_and_cleanup_witness :
  let h := steps (start init_db) [Connects 1 "desk-1" 0] in
  ConnectionManager.active_connections (manager h) !! 1%Z = Some 1%nat /\
  let h1 := (send_screenshot 1 77 telegram_up h).2 in
  let ack := Text (Some (JObj [("type", JStr "ack");
                               ("command", JStr "screenshot_request")])) in
  no_replies 1 (fresh (dom (futures h))) h1 [Receives 1 ack 5] /\
  let h2 := steps h1 [Receives 1 ack 5] in
  let r := send_screenshot_wakes (fresh (dom (futures h))) telegram_up h2 in
  r.1 = Some (Returned false) /\
  sent r.2 = (sent h2 ++ [BotSendMessage 77 (TimeoutText 1)])%list /\
  screenshot_pending r.2 !! 1%Z = None.
Proof.
  intros h.
  assert (Hc : ConnectionManager.active_connections (manager h) !! 1%Z
               = Some 1%nat) by reflexivity.
  split; [exact Hc|]. intros h1 ack.
  assert (Hn : no_replies 1 (fresh (dom (futures h))) h1 [Receives 1 ack 5]).
  { split; [intros _; reflexivity|exact I]. }
  split; [exact Hn|]. intros h2 r.
  destruct (screenshot_timeout_and_cleanup init_db [Connects 1 "desk-1" 0]
              1 77 telegram_up 1%nat Hc)
    as (_ & _ & _ & _ & _ & Hall & _).
  destruct (Hall [Receives 1 ack 5] telegram_up Hn) as (Hr & Hs & _ & _ & Hp).
  repeat split; assumption.
Defined.

(** C10.  A second screenshot request for an agent, made while the first
    one waits, creates another future and puts it in the place of the first
    in the pending table.  From then on no event gives the first future a
    result: whatever is received, requested or woken, it is still pending
    and its caller still waits, until its own deadline wakes it, and then
    it gets the timeout.  Whichever of the two calls ends first removes the
    one entry of the agent from the pending table. *)
Theorem overlapping_screenshots file history client_id chat1 chat2
    env1 env2 websocket :
  let h := steps (start file) history in
  ConnectionManager.active_connections (manager h) !! client_id = Some websocket ->
  let f1 := fresh (dom (futures h)) in
  let h1 := (send_screenshot client_id chat1 env1 h).2 in
  let f2 := fresh (dom (futures h1)) in
  let h2 := (send_screenshot client_id chat2 env2 h1).2 in
  let w1 := Waiter client_id chat1 SCREENSHOT_TIMEOUT in
  f1 <> f2 /\
  screenshot_pending h1 !! client_id = Some f1 /\
  screenshot_pending h2 !! client_id = Some f2 /\
  waiters h2 !! f1 = Some w1 /\
  waiters h2 !! f2 = Some (Waiter client_id chat2 SCREENSHOT_TIMEOUT) /\
  (forall es, Forall (leaves_waiting f1) es ->
     futures (steps h2 es) !! f1 = Some Pending /\
     waiters (steps h2 es) !! f1 = Some w1 /\
     forall env,
       (send_screenshot_wakes f1 env (steps h2 es)).1 =
         Some (match message_failure env with
               | Some e => Raised e
               | None => Returned false
               end) /\
       sent (send_screenshot_wakes f1 env (steps h2 es)).2 =
         (sent (steps h2 es) ++ [BotSendMessage chat1 (TimeoutText client_id)])%list) /\
  (forall env,
     screenshot_pending (send_screenshot_wakes f1 env h2).2 !! client_id = None) /\
  (forall env,
     screenshot_pending (send_screenshot_wakes f2 env h2).2 !! client_id = None).
Proof.
  intros h H f1 h1 f2 h2 w1.
  assert (Hk : pending_known h)
    by apply pending_known_steps, pending_known_start.
  assert (Hh1 : h1 =
    Hub (db h) (manager h) (<[client_id := f1]> (screenshot_pending h))
        (<[f1 := Pending]> (futures h)) (endpoints h)
        (<[f1 := w1]> (waiters h))
        (sent h ++ [WsSendJson websocket
                      (JObj [("type", JStr "screenshot_request")])])).
  { subst h1. rewrite (send_screenshot_suspends h _ _ _ websocket H).
    reflexivity. }
  assert (H1 : ConnectionManager.active_connections (manager h1) !! client_id
               = Some websocket) by (rewrite Hh1; exact H).
  assert (Hh2 : h2 =
    Hub (db h1) (manager h1) (<[client_id := f2]> (screenshot_pending h1))
        (<[f2 := Pending]> (futures h1)) (endpoints h1)
        (<[f2 := Waiter client_id chat2 SCREENSHOT_TIMEOUT]> (waiters h1))
        (sent h1 ++ [WsSendJson websocket
                       (JObj [("type", JStr "screenshot_request")])])).
  { subst h2. rewrite (send_screenshot_suspends h1 _ _ _ websocket H1).
    reflexivity. }
  assert (Hne : f1 <> f2).
  { intros Heq. apply (is_fresh (dom (futures h1))). fold f2. rewrite <- Heq.
    apply elem_of_dom. rewrite Hh1. cbn [futures].
    rewrite lookup_insert_eq. eauto. }
  assert (Hw1 : waiters h2 !! f1 = Some w1).
  { rewrite Hh2. cbn [waiters]. rewrite lookup_insert_ne by congruence.
    rewrite Hh1. cbn [waiters]. apply lookup_insert_eq. }
  assert (Hw2 : waiters h2 !! f2 =
                Some (Waiter client_id chat2 SCREENSHOT_TIMEOUT)).
  { rewrite Hh2. cbn [waiters]. apply lookup_insert_eq. }
  assert (Hp : parked f1 w1 h2).
  { split; [|split; [exact Hw1|]].
    - rewrite Hh2. cbn [futures]. rewrite lookup_insert_ne by congruence.
      rewrite Hh1. cbn [futures]. apply lookup_insert_eq.
    - intros cid. rewrite Hh2. cbn [screenshot_pending].
      destruct (decide (client_id = cid)) as [->|Hc].
      + rewrite lookup_insert_eq. congruence.
      + rewrite lookup_insert_ne by assumption. rewrite Hh1.
        cbn [screenshot_pending]. rewrite lookup_insert_ne by assumption.
        intros Hin. apply (is_fresh (dom (futures h))). fold f1.
        apply elem_of_dom. exact (Hk _ _ Hin). }
  split; [exact Hne|].
  split; [rewrite Hh1; cbn [screenshot_pending]; apply lookup_insert_eq|].
  split; [rewrite Hh2; cbn [screenshot_pending]; apply lookup_insert_eq|].
  split; [exact Hw1|]. split; [exact Hw2|]. split; [|split].
  - intros es Hes.
    destruct (parked_steps f1 w1 es h2 Hes Hp) as (Hf & Hw & _).
    split; [exact Hf|]. split; [exact Hw|]. intros env.
    destruct (send_screenshot_wakes_timeout f1 env (steps h2 es) _ _ _ Hw Hf)
      as (Hr & Hs & _).
    split; assumption.
  - intros env. eapply send_screenshot_wakes_clears, Hw1.
  - intros env. eapply send_screenshot_wakes_clears, Hw2.
Qed.

Lemma overlapping_screenshots_witness :
  let h := steps (start init_db) [Connects 1 "desk-1" 0] in
  ConnectionManager.active_connections (manager h) !! 1%Z = Some 1%nat /\
  let h1 := (send_screenshot 1 77 telegram_up h).2 in
  let h2 := (send_screenshot 1 78 telegram_up h1).2 in
  fresh (dom (futures h)) <> fresh (dom (futures h1)) /\
  screenshot_pending h2 !! 1%Z = Some (fresh (dom (futures h1))).
Proof.
  intros h.
  assert (Hc : ConnectionManager.active_connections (manager h) !! 1%Z
               = Some 1%nat) by reflexivity.
  split; [exact Hc|]. intros h1 h2.
  destruct (overlapping_screenshots init_db [Connects 1 "desk-1" 0]
              1 77 78 telegram_up telegram_up 1%nat Hc)
    as (Hne & _ & H2 & _).
  split; [exact Hne|exact H2].
Defined.

(** The scenario run: the reply to the second request comes after the
    first request timed out and took the entry away, and is dropped. *)
Example two_requests_one_entry :
  let reply := Text (Some (JObj [("type", JStr "screenshot");
                                 ("image", JStr "/9j/")])) in
  let h := steps (start init_db)
             [ Connects 1 "desk-1" 0;
               Screenshot 1 77 telegram_up;
               Screenshot 1 78 telegram_up;
               Wakes 0 telegram_up;
               Receives 1 reply 3 ] in
  futures h !! 0%nat = Some FutureCancelled /\
  futures h !! 1%nat = Some Pending /\
  screenshot_pending h !! 1%Z = None /\
  sent h = [ WsAccept 1;
             WsSendJson 1 (JObj [("type", JStr "screenshot_request")]);
             WsSendJson 1 (JObj [("type", JStr "screenshot_request")]);
             BotSendMessage 77 (TimeoutText 1) ].
Proof. vm_compute. repeat split. Qed.

End HubScreenshots.

(* ===================================================================== *)
(** * The directory *)
(* ===================================================================== *)

Section Directory.
Import Database DatabaseView ServerView.

Lemma select_by_name_Some n rs r :
  select_by_name n rs = Some r -> r ∈ rs /\ name r = n.
Proof.
  induction rs as [|r' rs IH]; [discriminate|]. cbn.
  destruct (String.eqb_spec (name r') n) as [Heq|Hne].
  - intros [= ->]. split; [left|exact Heq].
  - intros H. destruct (IH H). split; [right|]; assumption.
Qed.

Lemma select_by_name_None n rs :
  select_by_name n rs = None -> n ∉ map name rs.
Proof.
  induction rs as [|r' rs IH]; cbn; [intros _; apply not_elem_of_nil|].
  destruct (String.eqb_spec (name r') n) as [Heq|Hne]; [discriminate|].
  intros H. apply not_elem_of_cons. split; [congruence|apply IH, H].
Qed.

Lemma select_by_id_Some i rs r :
  select_by_id i rs = Some r -> r ∈ rs /\ id r = i.
Proof.
  induction rs as [|r' rs IH]; [discriminate|]. cbn.
  destruct (Z.eqb_spec (id r') i) as [Heq|Hne].
  - intros [= ->]. split; [left|exact Heq].
  - intros H. destruct (IH H). split; [right|]; assumption.
Qed.

Lemma select_by_id_None i rs : select_by_id i rs = None -> i ∉ map id rs.
Proof.
  induction rs as [|r' rs IH]; cbn; [intros _; apply not_elem_of_nil|].
  destruct (Z.eqb_spec (id r') i) as [Heq|Hne]; [discriminate|].
  intros H. apply not_elem_of_cons. split; [congruence|apply IH, H].
Qed.

(** In a list of rows with distinct ids, a row is found under its id. *)
Lemma select_by_id_elem rs r :
  NoDup (map id rs) -> r ∈ rs -> select_by_id (id r) rs = Some r.
Proof.
  induction rs as [|r' rs IH]; intros Hnd Hin; [inversion Hin|].
  cbn in Hnd |- *. apply NoDup_cons in Hnd as [Hr' Hnd].
  apply elem_of_cons in Hin as [->|Hin]; [rewrite Z.eqb_refl; reflexivity|].
  destruct (Z.eqb_spec (id r') (id r)) as [Heq|Hne]; [|auto].
  exfalso. apply Hr'. rewrite Heq. apply list_elem_of_fmap. eauto.
Qed.

Lemma select_by_name_elem rs r :
  NoDup (map name rs) -> r ∈ rs -> select_by_name (name r) rs = Some r.
Proof.
  induction rs as [|r' rs IH]; intros Hnd Hin; [inversion Hin|].
  cbn in Hnd |- *. apply NoDup_cons in Hnd as [Hr' Hnd].
  apply elem_of_cons in Hin as [->|Hin]; [rewrite String.eqb_refl; reflexivity|].
  destruct (String.eqb_spec (name r') (name r)) as [Heq|Hne]; [|auto].
  exfalso. apply Hr'. rewrite Heq. apply list_elem_of_fmap. eauto.
Qed.

Lemma map_name_touch cid s now rs :
  map name (map (touch cid s now) rs) = map name rs.
Proof.
  rewrite map_map. apply map_ext. intros r. apply name_touch.
Qed.

Lemma map_id_touch cid s now rs :
  map id (map (touch cid s now) rs) = map id rs.
Proof.
  rewrite map_map. apply map_ext. intros r. apply id_touch.
Qed.

Lemma well_formed_init_db : well_formed init_db.
Proof. repeat split; constructor. Qed.

Lemma well_formed_get_or_create_client n now t :
  well_formed t -> well_formed (get_or_create_client n now t).2.
Proof.
  intros (Hn & Hi & Hs). unfold get_or_create_client.
  destruct (select_by_name n (rows t)) as [row|] eqn:E; cbn [snd];
    [repeat split; assumption|].
  repeat split; cbn [rows sequence].
  - rewrite map_app. apply NoDup_app. split; [exact Hn|]. split.
    + intros x Hx Hx'. cbn in Hx'. apply list_elem_of_singleton in Hx'.
      subst x. exact (select_by_name_None _ _ E Hx).
    + cbn. apply NoDup_singleton.
  - rewrite map_app. apply NoDup_app. split; [exact Hi|]. split.
    + intros x Hx Hx'. cbn in Hx'. apply list_elem_of_singleton in Hx'.
      subst x. apply list_elem_of_fmap in Hx as (r & Hr & Hin).
      rewrite Forall_forall in Hs. specialize (Hs r Hin). lia.
    + cbn. apply NoDup_singleton.
  - apply Forall_app. split.
    + eapply Forall_impl; [exact Hs|]. cbn. intros. lia.
    + repeat constructor. cbn. lia.
Qed.

Lemma well_formed_update_client_status cid s now t :
  well_formed t -> well_formed (update_client_status cid s now t).
Proof.
  intros (Hn & Hi & Hs). repeat split.
  - rewrite rows_update_client_status, map_name_touch. exact Hn.
  - rewrite rows_update_client_status, map_id_touch. exact Hi.
  - rewrite rows_update_client_status. cbn [sequence update_client_status].
    apply Forall_fmap. eapply Forall_impl; [exact Hs|].
    intros r Hr. cbn. rewrite id_touch. exact Hr.
Qed.

Lemma NoDup_map_filter {A B} (f : A -> B) (p : A -> bool) l :
  NoDup (map f l) -> NoDup (map f (List.filter p l)).
Proof.
  induction l as [|a l IH]; cbn; [auto|]. intros Hnd.
  apply NoDup_cons in Hnd as [Ha Hnd]. destruct (p a); cbn; [|auto].
  apply NoDup_cons. split; [|auto]. intros Hin. apply Ha.
  apply list_elem_of_fmap in Hin as (x & -> & Hx).
  apply list_elem_of_In, List.filter_In in Hx as [Hx _].
  apply list_elem_of_fmap. exists x. split; [reflexivity|].
  apply list_elem_of_In, Hx.
Qed.

Lemma well_formed_delete_client cid t :
  well_formed t -> well_formed (delete_client cid t).
Proof.
  intros (Hn & Hi & Hs). repeat split; cbn [rows sequence delete_client].
  - apply NoDup_map_filter, Hn.
  - apply NoDup_map_filter, Hi.
  - rewrite Forall_forall in Hs |- *. intros r Hr.
    apply list_elem_of_In, List.filter_In in Hr as [Hr _].
    apply Hs, list_elem_of_In, Hr.
Qed.

Lemma well_formed_apply t o : well_formed t -> well_formed (apply t o).
Proof.
  destruct o; cbn.
  - apply well_formed_get_or_create_client.
  - apply well_formed_update_client_status.
  - apply well_formed_delete_client.
Qed.

(** X1.  Whatever is created, updated and deleted, starting from an empty
    database, the table has one row for a name and one row for an id, and
    the two lookups agree: the row found under a name is the row found
    under its id. *)
Theorem directory_one_row_per_name os :
  let t := applies init_db os in
  NoDup (map name (rows t)) /\
  NoDup (map id (rows t)) /\
  forall n c, get_client_by_name n t = Some c ->
              name c = n /\ get_client_by_id (id c) t = Some c.
Proof.
  intros t.
  assert (Hwf : well_formed t).
  { subst t. generalize init_db, well_formed_init_db.
    induction os as [|o os IH]; intros t0 H0; [exact H0|].
    cbn. apply IH, well_formed_apply, H0. }
  destruct Hwf as (Hn & Hi & _). split; [exact Hn|]. split; [exact Hi|].
  intros n c Hc. apply select_by_name_Some in Hc as [Hin Hname].
  split; [exact Hname|]. apply select_by_id_elem; assumption.
Qed.

Lemma select_by_id_touch i cid s now rs :
  select_by_id i (map (touch cid s now) rs) =
  touch cid s now <$> select_by_id i rs.
Proof.
  induction rs as [|r rs IH]; [reflexivity|]. cbn [map select_by_id].
  rewrite id_touch. destruct (id r =? i)%Z; [reflexivity|exact IH].
Qed.

Lemma touch_other cid s now r : id r <> cid -> touch cid s now r = r.
Proof.
  intros H. unfold touch. destruct (Z.eqb_spec (id r) cid); [contradiction|].
  reflexivity.
Qed.

(** X2.  [update_client_status] seen through [get_client_by_id]: the row
    of the id has the new status and time and keeps its id and name, every
    other row is as before, and for an id that is not in the table nothing
    changes at all. *)
Theorem update_client_status_lookup t client_id s now :
  (forall i, get_client_by_id i (update_client_status client_id s now t) =
             touch client_id s now <$> get_client_by_id i t) /\
  (forall c, get_client_by_id client_id t = Some c ->
     get_client_by_id client_id (update_client_status client_id s now t) =
       Some (mkClient client_id (name c) s (Some now))) /\
  (forall i, i <> client_id ->
     get_client_by_id i (update_client_status client_id s now t) =
     get_client_by_id i t) /\
  (get_client_by_id client_id t = None ->
   update_client_status client_id s now t = t).
Proof.
  assert (Hl : forall i,
    get_client_by_id i (update_client_status client_id s now t) =
    touch client_id s now <$> get_client_by_id i t).
  { intros i. unfold get_client_by_id.
    rewrite rows_update_client_status. apply select_by_id_touch. }
  split; [exact Hl|]. split; [|split].
  - intros c Hc. rewrite Hl, Hc. cbn.
    apply select_by_id_Some in Hc as [_ Hid]. unfold touch.
    rewrite Hid, Z.eqb_refl. reflexivity.
  - intros i Hne. rewrite Hl. destruct (get_client_by_id i t) as [c|] eqn:E;
      [|reflexivity].
    apply select_by_id_Some in E as [_ Hid]. cbn.
    rewrite touch_other by congruence. reflexivity.
  - intros Hnone. apply select_by_id_None in Hnone.
    clear Hl. destruct t as [rs sq]. unfold update_client_status.
    cbn in Hnone |- *. f_equal. induction rs as [|r rs IH]; [reflexivity|]. cbn in Hnone |- *.
    apply not_elem_of_cons in Hnone as [Hr Hrs].
    destruct (Z.eqb_spec (id r) client_id); [congruence|].
    f_equal. apply IH, Hrs.
Qed.

Lemma select_by_name_filter_kept n p rs r :
  select_by_name n rs = Some r -> p r = true ->
  select_by_name n (List.filter p rs) = Some r.
Proof.
  induction rs as [|r' rs IH]; [discriminate|]. cbn.
  destruct (String.eqb (name r') n) eqn:E.
  - intros [= ->] Hp. rewrite Hp. cbn. rewrite E. reflexivity.
  - intros H Hp. destruct (p r'); cbn; [rewrite E|]; auto.
Qed.

(** A name keeps its id through every write but the deletion of that id. *)
Lemma id_of_apply n t o r :
  select_by_name n (rows t) = Some r ->
  o <> Delete (id r) ->
  exists r', select_by_name n (rows (apply t o)) = Some r' /\ id r' = id r.
Proof.
  intros Hr Ho. destruct o as [n' now|cid s now|cid]; cbn [apply].
  - unfold get_or_create_client.
    destruct (select_by_name n' (rows t)); cbn [snd rows]; [eauto|].
    rewrite select_by_name_app, Hr. eauto.
  - rewrite rows_update_client_status, select_by_name_touch, Hr. cbn.
    eexists. split; [reflexivity|apply id_touch].
  - exists r. split; [|reflexivity]. cbn [rows delete_client].
    apply select_by_name_filter_kept; [exact Hr|].
    destruct (Z.eqb_spec (id r) cid); [congruence|reflexivity].
Qed.

(** X3.  The id of a name is stable: once [get_or_create_client] has
    answered for a name, any later call for that name, after any writes
    that do not delete that id, answers with the same id and writes
    nothing. *)
Theorem get_or_create_client_stable t n now os now' :
  let first := get_or_create_client n now t in
  Forall (fun o => o <> Delete (id first.1)) os ->
  let t' := applies first.2 os in
  id (get_or_create_client n now' t').1 = id first.1 /\
  name (get_or_create_client n now' t').1 = n /\
  (get_or_create_client n now' t').2 = t'.
Proof.
  intros first Hos t'.
  assert (H1 : exists r, select_by_name n (rows first.2) = Some r /\
                         id r = id first.1).
  { subst first. unfold get_or_create_client.
    destruct (select_by_name n (rows t)) as [row|] eqn:E; cbn [fst snd rows].
    - eauto.
    - rewrite select_by_name_app, E. cbn. rewrite String.eqb_refl. eauto. }
  assert (H2 : exists r, select_by_name n (rows t') = Some r /\
                         id r = id first.1).
  { subst t'. revert H1 Hos. generalize (id first.1) as i.
    generalize first.2 as t0. induction os as [|o os IH];
      intros t0 i H1 Hos; [exact H1|].
    inversion Hos as [|? ? Ho Hos']; subst. cbn. apply IH; [|exact Hos'].
    destruct H1 as (r & Hr & Hid).
    destruct (id_of_apply n t0 o r Hr) as (r' & Hr' & Hid');
      [congruence|]. exists r'. split; [exact Hr'|congruence]. }
  destruct H2 as (r & Hr & Hid). unfold get_or_create_client. rewrite Hr.
  cbn. apply select_by_name_Some in Hr as [_ Hn]. auto.
Qed.

Lemma get_or_create_client_stable_witness :
  let t := (get_or_create_client "desk-1" 0 init_db).2 in
  Forall (fun o => o <> Delete 1)
         [UpdateStatus 1 ONLINE 1; GetOrCreate "desk-2" 2; Delete 2] /\
  id (get_or_create_client "desk-1" 3
        (applies t [UpdateStatus 1 ONLINE 1; GetOrCreate "desk-2" 2;
                    Delete 2])).1 = 1%Z.
Proof.
  intros t.
  assert (H : Forall (fun o => o <> Delete 1)
                [UpdateStatus 1 ONLINE 1; GetOrCreate "desk-2" 2; Delete 2])
    by (repeat constructor; discriminate).
  split; [exact H|].
  apply (get_or_create_client_stable init_db "desk-1" 0 _ 3 H).
Defined.

Lemma select_by_name_filter_gone n cid rs r :
  NoDup (map name rs) -> select_by_name n rs = Some r -> id r = cid ->
  select_by_name n
    (List.filter (fun r => negb (id r =? cid)%Z) rs) = None.
Proof.
  induction rs as [|r' rs IH]; [discriminate|]. cbn. intros Hnd.
  apply NoDup_cons in Hnd as [Hr' Hnd].
  destruct (String.eqb_spec (name r') n) as [Heq|Hne].
  - intros [= ->] Hid. rewrite Hid, Z.eqb_refl. cbn.
    destruct (select_by_name n (List.filter _ rs)) as [x|] eqn:E; [|reflexivity].
    exfalso. apply select_by_name_Some in E as [Hin Hx]. apply Hr'.
    rewrite Heq, <- Hx. apply list_elem_of_fmap. exists x.
    split; [reflexivity|].
    apply list_elem_of_In. apply list_elem_of_In, List.filter_In in Hin as [Hin _].
    exact Hin.
  - intros H Hid. destruct (negb (id r' =? cid)%Z); cbn;
      [destruct (String.eqb_spec (name r') n); [contradiction|]|]; auto.
Qed.

Lemma select_by_id_filter i cid rs :
  select_by_id i (List.filter (fun r => negb (id r =? cid)%Z) rs) =
  if (i =? cid)%Z then None else select_by_id i rs.
Proof.
  induction rs as [|r rs IH]; cbn; [destruct (i =? cid)%Z; reflexivity|].
  destruct (Z.eqb_spec (id r) cid) as [Hc|Hc]; cbn.
  - rewrite IH. destruct (Z.eqb_spec i cid) as [Hi|Hi]; [reflexivity|].
    destruct (Z.eqb_spec (id r) i); [congruence|reflexivity].
  - destruct (Z.eqb_spec (id r) i) as [Hi|Hi].
    + destruct (Z.eqb_spec i cid); [congruence|reflexivity].
    + exact IH.
Qed.

(** X4.  [delete_client] removes the row of the id and no other: lookups
    of other ids are as before.  In a table built from an empty database,
    when the deleted row was the one of a name, a later
    [get_or_create_client] for that name makes a new row whose id is above
    every id the table held, the deleted one included: ids are not used
    again. *)
Theorem delete_client_lookup os client_id :
  let t := applies init_db os in
  get_client_by_id client_id (delete_client client_id t) = None /\
  (forall i, i <> client_id ->
     get_client_by_id i (delete_client client_id t) = get_client_by_id i t) /\
  (forall n c now,
     get_client_by_name n t = Some c -> id c = client_id ->
     let again := (get_or_create_client n now (delete_client client_id t)).1 in
     (client_id < id again)%Z /\
     Forall (fun r => (id r < id again)%Z) (rows t)).
Proof.
  intros t.
  assert (Hwf : well_formed t).
  { subst t. generalize init_db, well_formed_init_db.
    induction os as [|o os IH]; intros t0 H0; [exact H0|].
    cbn. apply IH, well_formed_apply, H0. }
  destruct Hwf as (Hn & Hi & Hs).
  assert (Hl : forall i, get_client_by_id i (delete_client client_id t) =
                         if (i =? client_id)%Z then None else get_client_by_id i t).
  { intros i. apply select_by_id_filter. }
  split; [rewrite Hl, Z.eqb_refl; reflexivity|]. split.
  - intros i Hne. rewrite Hl. destruct (Z.eqb_spec i client_id); [congruence|].
    reflexivity.
  - intros n c now Hc Hid again. subst again.
    unfold get_or_create_client. cbn [rows delete_client sequence].
    unfold get_client_by_name in Hc.
    rewrite (select_by_name_filter_gone n client_id (rows t) c Hn Hc Hid).
    cbn [fst id]. split.
    + apply select_by_name_Some in Hc as [Hin _].
      rewrite Forall_forall in Hs. specialize (Hs c Hin). lia.
    + eapply Forall_impl; [exact Hs|]. cbn. intros. lia.
Qed.

End Directory.

(* ===================================================================== *)
(** * The hub: the connection manager *)
(* ===================================================================== *)

Section Manager.
Import Py Database Server ServerView.
Import ConnectionManager.

(** X5.  [disconnect] forgets the id and nothing else: afterwards the id
    has no connection and no name leads to it, the connections of other
    ids and the names of other ids are as before, and disconnecting the id
    once more changes nothing. *)
Theorem disconnect_forgets_the_id m client_id :
  let m' := disconnect client_id m in
  active_connections m' !! client_id = None /\
  (forall n, name_to_id m' !! n <> Some client_id) /\
  (forall i, i <> client_id ->
     active_connections m' !! i = active_connections m !! i) /\
  (forall n i, i <> client_id ->
     (name_to_id m' !! n = Some i <-> name_to_id m !! n = Some i)) /\
  disconnect client_id m' = m'.
Proof.
  intros m'. subst m'. unfold disconnect.
  cbn [active_connections name_to_id].
  split; [apply lookup_delete_eq|]. split; [|split; [|split]].
  - intros n Hn. apply map_lookup_filter_Some in Hn as [_ Hn]. cbn in Hn.
    congruence.
  - intros i Hi. apply lookup_delete_ne. congruence.
  - intros n i Hi. rewrite map_lookup_filter_Some. cbn. intuition.
  - f_equal.
    + apply map_eq. intros i. destruct (decide (i = client_id)) as [->|Hi].
      * rewrite !lookup_delete_eq. reflexivity.
      * rewrite !lookup_delete_ne by congruence. reflexivity.
    + apply map_eq. intros n. apply option_eq. intros i.
      rewrite !map_lookup_filter_Some. intuition.
Qed.

(** X6.  [get_online_clients] lists a pair of an id and a name exactly
    when the name leads to the id and the id has a connection; so an agent
    is listed once it is registered, and no longer once its id is
    disconnected. *)
Theorem get_online_clients_lists m client_id n :
  ((client_id, n) ∈ get_online_clients m <->
   name_to_id m !! n = Some client_id /\
   is_Some (active_connections m !! client_id)) /\
  (forall websocket,
     (client_id, n) ∈ get_online_clients (register websocket n client_id m)) /\
  (forall n', (client_id, n') ∉ get_online_clients (disconnect client_id m)).
Proof.
  assert (Hl : forall m0 i n0,
    (i, n0) ∈ get_online_clients m0 <->
    name_to_id m0 !! n0 = Some i /\ is_Some (active_connections m0 !! i)).
  { intros m0 i n0. unfold get_online_clients. rewrite list_elem_of_omap. split.
    - intros ([n1 i1] & Hin & Hsome). apply elem_of_map_to_list in Hin.
      cbn in Hsome. destruct (active_connections m0 !! i1) eqn:E; [|discriminate].
      injection Hsome as <- <-. eauto.
    - intros [Hn [ws Hws]]. exists (n0, i). split.
      + apply elem_of_map_to_list, Hn.
      + cbn. rewrite Hws. reflexivity. }
  split; [apply Hl|]. split.
  - intros websocket. apply Hl. unfold register.
    cbn [active_connections name_to_id]. rewrite !lookup_insert_eq. eauto.
  - intros n' Hin. apply Hl in Hin as [_ [ws Hws]].
    unfold disconnect in Hws. cbn in Hws. rewrite lookup_delete_eq in Hws.
    discriminate.
Qed.

End Manager.

(* ===================================================================== *)
(** * The hub: what an endpoint receives *)
(* ===================================================================== *)

Section Inbound.
Import Py Database Server ServerView.

Lemma on_text_not_a_reply client_id message h :
  is_screenshot_reply message = false ->
  (exists fields, message = JObj fields) ->
  on_text client_id (Some message) h = inr h.
Proof.
  intros Hr [fields ->]. unfold on_text. rewrite dict_get_object.
  unfold is_screenshot_reply in Hr. rewrite Hr. reflexivity.
Qed.

(** X7.  A text that is no JSON, a JSON object that is no screenshot reply
    (an [ack], a [stream_frame], any other or no type), and a screenshot
    reply for which no request is pending leave the hub exactly as it was;
    the endpoint goes on receiving. *)
Theorem inbound_without_effect h websocket client_id loads now :
  endpoints h !! websocket = Some client_id ->
  loads = None \/
  (exists fields, loads = Some (JObj fields) /\
     (is_screenshot_reply (JObj fields) = false \/
      screenshot_pending h !! client_id = None)) ->
  websocket_endpoint_turn websocket (Text loads) now h = h.
Proof.
  intros He Hl. unfold websocket_endpoint_turn. rewrite He.
  destruct Hl as [->|(fields & -> & [Hr|Hp])]; [reflexivity| |].
  - rewrite on_text_not_a_reply; eauto.
  - unfold on_text. rewrite dict_get_object, Hp.
    destruct (eq_str _ "screenshot" && items_mem "image" fields); reflexivity.
Qed.

Lemma inbound_without_effect_witness :
  let h := steps (start init_db) [Connects 1 "desk-1" 0] in
  let ack := JObj [("type", JStr "ack"); ("command", JStr "type")] in
  endpoints h !! 1%nat = Some 1%Z /\
  websocket_endpoint_turn 1 (Text (Some ack)) 5 h = h.
Proof.
  intros h ack. split; [reflexivity|].
  apply (inbound_without_effect h 1%nat 1%Z (Some ack) 5 eq_refl).
  right. exists [("type", JStr "ack"); ("command", JStr "type")].
  split; [reflexivity|left; reflexivity].
Defined.

(** What the end of an endpoint leaves behind. *)
Lemma on_endpoint_error_effects websocket client_id now h :
  let h' := on_endpoint_error websocket client_id now h in
  ConnectionManager.active_connections (manager h') !! client_id = None /\
  endpoints h' !! websocket = None /\
  (forall c, c ∈ rows (db h') -> id c = client_id ->
             status c = OFFLINE /\ last_seen c = Some now) /\
  screenshot_pending h' = screenshot_pending h /\
  futures h' = futures h.
Proof.
  unfold on_endpoint_error.
  cbn [db manager endpoints screenshot_pending futures set_db set_manager
       set_endpoints ConnectionManager.disconnect
       ConnectionManager.active_connections].
  split; [apply lookup_delete_eq|].
  split; [apply lookup_delete_eq|]. split; [|auto].
  intros c Hc Hid. rewrite rows_update_client_status in Hc.
  apply list_elem_of_fmap in Hc as (c0 & -> & _).
  rewrite id_touch in Hid. unfold touch. rewrite Hid, Z.eqb_refl. auto.
Qed.

(** X8.  A JSON text that is not an object (a list, a number, a string,
    [null]) is not skipped like a text that is no JSON: [message.get]
    fails, and the endpoint ends as on a disconnect.  The route of the
    agent is removed, its directory row says [OFFLINE], and the
    coroutine is gone, while a request pending for the agent stays in the
    pending table. *)
Theorem non_object_text_ends_the_endpoint h websocket client_id message now :
  endpoints h !! websocket = Some client_id ->
  (forall fields, message <> JObj fields) ->
  let h' := websocket_endpoint_turn websocket (Text (Some message)) now h in
  ConnectionManager.active_connections (manager h') !! client_id = None /\
  endpoints h' !! websocket = None /\
  (forall c, c ∈ rows (db h') -> id c = client_id ->
             status c = OFFLINE /\ last_seen c = Some now) /\
  screenshot_pending h' = screenshot_pending h.
Proof.
  intros He Hm h'.
  assert (Hh' : h' = on_endpoint_error websocket client_id now h).
  { subst h'. unfold websocket_endpoint_turn. rewrite He.
    destruct message; try reflexivity. exfalso. eapply Hm. reflexivity. }
  rewrite Hh'.
  destruct (on_endpoint_error_effects websocket client_id now h)
    as (H1 & H2 & H3 & H4 & _). auto.
Qed.

Lemma non_object_text_ends_the_endpoint_witness :
  let h := steps (start init_db) [Connects 1 "desk-1" 0] in
  endpoints h !! 1%nat = Some 1%Z /\
  (forall fields, JArr [] <> JObj fields) /\
  ConnectionManager.active_connections
    (manager (websocket_endpoint_turn 1 (Text (Some (JArr []))) 5 h)) !! 1%Z
    = None.
Proof.
  intros h. split; [reflexivity|]. split; [discriminate|].
  apply (non_object_text_ends_the_endpoint h 1%nat 1%Z (JArr []) 5 eq_refl).
  discriminate.
Defined.

(** X9.  A screenshot reply that reaches a request whose future is no
    longer pending (it has its result from an earlier reply, or it was
    cancelled by its timeout and the entry is not yet cleared) makes
    [set_result] fail, and the endpoint ends as on a disconnect: the
    agent loses its route. *)
Theorem second_reply_ends_the_endpoint h websocket client_id fields future now :
  endpoints h !! websocket = Some client_id ->
  is_screenshot_reply (JObj fields) = true ->
  screenshot_pending h !! client_id = Some future ->
  futures h !! future <> Some Pending ->
  let h' := websocket_endpoint_turn websocket (Text (Some (JObj fields))) now h in
  h' = on_endpoint_error websocket client_id now h /\
  ConnectionManager.active_connections (manager h') !! client_id = None /\
  futures h' = futures h.
Proof.
  intros He Hr Hp Hf h'.
  assert (Hh' : h' = on_endpoint_error websocket client_id now h).
  { subst h'. unfold websocket_endpoint_turn. rewrite He.
    unfold on_text. rewrite dict_get_object.
    unfold is_screenshot_reply in Hr. rewrite Hr, Hp. unfold set_result.
    destruct (futures h !! future) as [[| |]|]; try reflexivity.
    contradiction. }
  split; [exact Hh'|]. rewrite Hh'.
  destruct (on_endpoint_error_effects websocket client_id now h)
    as (H1 & _ & _ & _ & H5). auto.
Qed.

Lemma second_reply_ends_the_endpoint_witness :
  let reply := [("type", JStr "screenshot"); ("image", JStr "/9j/")] in
  let h := steps (start init_db)
             [ Connects 1 "desk-1" 0; Screenshot 1 77 telegram_up;
               Receives 1 (Text (Some (JObj reply))) 1 ] in
  endpoints h !! 1%nat = Some 1%Z /\
  is_screenshot_reply (JObj reply) = true /\
  screenshot_pending h !! 1%Z = Some 0%nat /\
  futures h !! 0%nat <> Some Pending /\
  ConnectionManager.active_connections
    (manager (websocket_endpoint_turn 1 (Text (Some (JObj reply))) 2 h)) !! 1%Z
    = None.
Proof.
  intros reply h.
  assert (Hf : futures h !! 0%nat <> Some Pending) by (vm_compute; discriminate).
  split; [reflexivity|]. split; [reflexivity|]. split; [reflexivity|].
  split; [exact Hf|].
  apply (second_reply_ends_the_endpoint h 1%nat 1%Z reply 0%nat 2
           eq_refl eq_refl eq_refl Hf).
Defined.

End Inbound.

(* ===================================================================== *)
(** * Hub and client together *)
(* ===================================================================== *)

Section EndToEnd.
Import Py Database Server ServerView CommandView.

(** Unfolds the plumbing of the client's coroutines. *)
Ltac unroll :=
  unfold mbind, Client.M_bind, Client.bind, mret, Client.M_ret, Client.ret,
    Client.get, Client.modify, Client.ask, Client.try_except,
    Client.except_cancelled, Client.ext, Client.emit, Client.sleep,
    Client.raise, Client.lift, Client.after;
  cbn -[Client.typing_banner].

Lemma typing_banner_str text : Client.typing_banner (JStr text) = inr tt.
Proof.
  unfold Client.typing_banner, len.
  destruct (50 <? String.length text)%nat; reflexivity.
Qed.

(** The client's answer to a [screenshot_request] when the screen is
    grabbed. *)
Lemma screenshot_request_answer w c t conn b image :
  Client.ws c = Some conn ->
  Client.grab w t = Some (b :: image) ->
  Client.process_message (JObj [("type", JStr "screenshot_request")]) w c t =
  Client.Res (Client.Ret tt) c (S (S (S t)))
    [ Client.Grab;
      Client.WsSend (Client.image_envelope "screenshot" (b :: image));
      Client.WsSend (Client.ack_envelope "screenshot_request") ].
Proof.
  intros Hc Hg. unfold Client.process_message,
    Client.handle_screenshot_request, Client._capture_screen,
    Client.send_ack, Client.send. unroll. rewrite Hg. cbn. rewrite Hc. cbn.
  destruct (Client.raises w (S t) _); cbn; rewrite Hc; cbn;
    destruct (Client.raises w (S (S t)) _); reflexivity.
Qed.

(** X10.  A screenshot, end to end.  The hub sends the request on the
    agent's websocket; the agent, when its screen is grabbed, answers with
    the image, base64-encoded, and then the acknowledgement; on receiving
    these two texts the hub gives the image text to the future of the
    request, and the waiting call, when the text decodes to the image,
    sends the operator the photo, returns [True] and clears the entry of
    the agent. *)
Theorem screenshot_end_to_end file history client_id chat_id env env'
    websocket w c t conn image now now' :
  let h := steps (start file) history in
  ConnectionManager.active_connections (manager h) !! client_id = Some websocket ->
  endpoints h !! websocket = Some client_id ->
  Client.ws c = Some conn ->
  Client.grab w t = Some image ->
  image <> [] ->
  b64decode env' (JStr (b64encode image)) = inr image ->
  photo_failure env' = None ->
  let request := JObj [("type", JStr "screenshot_request")] in
  let future := fresh (dom (futures h)) in
  let h1 := (send_screenshot client_id chat_id env h).2 in
  let reply := Client.image_envelope "screenshot" image in
  let ack := Client.ack_envelope "screenshot_request" in
  let h2 := steps h1 [ Receives websocket (Text (Some reply)) now;
                       Receives websocket (Text (Some ack)) now' ] in
  let r := send_screenshot_wakes future env' h2 in
  sent h1 = (sent h ++ [WsSendJson websocket request])%list /\
  Client.trace (Client.process_message request w c t) =
    [Client.Grab; Client.WsSend reply; Client.WsSend ack] /\
  futures h2 !! future = Some (Done (JStr (b64encode image))) /\
  r.1 = Some (Returned true) /\
  sent r.2 = (sent h2 ++ [BotSendPhoto chat_id image client_id])%list /\
  screenshot_pending r.2 !! client_id = None.
Proof.
  intros h Ha He Hc Hg Hi Hd Hp request future h1 reply ack h2 r.
  assert (Hh1 : h1 =
    Hub (db h) (manager h) (<[client_id := future]> (screenshot_pending h))
        (<[future := Pending]> (futures h)) (endpoints h)
        (<[future := Waiter client_id chat_id SCREENSHOT_TIMEOUT]> (waiters h))
        (sent h ++ [WsSendJson websocket request])).
  { subst h1. rewrite (send_screenshot_suspends h _ _ _ websocket Ha).
    reflexivity. }
  assert (Hh2 : h2 =
    set_futures (<[future := Done (JStr (b64encode image))]> (futures h1)) h1).
  { subst h2. unfold steps. cbn [foldl step].
    assert (Hfirst :
      websocket_endpoint_turn websocket (Text (Some reply)) now h1 =
      set_futures (<[future := Done (JStr (b64encode image))]> (futures h1)) h1).
    { unfold websocket_endpoint_turn. rewrite Hh1 at 1. cbn [endpoints].
      rewrite He. unfold on_text, reply, Client.image_envelope.
      rewrite dict_get_object. cbn -[b64encode].
      rewrite Hh1 at 1. cbn [screenshot_pending]. rewrite lookup_insert_eq.
      unfold set_result. rewrite Hh1 at 1. cbn [futures].
      rewrite lookup_insert_eq. reflexivity. }
    rewrite Hfirst. unfold websocket_endpoint_turn.
    cbn [endpoints set_futures]. rewrite Hh1 at 1. cbn [endpoints]. rewrite He.
    reflexivity. }
  split; [rewrite Hh1; reflexivity|]. split.
  { destruct image as [|b image]; [contradiction|]. unfold request, reply, ack.
    rewrite (screenshot_request_answer w c t conn b image Hc Hg). reflexivity. }
  assert (Hf : futures h2 !! future = Some (Done (JStr (b64encode image)))).
  { rewrite Hh2. cbn [futures set_futures]. apply lookup_insert_eq. }
  assert (Hw : waiters h2 !! future =
               Some (Waiter client_id chat_id SCREENSHOT_TIMEOUT)).
  { rewrite Hh2. cbn [waiters set_futures]. rewrite Hh1. cbn [waiters].
    apply lookup_insert_eq. }
  split; [exact Hf|]. subst r. unfold send_screenshot_wakes.
  rewrite Hw. cbn [futures set_waiters]. rewrite Hf, Hd, Hp.
  cbn. repeat split. apply lookup_delete_eq.
Qed.

Lemma screenshot_end_to_end_witness :
  let h := steps (start init_db) [Connects 1 "desk-1" 0] in
  let decoder := BotEnv None None None (fun _ => inr ClientView.jpeg) in
  ConnectionManager.active_connections (manager h) !! 1%Z = Some 1%nat /\
  endpoints h !! 1%nat = Some 1%Z /\
  Client.ws ClientView.idle_client = Some 0%nat /\
  Client.grab ClientView.fair_weather 0 = Some ClientView.jpeg /\
  ClientView.jpeg <> [] /\
  b64decode decoder (JStr (b64encode ClientView.jpeg)) = inr ClientView.jpeg /\
  photo_failure decoder = None /\
  let h1 := (send_screenshot 1 77 telegram_up h).2 in
  let h2 := steps h1
              [ Receives 1 (Text (Some (Client.image_envelope "screenshot"
                                          ClientView.jpeg))) 1;
                Receives 1 (Text (Some (Client.ack_envelope
                                          "screenshot_request"))) 2 ] in
  (send_screenshot_wakes (fresh (dom (futures h))) decoder h2).1 =
    Some (Returned true).
Proof.
  intros h decoder.
  assert (Hj : ClientView.jpeg <> []) by discriminate.
  do 4 (split; [reflexivity|]). split; [exact Hj|].
  do 2 (split; [reflexivity|]). intros h1 h2.
  apply (screenshot_end_to_end init_db [Connects 1 "desk-1" 0] 1 77
           telegram_up decoder 1%nat ClientView.fair_weather
           ClientView.idle_client 0 0%nat ClientView.jpeg 1 2
           eq_refl eq_refl eq_refl eq_refl Hj eq_refl eq_refl).
Defined.


(** X11.  The three relayed commands, end to end.  When the second
    argument converts to the id of an agent that has a route, the command
    sends one envelope on that agent's websocket and answers that it did,
    whether or not the send failed; and a connected client on which no
    platform call raises does, on that envelope, what the command says:
    [/type] writes the text as it was given, whatever its length,
    [/browser] opens the url, [/shutdown] acknowledges, waits and shuts
    down; each is acknowledged. *)
Theorem relayed_commands h int failure a0 arg client_id websocket w c t conn :
  int arg = Some client_id ->
  ConnectionManager.active_connections (manager h) !! client_id = Some websocket ->
  Client.ws c = Some conn ->
  ClientView.calm w ->
  (forall text more,
     let envelope := JObj [("type", JStr "type"); ("text", JStr text)] in
     cmd_type (a0 :: arg :: text :: more) int failure h =
       (TypingAnswer client_id, say (WsSendJson websocket envelope) h) /\
     Client.trace (Client.process_message envelope w c t) =
       [Client.PyWrite (JStr text); Client.WsSend (Client.ack_envelope "type")]) /\
  (forall url more,
     let envelope := JObj [("type", JStr "browser"); ("url", JStr url)] in
     cmd_browser (a0 :: arg :: url :: more) int failure h =
       (OpeningAnswer url client_id, say (WsSendJson websocket envelope) h) /\
     Client.trace (Client.process_message envelope w c t) =
       [ Client.WebbrowserOpen (JStr url);
         Client.WsSend (Client.ack_envelope "browser") ]) /\
  (forall more,
     let envelope := JObj [("type", JStr "shutdown")] in
     cmd_shutdown (a0 :: arg :: more) int failure h =
       (ShutdownSentAnswer client_id, say (WsSendJson websocket envelope) h) /\
     Client.trace (Client.process_message envelope w c t) =
       [ Client.WsSend (Client.ack_envelope "shutdown");
         Client.Sleep (1 # 2);
         Client.OsSystem (if String.eqb (Client.os_name w) "nt"
                          then "shutdown /s /t 1" else "shutdown now") ]).
Proof.
  intros Hi Ha Hc [Hr _]. split; [|split].
  - intros text more envelope. split.
    + unfold cmd_type, send_to_client. rewrite Hi, Ha. cbn. rewrite ?Ha.
      reflexivity.
    + unfold envelope, Client.process_message, Client.handle_type,
        Client.send_ack, Client.send. unroll.
      rewrite typing_banner_str. cbn. rewrite Hr. cbn. rewrite Hc. cbn.
      rewrite Hr. reflexivity.
  - intros url more envelope. split.
    + unfold cmd_browser, send_to_client. rewrite Hi, Ha. cbn. rewrite ?Ha.
      reflexivity.
    + unfold envelope, Client.process_message, Client.handle_browser,
        Client.send_ack, Client.send. unroll.
      rewrite Hr. cbn. rewrite Hc. cbn. rewrite Hr. reflexivity.
  - intros more envelope. split.
    + unfold cmd_shutdown, send_to_client. rewrite Hi, Ha. cbn. rewrite ?Ha.
      reflexivity.
    + unfold envelope, Client.process_message, Client.handle_shutdown,
        Client.send_ack, Client.send. unroll.
      rewrite Hc. cbn. rewrite Hr. cbn.
      destruct (String.eqb (Client.os_name w) "nt"); cbn; rewrite Hr;
        reflexivity.
Qed.

Lemma relayed_commands_witness :
  let h := steps (start init_db) [Connects 1 "desk-1" 0] in
  two_agents "1" = Some 1%Z /\
  ConnectionManager.active_connections (manager h) !! 1%Z = Some 1%nat /\
  Client.ws ClientView.idle_client = Some 0%nat /\
  ClientView.calm ClientView.fair_weather /\
  (cmd_type ["/type"; "1"; "hello world"] two_agents
     (Some ConnectionClosed) h).1 = TypingAnswer 1 /\
  Client.trace
    (Client.process_message
       (JObj [("type", JStr "type"); ("text", JStr "hello world")])
       ClientView.fair_weather ClientView.idle_client 0) =
    [ Client.PyWrite (JStr "hello world");
      Client.WsSend (Client.ack_envelope "type") ].
Proof.
  intros h. do 3 (split; [reflexivity|]). split; [exact fair_weather_calm|].
  destruct (relayed_commands h two_agents (Some ConnectionClosed) "/type" "1"
              1 1%nat ClientView.fair_weather ClientView.idle_client 0 0%nat
              eq_refl eq_refl eq_refl fair_weather_calm) as (Ht & _ & _).
  destruct (Ht "hello world" []) as [Hcmd Htrace].
  split; [rewrite Hcmd; reflexivity|exact Htrace].
Defined.

(** X12.  A command whose arguments name no agent with a route reaches no
    agent: [/shutdown], [/browser] and [/type] leave the hub as it was
    and answer with the usage, the invalid id or the offline message;
    [/screenshot] creates no future, no pending entry and no waiting
    call, and sends at most the offline message to the chat. *)
Theorem commands_without_a_route h int failure env chat_id args :
  unroutable h int args ->
  (cmd_shutdown args int failure h).2 = h /\
  (cmd_browser args int failure h).2 = h /\
  (cmd_type args int failure h).2 = h /\
  (forall client_id,
     (cmd_shutdown args int failure h).1 <> ShutdownSentAnswer client_id /\
     (cmd_type args int failure h).1 <> TypingAnswer client_id /\
     forall url, (cmd_browser args int failure h).1 <> OpeningAnswer url client_id) /\
  let h' := (cmd_screenshot args int chat_id env h).2 in
  futures h' = futures h /\
  screenshot_pending h' = screenshot_pending h /\
  waiters h' = waiters h /\
  (sent h' = sent h \/
   exists client_id,
     sent h' = (sent h ++ [BotSendMessage chat_id (OfflineText client_id)])%list).
Proof.
  unfold unroutable, cmd_shutdown, cmd_browser, cmd_type, cmd_screenshot.
  intros Hu. destruct args as [|a0 [|arg rest]];
    [cbn; repeat split; auto; discriminate..|].
  destruct (int arg) as [client_id|] eqn:Ei.
  - rewrite Hu. unfold send_screenshot, bot_send_message. rewrite Hu.
    destruct rest; cbn; repeat split; eauto; discriminate.
  - destruct rest; cbn; repeat split; auto; discriminate.
Qed.

Lemma commands_without_a_route_witness :
  let h := steps (start init_db) [Connects 1 "desk-1" 0] in
  unroutable h two_agents ["/type"; "2"; "hello"] /\
  (cmd_type ["/type"; "2"; "hello"] two_agents None h).2 = h.
Proof.
  intros h.
  assert (Hu : unroutable h two_agents ["/type"; "2"; "hello"]) by reflexivity.
  split; [exact Hu|].
  apply (commands_without_a_route h two_agents None telegram_up 77
           ["/type"; "2"; "hello"] Hu).
Defined.

End EndToEnd.

(* ===================================================================== *)
(** * The client: more on the handlers *)
(* ===================================================================== *)

Section ClientMore.
Import Py Client ClientView ClientInvariants.

Ltac unroll :=
  unfold mbind, M_bind, bind, mret, M_ret, ret, get, modify, ask,
    try_except, except_cancelled, ext, emit, sleep, raise, lift, after;
  cbn.

(** X13.  A message that is no object, has no [type], or has a [type]
    that is none of the eight command kinds is ignored: no call is made,
    nothing is sent back, the client is as before, and no exception
    leaves the dispatch. *)
Theorem unknown_messages_are_ignored message w c t :
  (forall kind, kind ∈ command_kinds ->
     dict_get message "type" JNull <> inr (JStr kind)) ->
  process_message message w c t = Res (Ret tt) c t [].
Proof.
  intros H. unfold process_message.
  destruct message as [| | | | |fields]; try reflexivity.
  rewrite !dict_get_object in *.
  destruct (items_get "type" fields) as [v|]; [|reflexivity].
  destruct v as [| | |s| |]; try reflexivity.
  assert (Hs : forall kind, kind ∈ command_kinds -> String.eqb s kind = false).
  { intros kind Hk. destruct (String.eqb_spec s kind) as [->|]; [|reflexivity].
    exfalso. apply (H kind Hk). reflexivity. }
  unfold try_except. rewrite bind_lift_inr. cbn [eq_str].
  rewrite !Hs; [reflexivity|unfold command_kinds..];
    repeat first [apply list_elem_of_here | apply list_elem_of_further].
Qed.

Lemma unknown_messages_are_ignored_witness :
  (forall kind, kind ∈ command_kinds ->
     dict_get (JObj [("type", JStr "reboot")]) "type" JNull <> inr (JStr kind)) /\
  process_message (JObj [("type", JStr "reboot")]) fair_weather idle_client 0
    = Res (Ret tt) idle_client 0 [].
Proof.
  assert (H : forall kind, kind ∈ command_kinds ->
     dict_get (JObj [("type", JStr "reboot")]) "type" JNull <> inr (JStr kind)).
  { intros kind Hk Heq. injection Heq as <-. unfold command_kinds in Hk.
    repeat (apply elem_of_cons in Hk as [Hk|Hk]; [discriminate|]).
    apply elem_of_nil in Hk. exact Hk. }
  split; [exact H|].
  apply (unknown_messages_are_ignored _ fair_weather idle_client 0 H).
Defined.

(** X14.  [handle_start_stream] creates a streaming task only when the
    client is not streaming: started twice in a row, a connected client
    creates one task at most, the second start changes nothing, and both
    are acknowledged. *)
Theorem start_stream_twice w c t conn :
  ws c = Some conn ->
  let r := handle_start_stream w c t in
  let r' := handle_start_stream w (self r) (tick r) in
  is_streaming (self r) = true /\
  creations (trace r) = (if is_streaming c then 0 else 1)%nat /\
  (is_streaming c = false -> stream_task (self r) = Some t) /\
  (is_streaming c = true -> self r = c) /\
  creations (trace r') = 0%nat /\
  self r' = self r /\
  acks (trace r) = ["start_stream"] /\
  acks (trace r') = ["start_stream"].
Proof.
  intros H. destruct c as [url sock name streaming task]. cbn in H. subst sock.
  unfold handle_start_stream, create_task, send_ack, send. unroll.
  destruct streaming; cbn;
    repeat match goal with
           | |- context [raises ?w ?t ?k] => destruct (raises w t k); cbn
           end;
    repeat split; intros; try discriminate; reflexivity.
Qed.

Lemma start_stream_twice_witness :
  ws idle_client = Some 0%nat /\
  let r := handle_start_stream fair_weather idle_client 0 in
  creations (trace r) = 1%nat /\
  creations (trace (handle_start_stream fair_weather (self r) (tick r))) = 0%nat.
Proof.
  split; [reflexivity|]. intros r.
  destruct (start_stream_twice fair_weather idle_client 0 0%nat eq_refl)
    as (_ & H1 & _ & _ & H2 & _).
  split; [exact H1|exact H2].
Defined.

(** X15.  [disconnect] never raises and always leaves the client not
    streaming.  It cancels and awaits the streaming task before it closes
    the connection; when neither of the two raises, these are its only
    calls, and afterwards the client has no task and no connection.  When
    one of them raises, the connection object is kept. *)
Theorem disconnect_tears_down w c t :
  let r := disconnect w c t in
  out r = Ret tt /\
  is_streaming (self r) = false /\
  (ws (self r) = None \/ ws (self r) = ws c) /\
  (calm w ->
   trace r = teardown c /\
   stream_task (self r) = None /\
   ws (self r) = None).
Proof.
  destruct c as [url sock name streaming task].
  unfold disconnect, cancel_stream_task, await_stream_task, teardown. unroll.
  destruct task as [task|], sock as [sock|]; cbn;
    repeat match goal with
           | |- context [task_end ?w ?t] => destruct (task_end w t) eqn:?; cbn
           | |- context [raises ?w ?t ?k] => destruct (raises w t k) eqn:?; cbn
           end;
    (split; [reflexivity|]); (split; [reflexivity|]); (split; [auto|]);
    intros [Hr Ht]; try (exfalso; eapply Ht; eassumption);
    try (rewrite Hr in *; discriminate); auto.
Qed.

End ClientMore.

(* ===================================================================== *)
(** * The client: the connection through the handlers and the loop *)
(* ===================================================================== *)

Section ClientConnection.
Import Py Client ClientView ClientInvariants.

Lemma sends_nothing_app tr tr' :
  sends_nothing tr -> sends_nothing tr' -> sends_nothing (tr ++ tr').
Proof. intros. apply Forall_app. auto. Qed.

Lemma sends_nothing_one k : is_send k = false -> sends_nothing [k].
Proof. intros H. repeat constructor. exact H. Qed.

Lemma keeps_ret {A} (a : A) : keeps_connection (ret a).
Proof. intros w c t. split; [reflexivity|intros _; constructor]. Qed.

Lemma keeps_mret {A} (a : A) : keeps_connection (mret a : M A).
Proof. apply keeps_ret. Qed.

Lemma keeps_get : keeps_connection get.
Proof. intros w c t. split; [reflexivity|intros _; constructor]. Qed.

Lemma keeps_ask : keeps_connection ask.
Proof. intros w c t. split; [reflexivity|intros _; constructor]. Qed.

Lemma keeps_raise {A} e : keeps_connection (raise e : M A).
Proof. intros w c t. split; [reflexivity|intros _; constructor]. Qed.

Lemma keeps_lift {A} (x : exn + A) : keeps_connection (lift x).
Proof. destruct x; [apply keeps_raise|apply keeps_ret]. Qed.

Lemma keeps_set_is_streaming b : keeps_connection (modify (set_is_streaming b)).
Proof. intros w c t. split; [reflexivity|intros _; constructor]. Qed.

Lemma keeps_set_stream_task v : keeps_connection (modify (set_stream_task v)).
Proof. intros w c t. split; [reflexivity|intros _; constructor]. Qed.

Lemma keeps_ext k : is_send k = false -> keeps_connection (ext k).
Proof.
  intros H w c t. split; [reflexivity|intros _; apply sends_nothing_one, H].
Qed.

Lemma keeps_emit k : is_send k = false -> keeps_connection (emit k).
Proof.
  intros H w c t. split; [reflexivity|intros _; apply sends_nothing_one, H].
Qed.

Lemma keeps_sleep d : keeps_connection (sleep d).
Proof. apply keeps_emit. reflexivity. Qed.

Lemma keeps_capture : keeps_connection _capture_screen.
Proof.
  intros w c t. split; [reflexivity|].
  intros _. apply sends_nothing_one. reflexivity.
Qed.

Lemma keeps_create_task : keeps_connection create_task.
Proof.
  intros w c t. split; [reflexivity|].
  intros _. apply sends_nothing_one. reflexivity.
Qed.

Lemma keeps_await_stream_task : keeps_connection await_stream_task.
Proof.
  intros w c t. split; [reflexivity|].
  intros _. apply sends_nothing_one. reflexivity.
Qed.

Lemma keeps_bind {A B} (m : M A) (k : A -> M B) :
  keeps_connection m -> (forall a, keeps_connection (k a)) ->
  keeps_connection (m ≫= k).
Proof.
  intros Hm Hk w c t. unfold mbind, M_bind, bind.
  destruct (Hm w c t) as [Hw Hs]. destruct (m w c t) as [[a|e|] c' t' tr];
    cbn in Hw, Hs |- *; [|auto..].
  destruct (Hk a w c' t') as [Hw' Hs']. destruct (k a w c' t'). cbn in *.
  split; [congruence|]. intros Hn. apply sends_nothing_app; [auto|].
  apply Hs'. congruence.
Qed.

Lemma keeps_try {A} (body : M A) (handler : exn -> M A) :
  keeps_connection body -> (forall e, keeps_connection (handler e)) ->
  keeps_connection (try_except body handler).
Proof.
  intros Hb Hh w c t. unfold try_except.
  destruct (Hb w c t) as [Hw Hs]. destruct (body w c t) as [[a|e|] c' t' tr];
    cbn in Hw, Hs |- *; [auto| |auto].
  destruct (Hh e w c' t') as [Hw' Hs']. destruct (handler e w c' t'). cbn in *.
  split; [congruence|]. intros Hn. apply sends_nothing_app; [auto|].
  apply Hs'. congruence.
Qed.

Lemma keeps_except_cancelled m :
  keeps_connection m -> keeps_connection (except_cancelled m).
Proof.
  intros Hm w c t. unfold except_cancelled.
  destruct (Hm w c t) as [Hw Hs]. destruct (m w c t) as [[a|e|] c' t' tr];
    cbn in *; auto.
Qed.

(** [send] is the one place that sends, and only with a connection. *)
Lemma keeps_send data : keeps_connection (send data).
Proof.
  intros w c t. unfold send, mbind, M_bind, bind, get, try_except, ext, ret,
    after. cbn.
  destruct (ws c) eqn:E; cbn.
  - destruct (raises w t (WsSend data)); cbn; (split; [congruence|congruence]).
  - split; [congruence|intros _; constructor].
Qed.

Lemma keeps_send_ack command : keeps_connection (send_ack command).
Proof. apply keeps_send. Qed.

(** Goes through a handler, case by case. *)
Ltac keeping :=
  repeat first
    [ apply keeps_send_ack | apply keeps_send | apply keeps_sleep
    | apply keeps_capture | apply keeps_create_task
    | apply keeps_await_stream_task
    | apply keeps_get | apply keeps_ask
    | apply keeps_set_is_streaming | apply keeps_set_stream_task
    | apply keeps_ret | apply keeps_mret
    | apply keeps_lift | apply keeps_raise
    | apply keeps_ext; reflexivity
    | apply keeps_emit; reflexivity
    | apply keeps_except_cancelled
    | apply keeps_try
    | apply keeps_bind
    | progress intros
    | match goal with
      | |- keeps_connection (if ?b then _ else _) => destruct b
      | |- keeps_connection (match ?x with _ => _ end) => destruct x
      end ].

Lemma keeps_process_message message : keeps_connection (process_message message).
Proof.
  unfold process_message. apply keeps_try; [|keeping].
  apply keeps_bind; [keeping|]. intros msg_type.
  assert (Hrest : keeps_connection
    (if eq_str msg_type "screenshot_request" then handle_screenshot_request
     else if eq_str msg_type "shutdown" then handle_shutdown
     else if eq_str msg_type "browser" then
       lift (dict_get message "url" (JStr "")) ≫= handle_browser
     else if eq_str msg_type "type" then
       lift (dict_get message "text" (JStr "")) ≫= handle_type
     else if eq_str msg_type "mouse_event" then
       lift (dict_get message "event" (JStr "")) ≫=
         (fun event => call_handle_mouse_event event message)
     else if eq_str msg_type "keyboard_event" then
       lift (dict_get message "event" (JStr "")) ≫= (fun event =>
       lift (dict_get message "key" JNull) ≫= (fun key =>
       lift (dict_get message "code" JNull) ≫= (fun code =>
       handle_keyboard_event event key code)))
     else if eq_str msg_type "start_stream" then handle_start_stream
     else if eq_str msg_type "stop_stream" then handle_stop_stream
     else ret tt)).
  { unfold handle_screenshot_request, handle_shutdown, handle_browser,
      handle_type, call_handle_mouse_event, handle_mouse_event, move_if_given,
      handle_keyboard_event, handle_start_stream, handle_stop_stream,
      cancel_stream_task.
    cbn zeta. keeping. }
  destruct msg_type; exact Hrest.
Qed.

(** X16.  No handler touches [self.ws], and a client without a connection
    sends nothing: whatever message it is given to process, its trace has
    no send, while the side effects of the command are still carried
    out. *)
Theorem offline_client_sends_nothing message w c t :
  let r := process_message message w c t in
  ws (self r) = ws c /\
  (ws c = None -> sends_nothing (trace r) /\ acks (trace r) = []).
Proof.
  intros r. destruct (keeps_process_message message w c t) as [Hw Hs].
  split; [exact Hw|]. intros Hn. specialize (Hs Hn). split; [exact Hs|].
  fold r in Hs. unfold acks. induction Hs as [|k tr Hk _ IH]; [reflexivity|].
  cbn. destruct k; try discriminate; exact IH.
Qed.

Lemma keeps_receive_one r : keeps_connection (receive_one r).
Proof.
  unfold receive_one. apply keeps_try.
  - apply keeps_bind.
    + intros w c t. unfold ws_recv. destruct (ws c) eqn:E; cbn;
        (split; [congruence|]); [discriminate|intros _; constructor].
    + intros message. apply keeps_bind; [apply keeps_lift|]. intros data.
      apply keeps_bind; [apply keeps_process_message|]. intros.
      apply keeps_ret.
  - intros e. destruct e; apply keeps_ret.
Qed.

Lemma keeps_message_loop inbound : keeps_connection (message_loop inbound).
Proof.
  induction inbound as [|r rest IH]; cbn [message_loop]; [apply keeps_ret|].
  apply keeps_bind; [apply keeps_receive_one|].
  intros f. destruct f; [exact IH|apply keeps_ret].
Qed.

Lemma disconnect_stops w c t : is_streaming (self (disconnect w c t)) = false.
Proof.
  destruct c as [url sock name streaming task].
  unfold disconnect, cancel_stream_task, await_stream_task.
  unfold mbind, M_bind, bind, mret, M_ret, ret, get, modify,
    try_except, except_cancelled, ext, emit, after. cbn.
  destruct task as [task|], sock as [sock|]; cbn;
    repeat match goal with
           | |- context [task_end ?w ?t] => destruct (task_end w t); cbn
           | |- context [raises ?w ?t ?k] => destruct (raises w t k); cbn
           end; reflexivity.
Qed.

Lemma run_iteration_connects_state conn inbound w c t :
  exists e c' t' tr,
    run_iteration (Connects conn inbound) w c t = Res (Ret e) c' t' tr /\
    e <> Retry /\ ws c' = Some conn.
Proof.
  unfold run_iteration, try_except, connect, ws_connect.
  unfold mbind, M_bind, bind, get, modify, mret, M_ret, ret. cbn.
  destruct (settled_message_loop inbound w (set_ws (Some conn) c) (S t))
    as [[a Ha] _].
  destruct (keeps_message_loop inbound w (set_ws (Some conn) c) (S t))
    as [Hw _].
  destruct (message_loop inbound w (set_ws (Some conn) c) (S t))
    as [o c' t' tr]. cbn in Ha, Hw. subst o. cbn.
  destruct a; cbn; do 4 eexists; (split; [reflexivity|]);
    (split; [discriminate|exact Hw]).
Qed.

(** X17.  Where the main loop stands.  When it is suspended in [recv],
    the client holds the connection of one of the attempts that
    succeeded.  When it is about to connect again, a client that was not
    streaming at the start is not streaming: the streaming flag does not
    outlive the session it was set in. *)
Theorem run_positions script : forall w c t,
  let r := run script w c t in
  (out r = Ret AtRecv ->
   exists conn inbound,
     Connects conn inbound ∈ script /\ ws (self r) = Some conn) /\
  (is_streaming c = false -> out r = Ret AtConnect ->
   is_streaming (self r) = false).
Proof.
  induction script as [|a rest IH]; intros w c t.
  { cbn. split; [discriminate|auto]. }
  cbn [run]. unfold mbind, M_bind, bind. destruct a as [e|conn inbound].
  - rewrite run_iteration_fails.
    destruct (IH w c (S (S t))) as [Hr Hc].
    destruct (run rest w c (S (S t))) as [o c' t' tr]. cbn in Hr, Hc |- *.
    split; [|exact Hc].
    intros Ho. destruct (Hr Ho) as (conn & inbound & Hin & Hws).
    exists conn, inbound. split; [right; exact Hin|exact Hws].
  - destruct (run_iteration_connects_state conn inbound w c t)
      as (e & c1 & t1 & tr1 & -> & He & Hws).
    destruct e; [contradiction| |].
    + pose proof (disconnect_stops w c1 t1) as Hs.
      destruct (settled_disconnect w c1 t1) as [[[] Hd] _].
      destruct (disconnect w c1 t1) as [o2 c2 t2 tr2]. cbn in Hd, Hs.
      subst o2. unfold sleep, emit. cbn.
      destruct (IH w c2 (S t2)) as [Hr Hc].
      destruct (run rest w c2 (S t2)) as [o c' t' tr]. cbn in Hr, Hc |- *.
      split; [|auto].
      intros Ho. destruct (Hr Ho) as (conn' & inbound' & Hin & Hws').
      exists conn', inbound'. split; [right; exact Hin|exact Hws'].
    + cbn. split; [|discriminate]. intros _. exists conn, inbound.
      split; [left|exact Hws].
Qed.

(** X18.  In a session, a text that is no JSON is skipped: the loop goes
    on with the next text, and nothing but the call to [recv] is left of
    it.  A closed connection, or any other exception of [recv], ends the
    session at once: what the script holds after it is never received. *)
Theorem message_loop_skips_and_breaks rest w c t conn :
  ws c = Some conn ->
  message_loop (RecvText None :: rest) w c t =
    after [WsRecv] (message_loop rest w c (S t)) /\
  (forall e, e <> JSONDecodeError ->
     message_loop (RecvRaises e :: rest) w c t =
       Res (Ret Broke) c (S t) [WsRecv]).
Proof.
  intros H. split.
  - cbn [message_loop]. unfold receive_one, ws_recv, try_except, json_loads.
    unfold mbind, M_bind, bind, lift, raise, ret, after. rewrite H. cbn.
    destruct (message_loop rest w c (S t)) as [[]]; reflexivity.
  - intros e He. cbn [message_loop].
    unfold receive_one, ws_recv, try_except, mbind, M_bind, bind, ret.
    rewrite H. cbn. destruct e; try reflexivity. contradiction.
Qed.

Lemma message_loop_skips_and_breaks_witness :
  ws idle_client = Some 0%nat /\
  message_loop [RecvText None; RecvRaises ConnectionClosed;
                RecvText (Some type_hello)] fair_weather idle_client 0 =
    Res (Ret Broke) idle_client 2 [WsRecv; WsRecv].
Proof.
  split; [reflexivity|].
  destruct (message_loop_skips_and_breaks
              [RecvRaises ConnectionClosed; RecvText (Some type_hello)]
              fair_weather idle_client 0 0%nat eq_refl) as [Hskip _].
  rewrite Hskip. reflexivity.
Defined.

End ClientConnection.

(* ===================================================================== *)
(** * The client: keyboard and mouse input *)
(* ===================================================================== *)

Section ClientInput.
Import Py Client ClientView ClientInvariants.

Lemma assoc_str_app s m m' :
  assoc_str s (m ++ m')%list =
    match assoc_str s m with Some k => Some k | None => assoc_str s m' end.
Proof.
  induction m as [|[k' v] m IH]; cbn; [reflexivity|].
  destruct (String.eqb s k'); [reflexivity|exact IH].
Qed.

Lemma assoc_str_absent s m : s ∉ m.*1 -> assoc_str s m = None.
Proof.
  induction m as [|[k' v] m IH]; cbn; [reflexivity|].
  intros Hn. apply not_elem_of_cons in Hn as [Hne Hn].
  destruct (String.eqb_spec s k'); [contradiction|auto].
Qed.

Lemma keydown_map_split : keydown_map = (keyup_map ++ function_keys)%list.
Proof. reflexivity. Qed.

Lemma translate_outside_function_keys s :
  s ∉ function_keys.*1 -> translate keydown_map s = translate keyup_map s.
Proof.
  intros Hn. unfold translate. rewrite keydown_map_split, assoc_str_app.
  rewrite (assoc_str_absent s function_keys Hn).
  destruct (assoc_str s keyup_map); reflexivity.
Qed.

Lemma translate_function_key s :
  s ∈ function_keys.*1 ->
  translate keyup_map s = s /\ translate keydown_map s <> s.
Proof.
  intros Hin. cbn in Hin.
  repeat (apply elem_of_cons in Hin as [->|Hin];
          [split; [reflexivity|discriminate]|]).
  apply elem_of_nil in Hin. contradiction.
Qed.

Lemma key_map_get_translate km s : key_map_get km (JStr s) = inr (JStr (translate km s)).
Proof.
  unfold key_map_get, translate. cbn. destruct (assoc_str s km); reflexivity.
Qed.

(** X19.  What is pressed and what is released.  For a key given as a
    string, on a connected client whose platform calls succeed,
    [keydown] presses the key's name in the table of [keydown] and
    [keyup] releases its name in the table of [keyup], each followed by
    the ack.  The two names are the same for every key but F1 .. F12,
    which only the first table has: there the lower-case name is pressed
    and the name as it was sent is released. *)
Theorem key_press_and_release s code w c t conn :
  ws c = Some conn -> calm w ->
  trace (handle_keyboard_event (JStr "keydown") (JStr s) code w c t) =
    [KeyDown (JStr (translate keydown_map s));
     WsSend (ack_envelope "keyboard_event")] /\
  trace (handle_keyboard_event (JStr "keyup") (JStr s) code w c t) =
    [KeyUp (JStr (translate keyup_map s));
     WsSend (ack_envelope "keyboard_event")] /\
  (s ∉ function_keys.*1 -> translate keydown_map s = translate keyup_map s) /\
  (s ∈ function_keys.*1 ->
   translate keyup_map s = s /\ translate keydown_map s <> s).
Proof.
  intros Hws [Hr _].
  split; [|split; [|split; [apply translate_outside_function_keys
                           |apply translate_function_key]]].
  - unfold handle_keyboard_event. cbn [eq_str String.eqb Ascii.eqb Bool.eqb].
    rewrite key_map_get_translate. generalize (translate keydown_map s) as k.
    intros k. destruct (single_char_str k) as [one Hone].
    unfold send_ack, send, try_except, mbind, M_bind,
      bind, lift, ext, get, ret, after. rewrite Hone.
    destruct one; cbn; rewrite ?Hr, ?Hws; cbn; rewrite ?Hr, ?Hws; cbn;
      rewrite ?Hr; reflexivity.
  - unfold handle_keyboard_event. cbn [eq_str String.eqb Ascii.eqb Bool.eqb].
    rewrite key_map_get_translate. generalize (translate keyup_map s) as k.
    intros k. unfold send_ack, send, try_except, mbind, M_bind,
      bind, lift, ext, get, ret, after. cbn.
    rewrite ?Hr, ?Hws; cbn; rewrite ?Hr, ?Hws; cbn; rewrite ?Hr; reflexivity.
Qed.

Lemma key_press_and_release_witness :
  trace (handle_keyboard_event (JStr "keydown") (JStr "F5") JNull
           fair_weather idle_client 0) =
    [KeyDown (JStr "f5"); WsSend (ack_envelope "keyboard_event")] /\
  trace (handle_keyboard_event (JStr "keyup") (JStr "F5") JNull
           fair_weather idle_client 0) =
    [KeyUp (JStr "F5"); WsSend (ack_envelope "keyboard_event")].
Proof.
  destruct (key_press_and_release "F5" JNull fair_weather idle_client 0 0%nat
              eq_refl fair_weather_calm) as (Hd & Hu & _).
  split; [exact Hd|exact Hu].
Defined.

(** X20.  The pointer moves and the wheel turns only as the fields say.
    Whatever the event and the fields, a [moveTo] in the trace of the
    mouse handler goes to the [x] and [y] of the command, both given
    (not [None]), for one of the four events that move; a [scroll] is
    made for [wheel] only, by minus the [deltaY] of the command (0 when
    absent). *)
Theorem mouse_effects_come_from_the_fields event kwargs w c t :
  let tr := trace (handle_mouse_event event kwargs w c t) in
  (forall a b, MoveTo a b ∈ tr ->
     a = kwargs_get kwargs "x" JNull /\ b = kwargs_get kwargs "y" JNull /\
     a <> JNull /\ b <> JNull /\
     (eq_str event "mousemove" || eq_str event "mousedown" ||
      eq_str event "click" || eq_str event "doubleclick")%bool = true) /\
  (forall z, Scroll z ∈ tr ->
     eq_str event "wheel" = true /\
     int_neg (kwargs_get kwargs "deltaY" (JInt 0)) = inr z).
Proof.
  unfold handle_mouse_event, move_if_given. cbn zeta.
  generalize (kwargs_get kwargs "x" JNull) as x.
  generalize (kwargs_get kwargs "y" JNull) as y.
  generalize (kwargs_get kwargs "deltaY" (JInt 0)) as dy.
  generalize (kwargs_get kwargs "button" (JInt 1)) as button.
  intros button dy y x.
  assert (Hxy : (is_not_None x && is_not_None y)%bool = true ->
                x <> JNull /\ y <> JNull).
  { destruct x, y; cbn; intros; try discriminate; split; discriminate. }
  unfold send_ack, send, try_except, mbind, M_bind, bind, lift, raise, ext,
    get, ret, after.
  destruct (button_map_get button) as [e|pb]; cbn.
  { split; intros ? **; match goal with H : _ ∈ [] |- _ =>
      apply elem_of_nil in H; contradiction end. }
  destruct (eq_str event "mousemove") eqn:E1;
  [|destruct (eq_str event "mousedown") eqn:E2;
  [|destruct (eq_str event "mouseup") eqn:E3;
  [|destruct (eq_str event "click") eqn:E4;
  [|destruct (eq_str event "doubleclick") eqn:E5;
  [|destruct (eq_str event "wheel") eqn:E6]]]]];
  try destruct (is_not_None x && is_not_None y)%bool eqn:Exy;
  try destruct (int_neg dy) as [e|z'] eqn:Ed; cbn;
  repeat match goal with
         | |- context [raises ?w ?t ?k] => destruct (raises w t k); cbn
         | |- context [ws ?c] => destruct (ws c); cbn
         end;
  (split; [intros a b Hin|intros z Hin]);
  repeat (apply elem_of_cons in Hin as [Hin|Hin]; [try discriminate|]);
  try (apply elem_of_nil in Hin; contradiction);
  try (injection Hin as -> ->; destruct (Hxy eq_refl); auto);
  try (injection Hin as ->; auto).
Qed.

End ClientInput.

(* ===================================================================== *)
(** * The client: a stream started and stopped *)
(* ===================================================================== *)

Section ClientStreamRoundTrip.
Import Py Client ClientView ClientInvariants.

(** X21.  Starting and then stopping the stream brings an idle client
    back to where it was.  For a connected client that is not streaming
    and has no task, when no call raises, [handle_start_stream] followed
    by [handle_stop_stream] returns, leaves the client object as it was
    before the two, and makes these calls in this order: the task is
    created, the start is acknowledged, the task is cancelled and
    awaited, the stop is acknowledged. *)
Theorem start_then_stop_stream w c t conn :
  ws c = Some conn -> is_streaming c = false -> stream_task c = None ->
  calm w ->
  let r := (handle_start_stream;; handle_stop_stream) w c t in
  out r = Ret tt /\ self r = c /\
  trace r = [CreateTask; WsSend (ack_envelope "start_stream");
             TaskCancel; TaskAwait; WsSend (ack_envelope "stop_stream")].
Proof.
  intros Hws Hs Ht [Hr He].
  destruct c as [url sock name streaming task]. cbn in Hws, Hs, Ht. subst.
  unfold handle_start_stream, handle_stop_stream, cancel_stream_task,
    create_task, await_stream_task, send_ack, send.
  unfold mbind, M_bind, bind, mret, M_ret, ret, get, modify, try_except,
    except_cancelled, ext, emit, after. cbn.
  rewrite ?Hr. cbn.
  match goal with
  | |- context [task_end w ?t'] => destruct (task_end w t') eqn:E
  end; cbn; rewrite ?Hr; cbn;
    try (exfalso; eapply He; exact E); repeat split; reflexivity.
Qed.

Lemma start_then_stop_stream_witness :
  let r := (handle_start_stream;; handle_stop_stream) fair_weather idle_client 0 in
  out r = Ret tt /\ self r = idle_client.
Proof.
  intros r.
  destruct (start_then_stop_stream fair_weather idle_client 0 0%nat
              eq_refl eq_refl eq_refl fair_weather_calm) as (Ho & Hc & _).
  split; [exact Ho|exact Hc].
Defined.

End ClientStreamRoundTrip.
